(** * ai-hr-job-matcher: the LLM client, the JSON salvager and the upload helper

    A shallow embedding of [src/llm_utils.py] ([call_llm],
    [clean_json_response], [safe_json_parse]), of [src/pdf_utils.py]
    ([extract_text_from_file] and its helpers) and of [handle_file_upload]
    from [src/app.py], with the properties of the specification stated and
    settled against them.

    Conventions.
    - A Python [str] is a list of Unicode code points ([N]); [py "..."] turns
      an ASCII literal of the source into that representation.
    - Library calls ([str.strip], [re.sub], [json.loads], [json.dumps],
      [requests.post], [time.sleep] ...) are modelled by their documented
      behaviour; every repository function keeps its name.
    - Wall-clock time is a rational number of seconds; [print] and the
      Streamlit notices leave no trace in the model. *)

From Stdlib Require Import Ascii String DecimalString.
From Stdlib Require Import List NArith ZArith QArith Bool Lia Lqa.
Import ListNotations.

Set Implicit Arguments.
Close Scope Q_scope.
Open Scope nat_scope.
Open Scope list_scope.

(* ================================================================= *)
(** ** Python strings *)

Module Py.

(** A character is its code point; a string is the list of its characters. *)
Abbreviation char := N.
Abbreviation str := (list N).

Definition chr (a : ascii) : char := N_of_ascii a.

(** An ASCII literal of the source as a Python string. *)
Definition py (s : string) : str := map chr (list_ascii_of_string s).

(** The same, with every single quote of the literal standing for a double
    quote (code point 34): used to write JSON texts. *)
Definition pyq (s : string) : str :=
  map (fun a => if Ascii.eqb a "'" then 34%N else chr a)
      (list_ascii_of_string s).

Definition char_eqb (a b : char) : bool := N.eqb a b.

Fixpoint str_eqb (a b : str) : bool :=
  match a, b with
  | [], [] => true
  | x :: a', y :: b' => char_eqb x y && str_eqb a' b'
  | _, _ => false
  end.

(** [str.isspace] on one character; [\s] of a [str] pattern is the same set
    (CPython's [_PyUnicode_IsWhitespace]). *)
Definition isspace (c : char) : bool :=
  (((9 <=? c) && (c <=? 13)) || ((28 <=? c) && (c <=? 32))
   || (c =? 133) || (c =? 160) || (c =? 5760)
   || ((8192 <=? c) && (c <=? 8202))
   || (c =? 8232) || (c =? 8233) || (c =? 8239) || (c =? 8287)
   || (c =? 12288))%N.

Fixpoint lstrip (s : str) : str :=
  match s with
  | c :: s' => if isspace c then lstrip s' else s
  | [] => []
  end.

Definition rstrip (s : str) : str := rev (lstrip (rev s)).

(** [s.strip()] *)
Definition strip (s : str) : str := rstrip (lstrip s).

(** [s.startswith(p)] *)
Fixpoint startswith (p s : str) : bool :=
  match p, s with
  | [], _ => true
  | a :: p', b :: s' => char_eqb a b && startswith p' s'
  | _ :: _, [] => false
  end.

(** [s.endswith(p)] *)
Definition endswith (p s : str) : bool := startswith (rev p) (rev s).

(** [sub in s] *)
Fixpoint contains (sub s : str) : bool :=
  startswith sub s
  || match s with
     | [] => false
     | _ :: s' => contains sub s'
     end.

Fixpoint index_of (c : char) (s : str) : option nat :=
  match s with
  | [] => None
  | x :: s' => if char_eqb x c then Some 0
               else option_map S (index_of c s')
  end.

Fixpoint last_index_of (c : char) (s : str) : option nat :=
  match s with
  | [] => None
  | x :: s' =>
      match last_index_of c s' with
      | Some i => Some (S i)
      | None => if char_eqb x c then Some 0 else None
      end
  end.

(** [s.find(c)] and [s.rfind(c)] for a one-character needle: the index, or
    [-1]. *)
Definition find (c : char) (s : str) : Z :=
  match index_of c s with Some i => Z.of_nat i | None => (-1)%Z end.

Definition rfind (c : char) (s : str) : Z :=
  match last_index_of c s with Some i => Z.of_nat i | None => (-1)%Z end.

(** [s[a:b]]: negative bounds count from the end, all bounds are clamped. *)
Definition norm_index (len i : Z) : Z :=
  (if i <? 0 then Z.max 0 (i + len) else Z.min i len)%Z.

Definition slice (s : str) (a b : Z) : str :=
  let len := Z.of_nat (length s) in
  let a' := norm_index len a in
  let b' := norm_index len b in
  firstn (Z.to_nat (b' - a')) (skipn (Z.to_nat a') s).

(** [s.replace(a, b)] for a one-character [a]. *)
Definition replace_char (a : char) (b : str) (s : str) : str :=
  flat_map (fun c => if char_eqb c a then b else [c]) s.

(** Length of the leading whitespace run: what a greedy [\s*] consumes. *)
Fixpoint count_ws (s : str) : nat :=
  match s with
  | c :: s' => if isspace c then S (count_ws s') else 0
  | [] => 0
  end.

(** *** [re.sub]

    A compiled pattern is seen through the one question [re.sub] asks of it:
    does it match at the head of this text, and over how many characters.
    The scan goes left to right; a match emits the replacement and the
    matched characters are skipped ([skip] counts those still to drop).
    None of the patterns of this program matches the empty string. *)
Section ReSub.
Variable pattern : str -> option nat.
Variable repl : str.

Fixpoint re_sub_go (skip : nat) (s : str) : str :=
  match s with
  | [] => []
  | c :: rest =>
      match skip with
      | S k => re_sub_go k rest
      | 0 =>
          match pattern s with
          | Some (S k) => repl ++ re_sub_go k rest
          | Some 0 => repl ++ c :: re_sub_go 0 rest
          | None => c :: re_sub_go 0 rest
          end
      end
  end.

Definition re_sub (s : str) : str := re_sub_go 0 s.

(** The pattern matches nowhere in [s]. *)
Fixpoint no_match (s : str) : bool :=
  match s with
  | [] => true
  | _ :: r => match pattern s with
              | None => no_match r
              | Some _ => false
              end
  end.
End ReSub.

End Py.

Import Py.

(* ================================================================= *)
(** ** [clean_json_response] *)

(** [r'```json?\s*']: three backticks, [jso], an optional [n], then
    whitespace. *)
Definition re_fence_json (s : str) : option nat :=
  if startswith (py "```jso") s then
    let r := skipn 6 s in
    let k := match r with
             | c :: _ => if char_eqb c (chr "n") then 1 else 0
             | [] => 0
             end in
    Some (6 + k + count_ws (skipn k r))
  else None.

(** [r'```\s*'] *)
Definition re_fence (s : str) : option nat :=
  if startswith (py "```") s then Some (3 + count_ws (skipn 3 s)) else None.

(** [r',\s*}'] and [r',\s*]']: a comma, whitespace, the closing character.
    The closing character is not whitespace, so the greedy run is the only
    candidate. *)
Definition re_comma (close : char) (s : str) : option nat :=
  match s with
  | c :: r =>
      if char_eqb c (chr ",") then
        match nth_error r (count_ws r) with
        | Some d => if char_eqb d close then Some (count_ws r + 2) else None
        | None => None
        end
      else None
  | [] => None
  end.

Definition fix_commas (json_str : str) : str :=
  let json_str := re_sub (re_comma (chr "}")) (py "}") json_str in
  let json_str := re_sub (re_comma (chr "]")) (py "]") json_str in
  json_str.

Definition clean_json_response (response : str) : str :=
  match response with
  | [] => py "{}"
  | _ =>
      let cleaned := strip response in
      let cleaned :=
        if contains (py "```") cleaned then
          let cleaned := re_sub re_fence_json [] cleaned in
          re_sub re_fence [] cleaned
        else cleaned in
      let start := find (chr "{") cleaned in
      let end_ := (rfind (chr "}") cleaned + 1)%Z in
      if negb (start =? -1)%Z && (end_ >? start)%Z then
        let json_str := slice cleaned start end_ in
        fix_commas json_str
      else py "{}"
  end.

(** What a scan keeps of the backticks at the head of a text: it removes
    whole matches only, so one or two backticks at the head of the result
    were at the head of the text. *)
Definition heads_kept (s out : str) : Prop :=
  (startswith [96%N] out = true -> startswith [96%N] s = true)
  /\ (startswith [96; 96]%N out = true -> startswith [96; 96]%N s = true).

(** No comma of [s] is followed, after optional whitespace, by a closing
    brace or bracket: the comma repairs find nothing to do. *)
Definition trailing_comma_free (s : str) : bool :=
  no_match (re_comma (chr "}")) s && no_match (re_comma (chr "]")) s.

(** A text in braces: what the slice of [clean_json_response] is. *)
Definition braced (s : str) : Prop := exists mid, s = 123%N :: mid ++ [125%N].

Definition is_braced (s : str) : bool :=
  match s with
  | c :: r => (c =? 123)%N
              && match rev r with
                 | d :: _ => (d =? 125)%N
                 | [] => false
                 end
  | [] => false
  end.

(* ================================================================= *)
(** ** [json.loads] and [json.dumps]

    The decoder follows CPython's scanner ([Modules/_json.c] driven by
    [json/decoder.py]): strict mode, the extra constants [NaN], [Infinity]
    and [-Infinity], integers as [int], every other number as [float] (kept
    as its lexeme, floating point is not modelled).  A failure is a
    [JSONDecodeError] with its message and position.  The interpreter's
    recursion limit and its limit on the digits of an [int] are not
    modelled. *)

#[warnings="-register-all"]
Inductive json : Type :=
| JNull
| JBool (b : bool)
| JInt (n : Z)
| JFloat (lexeme : str)
| JStr (s : str)
| JList (items : list json)
| JDict (pairs : list (str * json)).

(** [d[k] = v] on an insertion-ordered dict. *)
Fixpoint dict_set (d : list (str * json)) (k : str) (v : json)
  : list (str * json) :=
  match d with
  | [] => [(k, v)]
  | (k', v') :: d' =>
      if str_eqb k' k then (k, v) :: d' else (k', v') :: dict_set d' k v
  end.

Fixpoint dict_get (d : list (str * json)) (k : str) : option json :=
  match d with
  | [] => None
  | (k', v) :: d' => if str_eqb k' k then Some v else dict_get d' k
  end.

(** The result of one scanning step.  A failure records how many characters
    of the document were left at the point of the error; [json_loads] turns
    that into the position from the start. *)
Inductive scan (A : Type) : Type :=
| Scanned (v : A) (rest : str)
| Failed (msg : str) (remaining : nat)
| OutOfFuel.

Arguments Scanned {A} v rest.
Arguments Failed {A} msg remaining.
Arguments OutOfFuel {A}.

Definition json_ws (c : char) : bool :=
  ((c =? 32) || (c =? 9) || (c =? 10) || (c =? 13))%N.

Fixpoint skip_ws (s : str) : str :=
  match s with
  | c :: r => if json_ws c then skip_ws r else s
  | [] => []
  end.

Definition is_digit (c : char) : bool := ((48 <=? c) && (c <=? 57))%N.

Definition hex_value (c : char) : option N :=
  (if (48 <=? c) && (c <=? 57) then Some (c - 48)
   else if (97 <=? c) && (c <=? 102) then Some (c - 87)
   else if (65 <=? c) && (c <=? 70) then Some (c - 55)
   else None)%N.

Definition hex4 (a b c d : char) : option N :=
  match hex_value a, hex_value b, hex_value c, hex_value d with
  | Some x, Some y, Some z, Some w => Some (((x * 16 + y) * 16 + z) * 16 + w)%N
  | _, _, _, _ => None
  end.

Definition simple_escape (c : char) : option char :=
  (if c =? 34 then Some 34         (* quote *)
   else if c =? 92 then Some 92    (* backslash *)
   else if c =? 47 then Some 47    (* slash *)
   else if c =? 98 then Some 8     (* b *)
   else if c =? 102 then Some 12   (* f *)
   else if c =? 110 then Some 10   (* n *)
   else if c =? 114 then Some 13   (* r *)
   else if c =? 116 then Some 9    (* t *)
   else None)%N.

Definition is_high_surrogate (c : N) : bool := ((55296 <=? c) && (c <=? 56319))%N.
Definition is_low_surrogate (c : N) : bool := ((56320 <=? c) && (c <=? 57343))%N.
Definition join_surrogates (hi lo : N) : N :=
  (65536 + ((hi - 55296) * 1024 + (lo - 56320)))%N.

(** [scanstring]: the text after an opening quote, up to the closing one.
    [start] is what was left of the document at the opening quote. *)
Fixpoint scanstring (start : nat) (acc : str) (s : str) {struct s} : scan str :=
  match s with
  | [] => Failed (py "Unterminated string starting at") start
  | c :: r =>
      if (c =? 34)%N then Scanned (rev acc) r
      else if (c =? 92)%N then
        match r with
        | [] => Failed (py "Unterminated string starting at") start
        | e :: r1 =>
            if (e =? 117)%N then
              match r1 with
              | h1 :: h2 :: h3 :: h4 :: ((_ :: _) as r2) =>
                  match hex4 h1 h2 h3 h4 with
                  | None => Failed (py "Invalid \uXXXX escape") (length r)
                  | Some u =>
                      match r2 with
                      | b :: u' :: g1 :: g2 :: g3 :: g4 :: ((_ :: _) as r3) =>
                          if is_high_surrogate u && (b =? 92)%N && (u' =? 117)%N
                          then
                            match hex4 g1 g2 g3 g4 with
                            | None => Failed (py "Invalid \uXXXX escape")
                                             (S (length r3) + 4)
                            | Some u2 =>
                                if is_low_surrogate u2
                                then scanstring start
                                       (join_surrogates u u2 :: acc) r3
                                else scanstring start (u :: acc) r2
                            end
                          else scanstring start (u :: acc) r2
                      | _ => scanstring start (u :: acc) r2
                      end
                  end
              | _ => Failed (py "Invalid \uXXXX escape") (length r)
              end
            else
              match simple_escape e with
              | Some x => scanstring start (x :: acc) r1
              | None => Failed (py "Invalid \escape") (length s)
              end
        end
      else if (c <=? 31)%N then
        Failed (py "Invalid control character at") (length s)
      else scanstring start (c :: acc) r
  end.

Fixpoint span_digits (s : str) : str * str :=
  match s with
  | c :: r => if is_digit c
              then let (d, rest) := span_digits r in (c :: d, rest)
              else ([], s)
  | [] => ([], [])
  end.

Definition digits_value (d : str) : Z :=
  fold_left (fun acc c => (acc * 10 + (Z.of_N c - 48))%Z) d 0%Z.

(** The number grammar of the scanner: an optional minus sign; a zero, or a
    non-zero digit and any digits; optionally a dot and one or more digits;
    optionally [e] or [E], an optional sign and one or more digits. *)
Definition match_number (s : str) : option (json * str) :=
  let (neg, s1) :=
    match s with
    | c :: r => if (c =? 45)%N then (true, r) else (false, s)
    | [] => (false, s)
    end in
  let int_part :=
    match s1 with
    | c :: r =>
        if (c =? 48)%N then Some ([c], r)
        else if is_digit c then (let (d, rest) := span_digits r in
                                 Some (c :: d, rest))
        else None
    | [] => None
    end in
  match int_part with
  | None => None
  | Some (ds, s2) =>
      let (frac, s3) :=
        match s2 with
        | dot :: r =>
            if (dot =? 46)%N then
              match span_digits r with
              | ([], _) => ([], s2)
              | (fd, rest) => (dot :: fd, rest)
              end
            else ([], s2)
        | [] => ([], s2)
        end in
      let (exp, s4) :=
        match s3 with
        | e :: r =>
            if (e =? 101)%N || (e =? 69)%N then
              let (sg, r') :=
                match r with
                | c :: r0 => if (c =? 45)%N || (c =? 43)%N
                             then ([c], r0) else ([], r)
                | [] => ([], r)
                end in
              match span_digits r' with
              | ([], _) => ([], s3)
              | (ed, rest) => (e :: sg ++ ed, rest)
              end
            else ([], s3)
        | [] => ([], s3)
        end in
      let sign := if neg then [45%N] else [] in
      match frac, exp with
      | [], [] =>
          Some (JInt (if neg then - digits_value ds else digits_value ds)%Z, s4)
      | _, _ => Some (JFloat (sign ++ ds ++ frac ++ exp), s4)
      end
  end.

(** A literal keyword of the scanner.  The C scanner wants one more
    character in the document than the keyword itself only where it is
    followed by something; the length tests of the source are exactly
    [startswith]. *)
Definition keyword (k : string) (v : json) (s : str) : option (json * str) :=
  if startswith (py k) s then Some (v, skipn (String.length k) s) else None.

Definition scan_atom (s : str) : option (json * str) :=
  match s with
  | [] => None
  | c :: _ =>
      let named :=
        if (c =? 110)%N then keyword "null" JNull s
        else if (c =? 116)%N then keyword "true" (JBool true) s
        else if (c =? 102)%N then keyword "false" (JBool false) s
        else if (c =? 78)%N then keyword "NaN" (JFloat (py "NaN")) s
        else if (c =? 73)%N then keyword "Infinity" (JFloat (py "Infinity")) s
        else if (c =? 45)%N then keyword "-Infinity" (JFloat (py "-Infinity")) s
        else None in
      match named with
      | Some r => Some r
      | None => match_number s
      end
  end.

Fixpoint scan_once (fuel : nat) (s : str) {struct fuel} : scan json :=
  match fuel with
  | 0 => OutOfFuel
  | S fuel' =>
      match s with
      | [] => Failed (py "Expecting value") 0
      | c :: r =>
          if (c =? 34)%N then
            match scanstring (length s) [] r with
            | Scanned v rest => Scanned (JStr v) rest
            | Failed m n => Failed m n
            | OutOfFuel => OutOfFuel
            end
          else if (c =? 123)%N then
            let r' := skip_ws r in
            match r' with
            | d :: rest =>
                if (d =? 125)%N then Scanned (JDict []) rest
                else parse_members fuel' [] r'
            | [] => parse_members fuel' [] r'
            end
          else if (c =? 91)%N then
            let r' := skip_ws r in
            match r' with
            | d :: rest =>
                if (d =? 93)%N then Scanned (JList []) rest
                else parse_items fuel' [] r'
            | [] => parse_items fuel' [] r'
            end
          else
            match scan_atom s with
            | Some (v, rest) => Scanned v rest
            | None => Failed (py "Expecting value") (length s)
            end
      end
  end

(** The body of the object loop, at "read key". *)
with parse_members (fuel : nat) (acc : list (str * json)) (s : str)
       {struct fuel} : scan json :=
  match fuel with
  | 0 => OutOfFuel
  | S fuel' =>
      match s with
      | c :: r =>
          if (c =? 34)%N then
            match scanstring (length s) [] r with
            | Scanned key s1 =>
                match skip_ws s1 with
                | colon :: s2 =>
                    if (colon =? 58)%N then
                      match scan_once fuel' (skip_ws s2) with
                      | Scanned v s3 =>
                          let acc' := dict_set acc key v in
                          match skip_ws s3 with
                          | d :: s4 =>
                              if (d =? 125)%N then Scanned (JDict acc') s4
                              else if (d =? 44)%N
                              then parse_members fuel' acc' (skip_ws s4)
                              else Failed (py "Expecting ',' delimiter")
                                          (length (skip_ws s3))
                          | [] => Failed (py "Expecting ',' delimiter") 0
                          end
                      | Failed m n => Failed m n
                      | OutOfFuel => OutOfFuel
                      end
                    else Failed (py "Expecting ':' delimiter")
                                (length (skip_ws s1))
                | [] => Failed (py "Expecting ':' delimiter") 0
                end
            | Failed m n => Failed m n
            | OutOfFuel => OutOfFuel
            end
          else Failed (py "Expecting property name enclosed in double quotes")
                      (length s)
      | [] => Failed (py "Expecting property name enclosed in double quotes") 0
      end
  end

(** The body of the array loop, at "read a value". *)
with parse_items (fuel : nat) (acc : list json) (s : str)
       {struct fuel} : scan json :=
  match fuel with
  | 0 => OutOfFuel
  | S fuel' =>
      match scan_once fuel' s with
      | Scanned v s1 =>
          match skip_ws s1 with
          | d :: s2 =>
              if (d =? 93)%N then Scanned (JList (acc ++ [v])) s2
              else if (d =? 44)%N
              then parse_items fuel' (acc ++ [v]) (skip_ws s2)
              else Failed (py "Expecting ',' delimiter") (length (skip_ws s1))
          | [] => Failed (py "Expecting ',' delimiter") 0
          end
      | Failed m n => Failed m n
      | OutOfFuel => OutOfFuel
      end
  end.

(** [json.JSONDecodeError]: [msg], [doc] and [pos]. *)
Record JSONDecodeError : Type := mkJSONDecodeError {
  err_msg : str;
  err_doc : str;
  err_pos : nat
}.

(** Enough fuel for any document of that length (lemma [json_loads_fuel]). *)
Definition decode_fuel (s : str) : nat := 2 * length s + 1.

(** [json.loads(s)] *)
Definition json_loads (s : str) : json + JSONDecodeError :=
  if startswith [65279%N] s then
    inr (mkJSONDecodeError
           (py "Unexpected UTF-8 BOM (decode using utf-8-sig)") s 0)
  else
    match scan_once (decode_fuel s) (skip_ws s) with
    | Scanned v rest =>
        match skip_ws rest with
        | [] => inl v
        | extra => inr (mkJSONDecodeError (py "Extra data") s
                          (length s - length extra))
        end
    | Failed m n => inr (mkJSONDecodeError m s (length s - n))
    | OutOfFuel =>                       (* never, by [json_loads_fuel] *)
        inr (mkJSONDecodeError (py "Expecting value") s 0)
    end.

(** Decimal text of a number, as [str(n)] gives it. *)
Definition str_of_nat (n : nat) : str :=
  py (NilEmpty.string_of_uint (Nat.to_uint n)).

Definition str_of_Z (n : Z) : str :=
  py (NilEmpty.string_of_int (Z.to_int n)).

(** [str(e)] of a [JSONDecodeError]:
    ["%s: line %d column %d (char %d)"]. *)
Definition line_of (doc : str) (pos : nat) : nat :=
  S (count_occ N.eq_dec (firstn pos doc) 10%N).

Definition column_of (doc : str) (pos : nat) : nat :=
  match last_index_of 10%N (firstn pos doc) with
  | Some i => pos - i
  | None => S pos
  end.

Definition str_of_JSONDecodeError (e : JSONDecodeError) : str :=
  err_msg e ++ py ": line " ++ str_of_nat (line_of (err_doc e) (err_pos e))
  ++ py " column " ++ str_of_nat (column_of (err_doc e) (err_pos e))
  ++ py " (char " ++ str_of_nat (err_pos e) ++ py ")".

(** [json.dumps] escapes a string with [ensure_ascii]: quote, backslash and
    the short control escapes, [\uXXXX] for everything else outside
    [' '..'~'] (a surrogate pair above the basic plane). *)
Definition hex_digit (n : N) : char :=
  (if n <? 10 then 48 + n else 87 + n)%N.

Definition u_escape (c : N) : str :=
  [92; 117; hex_digit (c / 4096 mod 16); hex_digit (c / 256 mod 16);
   hex_digit (c / 16 mod 16); hex_digit (c mod 16)]%N.

Definition escape_char (c : char) : str :=
  (if c =? 34 then [92; 34]
   else if c =? 92 then [92; 92]
   else if c =? 10 then [92; 110]
   else if c =? 13 then [92; 114]
   else if c =? 9 then [92; 116]
   else if c =? 12 then [92; 102]
   else if c =? 8 then [92; 98]
   else if (32 <=? c) && (c <=? 126) then [c]
   else if c <? 65536 then u_escape c
   else u_escape (55296 + (c - 65536) / 1024)
        ++ u_escape (56320 + (c - 65536) mod 1024))%N.

Definition encode_basestring_ascii (s : str) : str :=
  [34%N] ++ flat_map escape_char s ++ [34%N].

(** [json.dumps({"error": msg})] *)
Definition json_dumps_error (msg : str) : str :=
  py "{" ++ encode_basestring_ascii (py "error") ++ py ": "
  ++ encode_basestring_ascii msg ++ py "}".

(* ================================================================= *)
(** ** [safe_json_parse] *)

(** [default] is [None] or a dict; [default or x] takes [x] when [default]
    is [None] or the empty dict. *)
Definition safe_json_parse (response : str)
    (default : option (list (str * json))) : json :=
  let cleaned := clean_json_response response in
  match json_loads cleaned with
  | inl v => v
  | inr e =>
      let fixed := replace_char (chr "'") [34%N] cleaned in
      match json_loads fixed with
      | inl v => v
      | inr _ =>
          match default with
          | Some ((_ :: _) as d) => JDict d
          | _ =>
              JDict [ (py "error",
                       JStr (py "JSON parse failed: "
                             ++ str_of_JSONDecodeError e));
                      (py "raw", JStr (slice response 0 500)) ]
                (* response[:500] *)
          end
      end
  end.

(** Reading a parsed result as the specification does. *)
Definition is_mapping (v : json) : Prop := exists d, v = JDict d.

Definition has_key (k : str) (v : json) : Prop :=
  exists d x, v = JDict d /\ dict_get d k = Some x.

Definition key_is (k : str) (x : json) (v : json) : Prop :=
  exists d, v = JDict d /\ dict_get d k = Some x.

(** The synthetic mapping of a failed salvage. *)
Definition parse_failure (response : str) (e : JSONDecodeError) : json :=
  JDict [ (py "error",
           JStr (py "JSON parse failed: " ++ str_of_JSONDecodeError e));
          (py "raw", JStr (slice response 0 500)) ].

(* ================================================================= *)
(** ** [call_llm]: the world it runs in *)

Inductive exn : Type :=
| Timeout (msg : str)             (* requests.exceptions.Timeout *)
| RequestException (msg : str)    (* any other requests exception *)
| KeyError (msg : str)
| IndexError (msg : str)
| TypeError (msg : str)
| AttributeError (msg : str)
| ValueError (msg : str).

Inductive outcome (A : Type) : Type :=
| Val (a : A)
| Exc (e : exn).

Arguments Val {A} a.
Arguments Exc {A} e.

(** What [requests.post] sends. *)
Record payload : Type := mkPayload {
  pl_model : str;
  pl_prompt : str;
  pl_max_tokens : Z;
  pl_temperature : Q
}.

Inductive event : Type :=
| EvSleep (seconds : Q)             (* time.sleep returned after that long *)
| EvSend (t : Q)                    (* LAST_REQUEST_TIME = t *)
| EvPost (p : payload).             (* requests.post was called *)

(** The module-level [LAST_REQUEST_TIME], the clock, and the log of what the
    function did (newest first). *)
Record world : Type := mkWorld {
  now : Q;
  LAST_REQUEST_TIME : Q;
  log : list event
}.

Definition M (A : Type) : Type := world -> outcome A * world.

Definition ret {A} (a : A) : M A := fun w => (Val a, w).
Definition raise {A} (e : exn) : M A := fun w => (Exc e, w).
Definition bind {A B} (m : M A) (k : A -> M B) : M B :=
  fun w => match m w with
           | (Val a, w') => k a w'
           | (Exc e, w') => (Exc e, w')
           end.
Definition try_except {A} (m : M A) (handler : exn -> M A) : M A :=
  fun w => match m w with
           | (Val a, w') => (Val a, w')
           | (Exc e, w') => handler e w'
           end.
Definition lift {A} (o : outcome A) : M A := fun w => (o, w).

Notation "x <- m ;; k" := (bind m (fun x => k))
  (at level 61, m at next level, right associativity).
Notation "m ;;; k" := (bind m (fun _ => k))
  (at level 61, right associativity).

(** [time.time()] *)
Definition time_time : M Q := fun w => (Val (now w), w).

(** The world after a sleep of [d] seconds, and after the assignment
    [LAST_REQUEST_TIME = t]. *)
Definition after_sleep (d : Q) (w : world) : world :=
  mkWorld (now w + d) (LAST_REQUEST_TIME w) (EvSleep d :: log w).

Definition after_send (t : Q) (w : world) : world :=
  mkWorld (now w) t (EvSend t :: log w).

(** [time.sleep(d)]: a negative [d] raises [ValueError], otherwise the clock
    moves on by [d] (a sleep that lasted longer would only widen the gaps
    between requests). *)
Definition time_sleep (d : Q) : M unit :=
  fun w =>
    if Qle_bool 0 d then (Val tt, after_sleep d w)
    else (Exc (ValueError (py "sleep length must be non-negative")), w).

Definition get_LAST_REQUEST_TIME : M Q :=
  fun w => (Val (LAST_REQUEST_TIME w), w).

Definition set_LAST_REQUEST_TIME (t : Q) : M unit :=
  fun w => (Val tt, after_send t w).

(** An HTTP response, as far as [call_llm] looks at it. *)
Record response : Type := mkResponse {
  status_code : Z;
  reason : str;
  retry_after : option str;      (* response.headers.get('retry-after') *)
  text : str                     (* the body *)
}.

Inductive post_result : Type :=
| PostTimeout (msg : str)        (* raises requests.exceptions.Timeout *)
| PostError (msg : str)          (* raises another RequestException *)
| PostResponse (r : response).

(** One call of the endpoint: how long it takes and how it ends. *)
Record attempt_env : Type := mkAttempt {
  latency : Q;
  result : post_result
}.

(** What one invocation of [call_llm] finds around it. *)
Record env : Type := mkEnv {
  api_key : str;                      (* get_api_key() *)
  session_model : option str;         (* st.session_state['selected_model'] *)
  endpoint : nat -> attempt_env       (* the reply to the n-th attempt *)
}.

(** The world after a call of the endpoint. *)
Definition after_post (a : attempt_env) (p : payload) (w : world) : world :=
  mkWorld (now w + latency a) (LAST_REQUEST_TIME w) (EvPost p :: log w).

(** [requests.post(GROQ_API_URL, headers=..., json=payload, timeout=120)] *)
Definition requests_post (a : attempt_env) (p : payload) : M response :=
  fun w =>
    match result a with
    | PostTimeout m => (Exc (Timeout m), after_post a p w)
    | PostError m => (Exc (RequestException m), after_post a p w)
    | PostResponse r => (Val r, after_post a p w)
    end.

Definition GROQ_API_URL : str :=
  py "https://api.groq.com/openai/v1/chat/completions".
Definition GROQ_MODEL : str := py "llama-3.3-70b-versatile".
Definition MIN_REQUEST_INTERVAL : Q := 3.

(** [response.raise_for_status()] *)
Definition raise_for_status (r : response) : M unit :=
  let s := status_code r in
  if ((400 <=? s) && (s <? 500))%Z then
    raise (RequestException (str_of_Z s ++ py " Client Error: " ++ reason r
                             ++ py " for url: " ++ GROQ_API_URL))
  else if ((500 <=? s) && (s <? 600))%Z then
    raise (RequestException (str_of_Z s ++ py " Server Error: " ++ reason r
                             ++ py " for url: " ++ GROQ_API_URL))
  else ret tt.

(** [response.json()]: a body that is not JSON raises
    [requests.exceptions.JSONDecodeError], a [RequestException]. *)
Definition response_json (r : response) : M json :=
  match json_loads (text r) with
  | inl v => ret v
  | inr e => raise (RequestException (str_of_JSONDecodeError e))
  end.

Definition not_subscriptable (v : json) : exn :=
  TypeError
    (match v with
     | JNull => py "'NoneType' object is not subscriptable"
     | JBool _ => py "'bool' object is not subscriptable"
     | JInt _ => py "'int' object is not subscriptable"
     | JFloat _ => py "'float' object is not subscriptable"
     | _ => py "object is not subscriptable"
     end).

(** [v[k]] for a literal string key [k] without quotes or escapes. *)
Definition getitem_key (v : json) (k : str) : outcome json :=
  match v with
  | JDict d => match dict_get d k with
               | Some x => Val x
               | None => Exc (KeyError (py "'" ++ k ++ py "'"))
               end
  | JList _ => Exc (TypeError
                 (py "list indices must be integers or slices, not str"))
  | JStr _ => Exc (TypeError (py "string indices must be integers, not 'str'"))
  | _ => Exc (not_subscriptable v)
  end.

(** [v[0]] *)
Definition getitem_0 (v : json) : outcome json :=
  match v with
  | JList (x :: _) => Val x
  | JList [] => Exc (IndexError (py "list index out of range"))
  | JDict _ => Exc (KeyError (py "0"))
  | JStr (c :: _) => Val (JStr [c])
  | JStr [] => Exc (IndexError (py "string index out of range"))
  | _ => Exc (not_subscriptable v)
  end.

(** [v.strip()] *)
Definition method_strip (v : json) : outcome str :=
  match v with
  | JStr s => Val (strip s)
  | JNull => Exc (AttributeError
                    (py "'NoneType' object has no attribute 'strip'"))
  | JBool _ => Exc (AttributeError (py "'bool' object has no attribute 'strip'"))
  | JInt _ => Exc (AttributeError (py "'int' object has no attribute 'strip'"))
  | JFloat _ => Exc (AttributeError
                       (py "'float' object has no attribute 'strip'"))
  | JList _ => Exc (AttributeError (py "'list' object has no attribute 'strip'"))
  | JDict _ => Exc (AttributeError (py "'dict' object has no attribute 'strip'"))
  end.

(** [int(s)] for a string: surrounding whitespace, a sign, decimal digits
    with single underscores between them (ASCII digits only). *)
Fixpoint int_digits (after_digit : bool) (acc : Z) (s : str) : option Z :=
  match s with
  | [] => if after_digit then Some acc else None
  | c :: r =>
      if is_digit c then int_digits true (acc * 10 + (Z.of_N c - 48))%Z r
      else if (c =? 95)%N && after_digit then
        match r with
        | d :: _ => if is_digit d then int_digits false acc r else None
        | [] => None
        end
      else None
  end.

Definition py_int (s : str) : option Z :=
  match strip s with
  | c :: r =>
      if (c =? 45)%N then option_map Z.opp (int_digits false 0%Z r)
      else if (c =? 43)%N then int_digits false 0%Z r
      else int_digits false 0%Z (c :: r)
  | [] => None
  end.

(* ================================================================= *)
(** ** [call_llm] *)

Definition max_retries : nat := 4.
Definition retry_delays : list Z := [5; 15; 30; 60]%Z.

(** The text returned on HTTP 401 (its first character is U+274C). *)
Definition AUTH_ERROR : str :=
  [10060%N] ++ py " Invalid API Key (401 Unauthorized)" ++ [10; 10]%N
  ++ py "Please check your GROQ_API_KEY:" ++ [10%N]
  ++ py "1. Go to https://console.groq.com/keys" ++ [10%N]
  ++ py "2. Create a new API key" ++ [10%N]
  ++ py "3. Update .streamlit/secrets.toml with:" ++ [10%N]
  ++ pyq "   GROQ_API_KEY = 'gsk_your_new_key_here'".

Definition TIMEOUT_ERROR : str :=
  py "Request timed out. The 70b model may be slow. Please try again.".
Definition RATE_LIMIT_ERROR : str :=
  py "Rate limit exceeded. Please wait 2 minutes and try again.".
Definition RATE_LIMIT_EXHAUSTED : str :=
  py "Rate limit exceeded after retries. Please wait 2 minutes and try again.".

(** How one pass through the body of the [for] loop ends. *)
Inductive flow : Type :=
| Continue
| Return (s : str).

(** The wait after an HTTP 429: the schedule, overridden by a [retry-after]
    header that [int] accepts. *)
Definition wait_after_429 (attempt : nat) (r : response) : Z :=
  let wait_time :=
    if attempt <? length retry_delays
    then nth attempt retry_delays 0%Z else 60%Z in
  match retry_after r with
  | Some ((_ :: _) as h) =>
      match py_int h with
      | Some n => Z.min (n + 2) 90
      | None => wait_time
      end
  | _ => wait_time
  end.

(** The end of the [try] block, for a reply that is neither 401 nor 429:
    [raise_for_status], then the text at
    [choices[0].message.content], stripped. *)
Definition read_reply (response : response) : M flow :=
  raise_for_status response ;;;
  result <- response_json response ;;
  choices <- lift (getitem_key result (py "choices")) ;;
  choice <- lift (getitem_0 choices) ;;
  message <- lift (getitem_key choice (py "message")) ;;
  content <- lift (getitem_key message (py "content")) ;;
  stripped <- lift (method_strip content) ;;
  ret (Return stripped).

(** The [try] block of one attempt. *)
Definition attempt_try (e : env) (p : payload) (attempt : nat) : M flow :=
  t <- time_time ;;
  set_LAST_REQUEST_TIME t ;;;
  response <- requests_post (endpoint e attempt) p ;;
  if (status_code response =? 401)%Z then
    ret (Return (json_dumps_error AUTH_ERROR))
  else if (status_code response =? 429)%Z then
    time_sleep (inject_Z (wait_after_429 attempt response)) ;;;
    ret Continue
  else read_reply response.

(** The [except] clauses, in the order of the source; an exception none of
    them names goes on to the caller. *)
Definition attempt_except (attempt : nat) (ex : exn) : M flow :=
  match ex with
  | Timeout _ =>
      if attempt <? max_retries - 1 then
        time_sleep 10 ;;; ret Continue
      else ret (Return (json_dumps_error TIMEOUT_ERROR))
  | RequestException error_str =>
      if contains (py "429") error_str
         || contains (py "Too Many Requests") error_str then
        if attempt <? max_retries - 1 then
          time_sleep (inject_Z (nth attempt retry_delays 0%Z)) ;;;
          ret Continue
        else ret (Return (json_dumps_error RATE_LIMIT_ERROR))
      else ret (Return (json_dumps_error
                          (py "API request failed: " ++ error_str)))
  | KeyError m | IndexError m =>
      ret (Return (json_dumps_error (py "Invalid API response: " ++ m)))
  | _ => raise ex
  end.

Definition attempt_body (e : env) (p : payload) (attempt : nat) : M flow :=
  try_except (attempt_try e p attempt) (attempt_except attempt).

(** [for attempt in range(max_retries): ...] and the [return] after it. *)
Fixpoint attempts (e : env) (p : payload) (todo : list nat) : M str :=
  match todo with
  | [] => ret (json_dumps_error RATE_LIMIT_EXHAUSTED)
  | attempt :: rest =>
      f <- attempt_body e p attempt ;;
      match f with
      | Return s => ret s
      | Continue => attempts e p rest
      end
  end.

(** The "smart rate limiting" block at the head of [call_llm]. *)
Definition rate_gate : M unit :=
  current_time <- time_time ;;
  last <- get_LAST_REQUEST_TIME ;;
  let time_since_last := (current_time - last)%Q in
  if negb (Qle_bool MIN_REQUEST_INTERVAL time_since_last)
  then time_sleep (MIN_REQUEST_INTERVAL - time_since_last)%Q
  else ret tt.

Definition call_llm (e : env) (prompt : str) (max_tokens : Z)
    (temperature : Q) : M str :=
  match api_key e with
  | [] => ret (json_dumps_error (py "API key not configured"))
  | _ =>
      let selected_model :=
        match session_model e with Some m => m | None => GROQ_MODEL end in
      rate_gate ;;;
      attempts e (mkPayload selected_model prompt max_tokens temperature)
               (seq 0 max_retries)
  end.

(** Reading a run: the timestamps written to [LAST_REQUEST_TIME], oldest
    first, and the number of requests sent. *)
Fixpoint sends_of (l : list event) : list Q :=
  match l with
  | [] => []
  | EvSend t :: l' => sends_of l' ++ [t]
  | _ :: l' => sends_of l'
  end.

Fixpoint posts_of (l : list event) : nat :=
  match l with
  | [] => 0
  | EvPost _ :: l' => S (posts_of l')
  | _ :: l' => posts_of l'
  end.







(** The exceptions no [except] clause of [call_llm] names. *)
Definition uncaught (ex : exn) : Prop :=
  match ex with
  | TypeError _ | AttributeError _ | ValueError _ => True
  | _ => False
  end.

(** The process as it starts: no request sent yet. *)
Definition initial_world (t0 : Q) : world := mkWorld t0 0 [].

(** A series of invocations of [call_llm]; before each one the caller lets
    [idle] seconds pass. *)
Record invocation : Type := mkInvocation {
  idle : Q;
  inv_env : env;
  inv_prompt : str;
  inv_max_tokens : Z;
  inv_temperature : Q
}.

Definition pass_time (d : Q) (w : world) : world :=
  mkWorld (now w + d) (LAST_REQUEST_TIME w) (log w).

Fixpoint run (calls : list invocation) (w : world) : world :=
  match calls with
  | [] => w
  | c :: rest =>
      run rest
        (snd (call_llm (inv_env c) (inv_prompt c) (inv_max_tokens c)
                       (inv_temperature c) (pass_time (idle c) w)))
  end.

(* ================================================================= *)
(** ** [pdf_utils]: text extraction from an uploaded file *)

(** [r'\n\s*\n']: a newline, whitespace, a newline.  Newlines are whitespace
    themselves, so the greedy run gives characters back up to its last
    newline. *)
Definition re_blank_lines (s : str) : option nat :=
  match s with
  | c :: r =>
      if (c =? 10)%N then
        match last_index_of 10%N (firstn (count_ws r) r) with
        | Some j => Some (j + 2)
        | None => None
        end
      else None
  | [] => None
  end.

Fixpoint count_spaces (s : str) : nat :=
  match s with
  | c :: r => if (c =? 32)%N then S (count_spaces r) else 0
  | [] => 0
  end.

(** [r' +'] *)
Definition re_spaces (s : str) : option nat :=
  match count_spaces s with
  | 0 => None
  | n => Some n
  end.

Definition clean_text (text : str) : str :=
  match text with
  | [] => []
  | _ =>
      let text := re_sub re_blank_lines [10; 10]%N text in
      let text := re_sub re_spaces [32%N] text in
      let text := replace_char 0%N [] text in
      let text := replace_char 12%N [10%N] text in
      strip text
  end.

(** [bytes.decode('utf-8')], strict: [None] stands for [UnicodeDecodeError].
    [bytes.decode('latin-1')] is the identity on the byte values. *)
Definition is_cont (b : N) : bool := ((128 <=? b) && (b <=? 191))%N.

Fixpoint utf8_decode (b : list N) : option str :=
  match b with
  | [] => Some []
  | b0 :: r0 =>
      if (b0 <? 128)%N then option_map (cons b0) (utf8_decode r0)
      else if ((194 <=? b0) && (b0 <=? 223))%N then
        match r0 with
        | b1 :: r1 =>
            if is_cont b1
            then option_map (cons ((b0 - 192) * 64 + (b1 - 128))%N)
                            (utf8_decode r1)
            else None
        | _ => None
        end
      else if ((224 <=? b0) && (b0 <=? 239))%N then
        match r0 with
        | b1 :: b2 :: r2 =>
            let c := (((b0 - 224) * 64 + (b1 - 128)) * 64 + (b2 - 128))%N in
            if is_cont b1 && is_cont b2 && (2048 <=? c)%N
               && negb ((55296 <=? c) && (c <=? 57343))%N
            then option_map (cons c) (utf8_decode r2)
            else None
        | _ => None
        end
      else if ((240 <=? b0) && (b0 <=? 244))%N then
        match r0 with
        | b1 :: b2 :: b3 :: r3 =>
            let c := ((((b0 - 240) * 64 + (b1 - 128)) * 64 + (b2 - 128)) * 64
                      + (b3 - 128))%N in
            if is_cont b1 && is_cont b2 && is_cont b3
               && (65536 <=? c)%N && (c <=? 1114111)%N
            then option_map (cons c) (utf8_decode r3)
            else None
        | _ => None
        end
      else None
  end.

(** What [file.read()] gives: bytes, or already text. *)
Inductive content : Type :=
| Bytes (b : list N)
| Text (s : str).

(** An uploaded file: [read()] returns its content or raises an exception
    with the given message. *)
Record file : Type := mkFile {
  read : content + str
}.

(** What a PDF library does with the bytes it is handed: the texts of the
    pages it reads, in order ([None] or a string), and the message of the
    exception that ended the run, if one did. *)
Record pdf_run : Type := mkPdfRun {
  pages : list (option str);
  raised : option str
}.

Inductive docx_run : Type :=
| DocxRaises (msg : str)
| DocxDocument (paragraphs : list str) (tables : list (list (list str))).

(** The document libraries of the installation; [None] where the import
    raises [ImportError]. *)
Record libraries : Type := mkLibraries {
  pdfplumber : option (content -> pdf_run);
  PyPDF2 : option (content -> pdf_run);
  fitz : option (content -> pdf_run);      (* every page has a text *)
  docx : option (content -> docx_run)
}.

(** [text += page_text + "\n"] for the pages with a non-empty text. *)
Fixpoint add_pages (text : str) (pages : list (option str)) : str :=
  match pages with
  | [] => text
  | Some ((_ :: _) as page_text) :: rest =>
      add_pages (text ++ page_text ++ [10%N]) rest
  | _ :: rest => add_pages text rest
  end.

(** [text += page.get_text() + "\n"] for every page. *)
Fixpoint add_all_pages (text : str) (pages : list (option str)) : str :=
  match pages with
  | [] => text
  | Some page_text :: rest => add_all_pages (text ++ page_text ++ [10%N]) rest
  | None :: rest => add_all_pages text rest
  end.

(** One of the three attempts of [extract_text_from_pdf]: the text so far,
    and whether the attempt ends the function with a [return]. *)
Definition pdf_attempt (add : str -> list (option str) -> str)
    (library : option (content -> pdf_run)) (file_bytes : content)
    (text : str) : str * option str :=
  match library with
  | None => (text, None)
  | Some open_pdf =>
      let r := open_pdf file_bytes in
      let text := add text (pages r) in
      match raised r with
      | Some _ => (text, None)
      | None =>
          match strip text with
          | [] => (text, None)
          | _ => (text, Some (clean_text text))
          end
      end
  end.

Definition extract_text_from_pdf (L : libraries) (f : file) : str :=
  match read f with
  | inr e => py "Error reading file: " ++ e
  | inl file_bytes =>
      let text := [] in
      match pdf_attempt add_pages (pdfplumber L) file_bytes text with
      | (_, Some out) => out
      | (text, None) =>
          match pdf_attempt add_pages (PyPDF2 L) file_bytes text with
          | (_, Some out) => out
          | (text, None) =>
              match pdf_attempt add_all_pages (fitz L) file_bytes text with
              | (_, Some out) => out
              | (text, None) =>
                  match text with
                  | [] => py "Could not extract text from PDF. Please install: pip install pdfplumber PyPDF2 pymupdf"
                  | _ => text
                  end
              end
          end
      end
  end.

(** [" | ".join(row_text)] *)
Fixpoint join (sep : str) (parts : list str) : str :=
  match parts with
  | [] => []
  | [x] => x
  | x :: rest => x ++ sep ++ join sep rest
  end.

Definition extract_text_from_docx (L : libraries) (f : file) : str :=
  match docx L with
  | None => py "Please install python-docx: pip install python-docx"
  | Some Document =>
      match read f with
      | inr e => py "Error extracting DOCX: " ++ e
      | inl file_bytes =>
          match Document file_bytes with
          | DocxRaises e => py "Error extracting DOCX: " ++ e
          | DocxDocument paragraphs tables =>
              let text := flat_map (fun p => p ++ [10%N]) paragraphs in
              let text :=
                text ++ flat_map
                          (fun table =>
                             flat_map (fun row => join (py " | ") row ++ [10%N])
                                      table)
                          tables in
              clean_text text
          end
      end
  end.

Definition extract_text_from_txt (f : file) : str :=
  match read f with
  | inr e => py "Error reading TXT file: " ++ e
  | inl (Bytes b) =>
      match utf8_decode b with
      | Some s => s
      | None => b
      end
  | inl (Text s) => s
  end.

(** [s.lower()], on the ASCII letters. *)
Definition lower (s : str) : str :=
  map (fun c => if ((65 <=? c) && (c <=? 90))%N then (c + 32)%N else c) s.

(** [file] is [None] or an uploaded file.  None of the three extractors
    lets an exception out, so the [except] clause of the source is never
    entered. *)
Definition extract_text_from_file (L : libraries) (f : option file)
    (filename : str) : str :=
  match f with
  | None => []
  | Some f =>
      let filename_lower := lower filename in
      if endswith (py ".pdf") filename_lower then extract_text_from_pdf L f
      else if endswith (py ".docx") filename_lower
      then extract_text_from_docx L f
      else if endswith (py ".txt") filename_lower then extract_text_from_txt f
      else py "Unsupported format. Please upload PDF, DOCX, or TXT."
  end.

(** [handle_file_upload] of [app.py]: the widgets are its inputs (the radio
    button, the uploaded file with its name, the text area); the result is
    the text handed to the analysis. *)
Inductive input_method : Type := PasteText | UploadFile.

Definition handle_file_upload (L : libraries) (method : input_method)
    (uploaded : option (file * str)) (text_area : str) (default_text : str)
    : str :=
  match method with
  | UploadFile =>
      match uploaded with
      | Some (f, name) =>
          let text := extract_text_from_file L (Some f) name in
          match text with
          | [] => default_text
          | _ =>
              if negb (startswith (py "Error") text)
                 && negb (startswith (py "Could not") text)
              then text
              else default_text
          end
      | None => default_text
      end
  | PasteText => text_area
  end.


(* ================================================================= *)
(** ** Scenarios

    Simulated endpoints, as the testable properties of the specification
    describe them. *)

(** A reply with the given status, [retry-after] header and body, after half
    a second. *)
Definition reply (status : Z) (header : option str) (body : str)
  : attempt_env :=
  mkAttempt (1 # 2) (PostResponse (mkResponse status [] header body)).

(** An environment with an API key whose endpoint answers the n-th attempt
    with [answers n]. *)
Definition simulated (answers : nat -> attempt_env) : env :=
  mkEnv (py "gsk_test") None answers.

Definition always (a : attempt_env) : env := simulated (fun _ => a).


Definition good_body : str :=
  pyq "{'choices': [{'message': {'content': ' {} '}}]}".



(** An installation without any document library, and an uploaded file of
    four bytes. *)
Definition no_libraries : libraries := mkLibraries None None None None.

Definition some_upload : file := mkFile (inl (Bytes [80; 75; 3; 4]%N)).

(** The test of [handle_file_upload] on the extracted text. *)
Definition flagged_as_failure (text : str) : bool :=
  match text with
  | [] => true
  | _ => startswith (py "Error") text || startswith (py "Could not") text
  end.

(* ================================================================= *)
(** ** Python values read from JSON

    The operations the post-processing code applies to parsed replies.
    Every one of them can raise; [outcome] carries the exception. *)

Definition obind {A B} (o : outcome A) (k : A -> outcome B) : outcome B :=
  match o with
  | Val a => k a
  | Exc e => Exc e
  end.

Notation "x <~ o ;; k" := (obind o (fun x => k))
  (at level 61, o at next level, right associativity).

Definition type_name (v : json) : str :=
  match v with
  | JNull => py "NoneType"
  | JBool _ => py "bool"
  | JInt _ => py "int"
  | JFloat _ => py "float"
  | JStr _ => py "str"
  | JList _ => py "list"
  | JDict _ => py "dict"
  end.

(** [k in v] for a string [k] *)
Definition py_in (k : str) (v : json) : outcome bool :=
  match v with
  | JDict d => Val (match dict_get d k with Some _ => true | None => false end)
  | JList l => Val (existsb (fun x => match x with
                                      | JStr s => str_eqb s k
                                      | _ => false
                                      end) l)
  | JStr s => Val (contains k s)
  | _ => Exc (TypeError (py "argument of type '" ++ type_name v
                         ++ py "' is not iterable"))
  end.

(** [v.get(k, default)] *)
Definition method_get (v : json) (k : str) (default : json) : outcome json :=
  match v with
  | JDict d => Val (match dict_get d k with Some x => x | None => default end)
  | _ => Exc (AttributeError (py "'" ++ type_name v
                              ++ py "' object has no attribute 'get'"))
  end.

(** [v[k] = x] for a string [k] *)
Definition setitem_key (v : json) (k : str) (x : json) : outcome json :=
  match v with
  | JDict d => Val (JDict (dict_set d k x))
  | JList _ => Exc (TypeError
                 (py "list indices must be integers or slices, not str"))
  | _ => Exc (TypeError (py "'" ++ type_name v
                         ++ py "' object does not support item assignment"))
  end.

(** The code points that start a block of ten decimal digits (Unicode 14,
    the table of CPython 3.11): [int] reads all of them. *)
Definition decimal_zeros : list N :=
  [48; 1632; 1776; 1984; 2406; 2534; 2662; 2790; 2918; 3046; 3174; 3302;
   3430; 3558; 3664; 3792; 3872; 4160; 4240; 6112; 6160; 6470; 6608; 6784;
   6800; 6992; 7088; 7232; 7248; 42528; 43216; 43264; 43472; 43504; 43600;
   44016; 65296; 66720; 68912; 69734; 69872; 69942; 70096; 70384; 70736;
   70864; 71248; 71360; 71472; 71904; 72016; 72784; 73040; 73120; 92768;
   92864; 93008; 120782; 120792; 120802; 120812; 120822; 123200; 123632;
   125264; 130032]%N.

Definition to_ascii_digit (c : char) : char :=
  match List.find (fun z => (z <=? c) && (c <? z + 10))%N decimal_zeros with
  | Some z => (48 + (c - z))%N
  | None => c
  end.

(** [int(s)] for any text [s]: decimal digits and white space beyond ASCII
    are turned into their ASCII counterparts, then ASCII white space is
    stripped (the separators U+001C to U+001F are not) and the literal is
    read.  A literal of more than [int_max_str_digits] digits is refused
    (the default limit of CPython 3.11). *)
Definition int_max_str_digits : nat := 4300.

Definition to_ascii_space (c : char) : char :=
  if (127 <? c)%N && isspace c then 32%N else c.

Definition ascii_space (c : char) : bool :=
  ((9 <=? c) && (c <=? 13) || (c =? 32))%N.

Fixpoint lstrip_ascii (s : str) : str :=
  match s with
  | c :: s' => if ascii_space c then lstrip_ascii s' else s
  | [] => []
  end.

Definition py_int_text (s : str) : option Z :=
  let t := map (fun c => to_ascii_space (to_ascii_digit c)) s in
  let t := rev (lstrip_ascii (rev (lstrip_ascii t))) in
  if (int_max_str_digits <? length (filter is_digit t))%nat then None
  else
    match t with
    | c :: r =>
        if (c =? 45)%N then option_map Z.opp (int_digits false 0%Z r)
        else if (c =? 43)%N then int_digits false 0%Z r
        else int_digits false 0%Z (c :: r)
    | [] => None
    end.

(** [float(lexeme) >= k] for a number lexeme of JSON and an integer [k] that
    is no power of two, [0 < k < 2^52].  The lexeme is read to the nearest
    double, ties to even; [k] is a double with an even significand, so the
    test holds exactly when the decimal value is at least [k] minus half the
    spacing of the doubles below [k]. *)
Definition decimal_value (lexeme : str) : Q :=
  let (neg, s1) :=
    match lexeme with
    | c :: r => if (c =? 45)%N then (true, r) else (false, lexeme)
    | [] => (false, lexeme)
    end in
  let (ds, s2) := span_digits s1 in
  let (fd, s3) :=
    match s2 with
    | dot :: r => if (dot =? 46)%N then span_digits r else ([], s2)
    | [] => ([], s2)
    end in
  let ex :=
    match s3 with
    | _ :: sg :: r =>
        if (sg =? 45)%N then (- digits_value r)%Z
        else if (sg =? 43)%N then digits_value r
        else digits_value (sg :: r)
    | _ => 0%Z
    end in
  let p := (ex - Z.of_nat (length fd))%Z in
  let d := digits_value (ds ++ fd) in
  let d := if neg then (- d)%Z else d in
  if (0 <=? p)%Z then inject_Z (d * 10 ^ p)
  else Qmake d (Z.to_pos (10 ^ (- p))).

Definition float_ge (lexeme : str) (k : Z) : bool :=
  if str_eqb lexeme (py "NaN") then false
  else if str_eqb lexeme (py "Infinity") then true
  else if str_eqb lexeme (py "-Infinity") then false
  else Qle_bool (inject_Z k - Qmake 1 (Z.to_pos (2 ^ (53 - Z.log2 k))))%Q
                (decimal_value lexeme).

(** [score >= k] *)
Definition score_ge (score : json) (k : Z) : outcome bool :=
  match score with
  | JInt n => Val (k <=? n)%Z
  | JBool b => Val (k <=? (if b then 1 else 0))%Z
  | JFloat lexeme => Val (float_ge lexeme k)
  | _ => Exc (TypeError (py "'>=' not supported between instances of '"
                         ++ type_name score ++ py "' and 'int'"))
  end.

(* ================================================================= *)
(** ** The analysis functions of [llm_utils]

    Each one formats a prompt, calls [call_llm] and reads the reply with
    [safe_json_parse]; some then adjust the result.  The prompt is an
    f-string over the arguments: its text is the parameter [PROMPT] here,
    nothing below depends on it. *)

Definition parse_resume_detailed (PROMPT : str -> str) (e : env)
    (resume_text : str) : M json :=
  response <- call_llm e (PROMPT resume_text) 2500 (1 # 10) ;;
  ret (safe_json_parse response None).

Definition parse_job_description_detailed (PROMPT : str -> str) (e : env)
    (jd_text : str) : M json :=
  response <- call_llm e (PROMPT jd_text) 2000 (1 # 10) ;;
  ret (safe_json_parse response None).

(** [result["match_summary"]["recommendation"] = recommendation] and
    [result["match_summary"]["grade"] = grade] *)
Definition set_grade (result : json) (recommendation grade : str)
  : outcome json :=
  summary <~ getitem_key result (py "match_summary") ;;
  summary <~ setitem_key summary (py "recommendation") (JStr recommendation) ;;
  summary <~ setitem_key summary (py "grade") (JStr grade) ;;
  setitem_key result (py "match_summary") summary.

(** The block "Ensure consistent grades based on score". *)
Definition ensure_consistent_grades (result : json) : outcome json :=
  present <~ py_in (py "match_summary") result ;;
  if present then
    summary <~ getitem_key result (py "match_summary") ;;
    score <~ method_get summary (py "overall_score") (JInt 0) ;;
    let score :=
      match score with
      | JStr s =>
          match py_int_text (replace_char (chr "%") [] s) with
          | Some n => JInt n
          | None => JInt 70
          end
      | _ => score
      end in
    a <~ score_ge score 85 ;;
    if a then set_grade result (py "STRONGLY RECOMMEND") (py "A")
    else
      b <~ score_ge score 75 ;;
      if b then set_grade result (py "RECOMMEND") (py "B+")
      else
        c <~ score_ge score 65 ;;
        if c then set_grade result (py "CONSIDER") (py "B")
        else
          d <~ score_ge score 55 ;;
          if d then set_grade result (py "CONSIDER WITH RESERVATIONS") (py "C")
          else set_grade result (py "NOT RECOMMENDED") (py "D")
  else Val result.

Definition calculate_match_score_detailed (PROMPT : str -> str -> str)
    (e : env) (jd_text resume_text : str) : M json :=
  response <- call_llm e (PROMPT jd_text resume_text) 3500 (1 # 10) ;;
  let result := safe_json_parse response None in
  lift (ensure_consistent_grades result).

(** The mapping returned in place of a failed salvage. *)
Definition SALARY_FALLBACK : json :=
  JDict
    [ (py "error", JStr (py "Could not parse salary analysis"));
      (py "candidate_profile",
       JDict [ (py "current_ctc", JStr (py "Not provided"));
               (py "expected_ctc", JStr (py "Not provided")) ]);
      (py "salary_recommendation",
       JDict [ (py "minimum", JStr (py "N/A"));
               (py "recommended", JStr (py "N/A"));
               (py "maximum", JStr (py "N/A"));
               (py "stretch", JStr (py "N/A")) ]);
      (py "recommendation_summary",
       JDict [ (py "final_recommendation", JStr (py "N/A"));
               (py "reasoning", JStr (py "Please try again")) ]) ].

Definition recommend_salary_detailed (PROMPT : str -> str -> str)
    (e : env) (jd_text resume_text : str) : M json :=
  response <- call_llm e (PROMPT jd_text resume_text) 2500 (1 # 10) ;;
  let result := safe_json_parse response None in
  lift (has_error <~ py_in (py "error") result ;;
        has_raw <~ (if has_error then py_in (py "raw") result else Val false) ;;
        if has_error && has_raw then Val SALARY_FALLBACK else Val result).

(** The values [generate_hiring_report_detailed] takes from the match
    result: [ats_score], [grade], [recommendation].  [match_result] is
    [None] or a dict. *)
Definition report_values (match_result : option (list (str * json)))
  : outcome (json * json * json) :=
  let defaults := (JInt 70, JStr (py "B"), JStr (py "CONSIDER")) in
  match match_result with
  | Some ((_ :: _) as d) =>
      match dict_get d (py "match_summary") with
      | Some summary =>
          ats_score <~ method_get summary (py "overall_score") (JInt 70) ;;
          grade <~ method_get summary (py "grade") (JStr (py "B")) ;;
          recommendation <~ method_get summary (py "recommendation")
                                       (JStr (py "CONSIDER")) ;;
          Val (ats_score, grade, recommendation)
      | None => Val defaults
      end
  | _ => Val defaults
  end.

(** [salary_text]; [salary_result] is [None] or a dict. *)
Definition report_salary_text (salary_result : option (list (str * json)))
  : json :=
  match salary_result with
  | Some ((_ :: _) as d) =>
      match dict_get d (py "salary_recommendation") with
      | Some (JDict rec) =>
          match dict_get rec (py "recommended") with
          | Some x => x
          | None => JStr (py "Not available")
          end
      | Some _ => JStr (py "Not analyzed")
      | None => JStr (py "Not available")
      end
  | _ => JStr (py "Not analyzed")
  end.

(** [result[section][k] = x] *)
Definition set_in_section (result : json) (section k : str) (x : json)
  : outcome json :=
  inner <~ getitem_key result section ;;
  inner <~ setitem_key inner k x ;;
  setitem_key result section inner.

(** The block "Ensure consistency" at the end of the report. *)
Definition ensure_consistency (result ats_score grade recommendation : json)
  : outcome json :=
  has_summary <~ py_in (py "executive_summary") result ;;
  result <~ (if has_summary then
               r <~ set_in_section result (py "executive_summary")
                                   (py "recommendation") recommendation ;;
               r <~ set_in_section r (py "executive_summary")
                                   (py "ats_score") ats_score ;;
               set_in_section r (py "executive_summary") (py "grade") grade
             else Val result) ;;
  has_final <~ py_in (py "final_recommendation") result ;;
  if has_final then
    set_in_section result (py "final_recommendation") (py "decision")
                   recommendation
  else Val result.

(** [today] is [datetime.now().strftime("%B %d, %Y")]. *)
Definition generate_hiring_report_detailed
    (PROMPT : str -> str -> json -> json -> json -> json -> str -> str)
    (today : str) (e : env) (jd_text resume_text : str)
    (match_result salary_result : option (list (str * json))) : M json :=
  values <- lift (report_values match_result) ;;
  let '(ats_score, grade, recommendation) := values in
  let salary_text := report_salary_text salary_result in
  let prompt := PROMPT jd_text resume_text ats_score grade recommendation
                       salary_text today in
  response <- call_llm e prompt 3500 (1 # 10) ;;
  let result := safe_json_parse response None in
  lift (ensure_consistency result ats_score grade recommendation).

(* ================================================================= *)
(** ** [initialize_llm] *)

Definition KEY_NOT_FOUND : str :=
  [9888; 65039]%N ++ py " GROQ_API_KEY not found!" ++ [10; 10]%N
  ++ py "Get your FREE API key at: https://console.groq.com/keys"
  ++ [10; 10]%N ++ py "For local development:" ++ [10%N]
  ++ py "1. Create file: .streamlit/secrets.toml" ++ [10%N]
  ++ pyq "2. Add: GROQ_API_KEY = 'gsk_your_key_here'" ++ [10; 10]%N
  ++ py "For Streamlit Cloud:" ++ [10%N]
  ++ py "1. Go to your app settings " ++ [8594%N] ++ py " Secrets" ++ [10%N]
  ++ pyq "2. Add: GROQ_API_KEY = 'gsk_your_key_here'".

Definition KEY_FORMAT : str :=
  [9888; 65039]%N ++ py " Invalid API key format!" ++ [10; 10]%N
  ++ py "Groq API keys should start with 'gsk_'" ++ [10%N]
  ++ py "Get a valid key at: https://console.groq.com/keys".

Definition KEY_INVALID : str :=
  [9888; 65039]%N ++ py " API key is invalid or expired!" ++ [10; 10]%N
  ++ py "Please get a new key at: https://console.groq.com/keys" ++ [10%N]
  ++ py "Then update your .streamlit/secrets.toml file".

Definition KEY_AUTH_FAILED : str :=
  [9888; 65039]%N ++ py " API key authentication failed!" ++ [10; 10]%N
  ++ py "Get a new key at: https://console.groq.com/keys".

(** [response.raise_for_status()], outside the world of [call_llm]. *)
Definition raised_for_status (r : response) : outcome unit :=
  fst (raise_for_status r (initial_world 0)).

(** The [except requests.exceptions.RequestException] clause; a timeout is
    one of these exceptions. *)
Definition initialize_except (error_str : str) : outcome bool :=
  if contains (py "401") error_str then Exc (ValueError KEY_AUTH_FAILED)
  else Val true.

(** [initialize_llm()]: the outcome, and the number of requests it sent.
    The test request is the reply of the endpoint to a first attempt. *)
Definition initialize_llm (e : env) : outcome bool * nat :=
  match api_key e with
  | [] => (Exc (ValueError KEY_NOT_FOUND), 0)
  | _ =>
      if negb (startswith (py "gsk_") (api_key e))
      then (Exc (ValueError KEY_FORMAT), 0)
      else
        (match result (endpoint e 0) with
         | PostTimeout m => initialize_except m
         | PostError m => initialize_except m
         | PostResponse response =>
             if (status_code response =? 401)%Z
             then Exc (ValueError KEY_INVALID)
             else
               match raised_for_status response with
               | Val _ => Val true
               | Exc (RequestException m) => initialize_except m
               | Exc (Timeout m) => initialize_except m
               | Exc ex => Exc ex
               end
         end, 1)
  end.

(* ================================================================= *)
(** ** Texts and worlds used in the statements below *)

(** A text of Unicode scalar values: code points below [0x110000], no
    surrogate among them. *)
Definition is_scalar (c : char) : bool :=
  ((c <? 55296) || ((57343 <? c) && (c <? 1114112)))%N.

Definition well_formed (s : str) : bool := forallb is_scalar s.


(** The seconds spent in [time.sleep] according to a log. *)
Fixpoint slept (l : list event) : Q :=
  match l with
  | [] => 0
  | EvSleep d :: l' => slept l' + d
  | _ :: l' => slept l'
  end.

Definition rate_limited : env := always (reply 429 None []).
Definition rate_limited_7 : env := always (reply 429 (Some (py "7")) []).
Definition timing_out : env := always (mkAttempt 120 (PostTimeout [])).
Definition unavailable : env :=
  always (mkAttempt (1 # 2)
            (PostResponse (mkResponse 503 (py "Service Unavailable") None []))).
Definition answering : env := always (reply 200 None good_body).

(** The test request of [initialize_llm] failed with a request exception
    of text [msg]. *)
Definition test_failed (e : env) (msg : str) : Prop :=
  result (endpoint e 0) = PostTimeout msg
  \/ result (endpoint e 0) = PostError msg
  \/ exists r, result (endpoint e 0) = PostResponse r
               /\ status_code r <> 401%Z
               /\ raised_for_status r = Exc (RequestException msg).

(** A key of the right format behind a connection that fails. *)
Definition offline (msg : str) : env :=
  mkEnv (py "gsk_test") None (fun _ => mkAttempt 15 (PostError msg)).

(** A text file whose first word is "Error", and a PDF library that fails
    after the first page while the next one reads both pages. *)
Definition error_log : file :=
  mkFile (inl (Bytes (py "Error budgets and SLOs: 5 years of experience"))).

Definition failing_then_reading : libraries :=
  mkLibraries
    (Some (fun _ => mkPdfRun [Some (py "Page one")] (Some (py "bad xref"))))
    (Some (fun _ => mkPdfRun [Some (py "Page one"); Some (py "Page two")] None))
    None None.

(** [v[section][k]] where both are mappings that hold the key. *)
Definition at_path (v : json) (section k : str) : option json :=
  match v with
  | JDict d =>
      match dict_get d section with
      | Some (JDict s) => dict_get s k
      | _ => None
      end
  | _ => None
  end.

(** The recommendation and the grade of the source for an integer score. *)
Definition grade_table (n : Z) : str * str :=
  if (85 <=? n)%Z then (py "STRONGLY RECOMMEND", py "A")
  else if (75 <=? n)%Z then (py "RECOMMEND", py "B+")
  else if (65 <=? n)%Z then (py "CONSIDER", py "B")
  else if (55 <=? n)%Z then (py "CONSIDER WITH RESERVATIONS", py "C")
  else (py "NOT RECOMMENDED", py "D").

(** An endpoint whose reply carries [content] as the text of the model:
    [content] is JSON text, written with ['] for the quote. *)
Definition completion (content : string) : str :=
  pyq "{'choices': [{'message': {'content': '"
  ++ flat_map escape_char (pyq content) ++ pyq "'}}]}".

Definition replying (content : string) : env :=
  always (reply 200 None (completion content)).

(** The prompts do not matter below. *)
Definition no_prompt1 (a : str) : str := a.
Definition no_prompt2 (a b : str) : str := a ++ b.

(** [k in v] for a result that is a mapping. *)
Definition holds_key (k : str) (v : json) : bool :=
  match v with
  | JDict d => match dict_get d k with Some _ => true | None => false end
  | _ => false
  end.
(* ================================================================= *)
(** * Properties *)

(** ** Strings *)

Unset Implicit Arguments.

#[local] Arguments N.eqb : simpl never.
#[local] Arguments N.leb : simpl never.
#[local] Arguments N.ltb : simpl never.
#[local] Arguments char_eqb : simpl never.

Lemma char_eqb_eq (a b : char) : char_eqb a b = true <-> a = b.
Proof. apply N.eqb_eq. Qed.

Lemma char_eqb_neq (a b : char) : char_eqb a b = false <-> a <> b.
Proof. apply N.eqb_neq. Qed.

Lemma char_eqb_refl (a : char) : char_eqb a a = true.
Proof. apply N.eqb_refl. Qed.

Lemma startswith_app (p s : str) : startswith p (p ++ s) = true.
Proof.
  induction p as [|a p IH]; simpl; [reflexivity|].
  now rewrite char_eqb_refl, IH.
Qed.

Lemma startswith_spec (p s : str) :
  startswith p s = true <-> exists r, s = p ++ r.
Proof.
  split.
  - revert s; induction p as [|a p IH]; intros s H.
    + now exists s.
    + destruct s as [|b s]; simpl in H; [discriminate|].
      apply andb_true_iff in H as [Hab Hp].
      apply char_eqb_eq in Hab; subst b.
      destruct (IH _ Hp) as [r ->]. now exists r.
  - intros [r ->]. apply startswith_app.
Qed.

Lemma count_ws_le (s : str) : count_ws s <= length s.
Proof.
  induction s as [|c s IH]; simpl; [lia|].
  destruct (isspace c); simpl; lia.
Qed.

Lemma count_ws_all (s : str) (i : nat) :
  i < count_ws s -> exists c, nth_error s i = Some c /\ isspace c = true.
Proof.
  revert i; induction s as [|c s IH]; simpl; intros i Hi; [lia|].
  destruct (isspace c) eqn:Hc; [|lia].
  destruct i as [|i]; simpl.
  - now exists c.
  - apply IH; lia.
Qed.

Lemma count_ws_stop (s : str) (c : char) :
  nth_error s (count_ws s) = Some c -> isspace c = false.
Proof.
  induction s as [|x s IH]; simpl; [discriminate|].
  destruct (isspace x) eqn:Hx; simpl; [exact IH|].
  now intros [= <-].
Qed.

Lemma lstrip_id (s : str) :
  match s with c :: _ => isspace c = false | [] => True end -> lstrip s = s.
Proof. destruct s as [|c s]; simpl; [reflexivity|]. now intros ->. Qed.

Lemma lstrip_app_solid (a b : str) :
  match b with c :: _ => isspace c = false | [] => False end ->
  lstrip (a ++ b) = lstrip a ++ b.
Proof.
  intros Hb. induction a as [|x a IH]; simpl.
  - destruct b as [|c b]; [contradiction|]. simpl. now rewrite Hb.
  - destruct (isspace x); [exact IH | reflexivity].
Qed.

Lemma lstrip_suffix (s : str) : exists p, s = p ++ lstrip s.
Proof.
  induction s as [|c s [p IH]]; simpl.
  - now exists [].
  - destruct (isspace c).
    + exists (c :: p). simpl. now f_equal.
    + now exists [].
Qed.

Lemma rstrip_prefix (s : str) : exists q, s = rstrip s ++ q.
Proof.
  unfold rstrip. destruct (lstrip_suffix (rev s)) as [p Hp].
  exists (rev p).
  rewrite <- rev_app_distr, <- Hp. now rewrite rev_involutive.
Qed.

Lemma rstrip_app_solid (a b : str) (x : char) :
  isspace x = false -> rstrip (a ++ x :: b) = a ++ x :: rstrip b.
Proof.
  intros Hx. unfold rstrip.
  replace (rev (a ++ x :: b)) with (rev b ++ (x :: rev a)).
  2:{ rewrite rev_app_distr. simpl. now rewrite <- app_assoc. }
  rewrite lstrip_app_solid by exact Hx.
  rewrite rev_app_distr. simpl. rewrite rev_involutive.
  now rewrite <- app_assoc.
Qed.

Lemma rstrip_nil : rstrip [] = [].
Proof. reflexivity. Qed.

(** ** [re.sub] *)

Section ReSubFacts.
Variable pattern : str -> option nat.
Variable repl : str.

Lemma re_sub_go_skip (k : nat) (s : str) :
  re_sub_go pattern repl k s = re_sub pattern repl (skipn k s).
Proof.
  revert k; induction s as [|c s IH]; intros k.
  - now destruct k.
  - destruct k as [|k]; [reflexivity|]. simpl. apply IH.
Qed.

(** The scan, unfolded one step. *)
Lemma re_sub_cons (c : char) (rest : str) :
  re_sub pattern repl (c :: rest) =
  match pattern (c :: rest) with
  | Some (S k) => repl ++ re_sub pattern repl (skipn k rest)
  | Some 0 => repl ++ c :: re_sub pattern repl rest
  | None => c :: re_sub pattern repl rest
  end.
Proof.
  unfold re_sub at 1. simpl.
  destruct (pattern (c :: rest)) as [[|k]|]; try reflexivity.
  now rewrite re_sub_go_skip.
Qed.

Lemma re_sub_nil : re_sub pattern repl [] = [].
Proof. reflexivity. Qed.

(** Induction along the scan. *)
Lemma re_sub_ind (P : str -> str -> Prop) :
  P [] [] ->
  (forall c rest,
      pattern (c :: rest) = None ->
      P rest (re_sub pattern repl rest) ->
      P (c :: rest) (c :: re_sub pattern repl rest)) ->
  (forall c rest,
      pattern (c :: rest) = Some 0 ->
      P rest (re_sub pattern repl rest) ->
      P (c :: rest) (repl ++ c :: re_sub pattern repl rest)) ->
  (forall c rest k,
      pattern (c :: rest) = Some (S k) ->
      P (skipn k rest) (re_sub pattern repl (skipn k rest)) ->
      P (c :: rest) (repl ++ re_sub pattern repl (skipn k rest))) ->
  forall s, P s (re_sub pattern repl s).
Proof.
  intros Hnil Hnone Hzero Hsome s.
  remember (length s) as n eqn:Hn.
  revert s Hn. induction n as [n IH] using lt_wf_ind. intros s Hn.
  destruct s as [|c rest]; [exact Hnil|].
  rewrite re_sub_cons.
  simpl in Hn.
  destruct (pattern (c :: rest)) as [[|k]|] eqn:Hp.
  - apply Hzero; [exact Hp|]. apply (IH (length rest)); [lia | reflexivity].
  - apply Hsome; [exact Hp|].
    apply (IH (length (skipn k rest))); [|reflexivity].
    rewrite length_skipn. lia.
  - apply Hnone; [exact Hp|]. apply (IH (length rest)); [lia | reflexivity].
Qed.

Lemma re_sub_no_match (s : str) :
  no_match pattern s = true -> re_sub pattern repl s = s.
Proof.
  induction s as [|c s IH]; [reflexivity|].
  simpl. intros H. rewrite re_sub_cons.
  destruct (pattern (c :: s)); [discriminate|].
  now rewrite IH.
Qed.
End ReSubFacts.

(** ** [find], [rfind] and slices *)

Lemma index_of_Some (c : char) (s : str) (i : nat) :
  index_of c s = Some i ->
  exists pre post, s = pre ++ c :: post /\ length pre = i /\ ~ In c pre.
Proof.
  revert i; induction s as [|x s IH]; simpl; intros i H; [discriminate|].
  destruct (char_eqb x c) eqn:Hx.
  - apply char_eqb_eq in Hx; subst x. injection H as <-.
    exists [], s. repeat split. intros [].
  - destruct (index_of c s) as [j|]; [|discriminate].
    injection H as <-.
    destruct (IH j eq_refl) as (pre & post & -> & Hl & Hn).
    exists (x :: pre), post. simpl. repeat split; [now f_equal|].
    intros [->|Hin]; [|now apply Hn].
    now rewrite char_eqb_refl in Hx.
Qed.

Lemma index_of_app (c : char) (pre post : str) :
  ~ In c pre -> index_of c (pre ++ c :: post) = Some (length pre).
Proof.
  induction pre as [|x pre IH]; simpl; intros Hn.
  - now rewrite char_eqb_refl.
  - destruct (char_eqb x c) eqn:Hx.
    + apply char_eqb_eq in Hx. exfalso. apply Hn. now left.
    + rewrite IH; [reflexivity|]. intros Hin. apply Hn. now right.
Qed.

Lemma index_of_None (c : char) (s : str) : index_of c s = None <-> ~ In c s.
Proof.
  induction s as [|x s IH]; simpl.
  - split; [intros _ [] | reflexivity].
  - destruct (char_eqb x c) eqn:Hx.
    + apply char_eqb_eq in Hx. split; [discriminate|].
      intros Hn. exfalso. apply Hn. now left.
    + apply char_eqb_neq in Hx.
      destruct (index_of c s); simpl.
      * split; [discriminate|]. intros Hn. exfalso.
        destruct IH as [_ IH]. enough (None = Some n) by discriminate.
        symmetry. apply IH. intros Hin. apply Hn. now right.
      * split; [|reflexivity]. intros _ [->|Hin]; [now apply Hx|].
        now apply (proj1 IH).
Qed.

Lemma last_index_of_None (c : char) (s : str) :
  last_index_of c s = None <-> ~ In c s.
Proof.
  induction s as [|x s IH]; simpl.
  - split; [intros _ [] | reflexivity].
  - destruct (last_index_of c s) as [j|].
    + split; [discriminate|]. intros Hn. exfalso.
      enough (Some j = None) by discriminate.
      apply IH. intros Hin. apply Hn. now right.
    + destruct (char_eqb x c) eqn:Hx.
      * apply char_eqb_eq in Hx. split; [discriminate|].
        intros Hn. exfalso. apply Hn. now left.
      * apply char_eqb_neq in Hx. split; [|reflexivity].
        intros _ [->|Hin]; [now apply Hx|]. now apply (proj1 IH).
Qed.

Lemma last_index_of_Some (c : char) (s : str) (i : nat) :
  last_index_of c s = Some i ->
  exists pre post, s = pre ++ c :: post /\ length pre = i /\ ~ In c post.
Proof.
  revert i; induction s as [|x s IH]; simpl; intros i H; [discriminate|].
  destruct (last_index_of c s) as [j|] eqn:Hl.
  - injection H as <-.
    destruct (IH j eq_refl) as (pre & post & -> & Hlen & Hn).
    exists (x :: pre), post. simpl. repeat split; [now f_equal | exact Hn].
  - destruct (char_eqb x c) eqn:Hx; [|discriminate].
    apply char_eqb_eq in Hx; subst x. injection H as <-.
    exists [], s. repeat split. now apply last_index_of_None.
Qed.

Lemma last_index_of_app (c : char) (pre post : str) :
  ~ In c post -> last_index_of c (pre ++ c :: post) = Some (length pre).
Proof.
  intros Hn. induction pre as [|x pre IH]; simpl.
  - apply last_index_of_None in Hn. rewrite Hn. now rewrite char_eqb_refl.
  - now rewrite IH.
Qed.

Lemma slice_middle (pre m post : str) :
  slice (pre ++ m ++ post) (Z.of_nat (length pre))
        (Z.of_nat (length pre + length m)) = m.
Proof.
  unfold slice, norm_index.
  rewrite !length_app.
  destruct (Z.ltb_spec (Z.of_nat (length pre)) 0); [lia|].
  destruct (Z.ltb_spec (Z.of_nat (length pre + length m)) 0); [lia|].
  rewrite !Z.min_l by lia.
  rewrite Nat2Z.id.
  replace (Z.to_nat (Z.of_nat (length pre + length m) - Z.of_nat (length pre)))
    with (length m) by lia.
  rewrite skipn_app, skipn_all, Nat.sub_diag. simpl.
  rewrite firstn_app, firstn_all, Nat.sub_diag. simpl.
  apply app_nil_r.
Qed.

Lemma is_braced_braced (s : str) : is_braced s = true -> braced s.
Proof.
  destruct s as [|c r]; simpl; [discriminate|]. intros H.
  apply andb_true_iff in H as [Hc Hr]. apply N.eqb_eq in Hc. subst c.
  destruct (rev r) as [|d m] eqn:E; [discriminate|].
  apply N.eqb_eq in Hr. subst d.
  exists (rev m). rewrite <- (rev_involutive r), E. reflexivity.
Qed.

(** The test of [clean_json_response] on the two indexes, read on the text. *)
Lemma brace_split (s : str) :
  negb (find 123%N s =? -1)%Z && (rfind 125%N s + 1 >? find 123%N s)%Z = true ->
  exists pre mid post,
    s = pre ++ (123%N :: mid ++ [125%N]) ++ post
    /\ ~ In 123%N pre /\ ~ In 125%N post
    /\ find 123%N s = Z.of_nat (length pre)
    /\ (rfind 125%N s + 1)%Z
       = Z.of_nat (length pre + length (123%N :: mid ++ [125%N])).
Proof.
  unfold find, rfind. intros H.
  apply andb_true_iff in H as [H1 H2].
  destruct (index_of 123%N s) as [i|] eqn:Hi; [|discriminate].
  destruct (last_index_of 125%N s) as [j|] eqn:Hj.
  2:{ apply Z.gtb_lt in H2. lia. }
  apply Z.gtb_lt in H2.
  destruct (index_of_Some _ _ _ Hi) as (pre & post & Hs & Hlen & Hpre).
  destruct (last_index_of_Some _ _ _ Hj) as (pre2 & post2 & Hs2 & Hlen2 & Hpost2).
  assert (Hij : i < j).
  { assert (i <= j) by lia.
    destruct (Nat.eq_dec i j) as [->|]; [|lia].
    exfalso.
    assert (E1 : nth_error s j = Some 123%N).
    { rewrite Hs, <- Hlen. rewrite nth_error_app2 by lia.
      now rewrite Nat.sub_diag. }
    assert (E2 : nth_error s j = Some 125%N).
    { rewrite Hs2, <- Hlen2. rewrite nth_error_app2 by lia.
      now rewrite Nat.sub_diag. }
    rewrite E1 in E2. discriminate. }
  (* the closing brace lies in [post] *)
  assert (Hpost : post = firstn (j - i - 1) post ++ 125%N :: post2).
  { assert (E : skipn (S i) s = post).
    { rewrite Hs, <- Hlen. rewrite skipn_app.
      rewrite (skipn_all2 pre) by lia.
      replace (S (length pre) - length pre) with 1 by lia.
      reflexivity. }
    assert (E' : skipn (j - i - 1) post = 125%N :: post2).
    { rewrite <- E, skipn_skipn.
      replace (j - i - 1 + S i) with j by lia.
      rewrite Hs2, <- Hlen2.
      rewrite skipn_app, skipn_all, Nat.sub_diag. reflexivity. }
    rewrite <- E'. now rewrite firstn_skipn. }
  exists pre, (firstn (j - i - 1) post), post2.
  assert (Hmid : length (firstn (j - i - 1) post) = j - i - 1).
  { apply firstn_length_le.
    apply (f_equal (@length _)) in Hs2. apply (f_equal (@length _)) in Hs.
    rewrite length_app in Hs, Hs2. simpl in Hs, Hs2. lia. }
  repeat split.
  - rewrite Hs. f_equal. simpl. f_equal.
    rewrite <- app_assoc. simpl. exact Hpost.
  - exact Hpre.
  - exact Hpost2.
  - now rewrite Hlen.
  - simpl. rewrite length_app, Hmid. simpl. lia.
Qed.

Lemma brace_indexes (pre mid post : str) :
  ~ In 123%N pre -> ~ In 125%N post ->
  let s := pre ++ (123%N :: mid ++ [125%N]) ++ post in
  find 123%N s = Z.of_nat (length pre)
  /\ (rfind 125%N s + 1)%Z
     = Z.of_nat (length pre + length (123%N :: mid ++ [125%N])).
Proof.
  intros Hpre Hpost s. unfold find, rfind, s. split.
  - simpl. now rewrite index_of_app.
  - replace (pre ++ (123%N :: mid ++ [125%N]) ++ post)
      with ((pre ++ 123%N :: mid) ++ 125%N :: post).
    2:{ rewrite <- !app_assoc. simpl. now rewrite <- app_assoc. }
    rewrite last_index_of_app by exact Hpost.
    rewrite !length_app. simpl. rewrite length_app. simpl. lia.
Qed.

(** ** The comma repairs *)

Lemma re_comma_Some (close : char) (s : str) (n : nat) :
  re_comma close s = Some n ->
  exists ws tail,
    s = 44%N :: ws ++ close :: tail
    /\ n = S (S (length ws))
    /\ Forall (fun x => isspace x = true) ws.
Proof.
  destruct s as [|c r]; simpl; [discriminate|].
  destruct (char_eqb c 44%N) eqn:Hc; [|discriminate].
  apply char_eqb_eq in Hc; subst c.
  destruct (nth_error r (count_ws r)) as [d|] eqn:Hd; [|discriminate].
  destruct (char_eqb d close) eqn:Hdc; [|discriminate].
  apply char_eqb_eq in Hdc; subst d. intros [= <-].
  destruct (nth_error_split _ _ Hd) as (ws & tail & Hr & Hlen).
  exists ws, tail. repeat split.
  - now rewrite Hr.
  - rewrite Hlen. lia.
  - apply Forall_forall. intros x Hx.
    destruct (In_nth_error _ _ Hx) as [i Hi].
    assert (Hlt : i < count_ws r).
    { rewrite <- Hlen. apply nth_error_Some. now rewrite Hi. }
    destruct (count_ws_all _ _ Hlt) as (y & Hy & Hsp).
    rewrite Hr, nth_error_app1 in Hy by (rewrite Hlen; exact Hlt).
    rewrite Hi in Hy. now injection Hy as ->.
Qed.

Lemma re_comma_not_comma (close c : char) (r : str) :
  c <> 44%N -> re_comma close (c :: r) = None.
Proof.
  intros Hc. simpl. apply char_eqb_neq in Hc. now rewrite Hc.
Qed.

Lemma skipn_ws_close (ws tail : str) (close : char) :
  skipn (S (length ws)) (ws ++ close :: tail) = tail.
Proof.
  rewrite skipn_app, skipn_all2 by lia.
  replace (S (length ws) - length ws) with 1 by lia. reflexivity.
Qed.

Lemma ends_cons (c x : char) (rest m : str) :
  c :: rest = m ++ [x] -> (rest = [] /\ c = x) \/ exists m', rest = m' ++ [x].
Proof.
  destruct m as [|y m]; simpl; intros [= -> ->].
  - now left.
  - right. now exists m.
Qed.

Lemma ends_app (a b m : str) (x : char) :
  a ++ b = m ++ [x] -> b <> [] -> exists m0, b = m0 ++ [x].
Proof.
  intros H Hb.
  rewrite (app_removelast_last 0%N Hb) in H.
  rewrite app_assoc in H. apply app_inj_tail in H as [_ Hx].
  exists (removelast b). rewrite <- Hx.
  now apply app_removelast_last.
Qed.

Lemma re_comma_keeps_end (close : char) (s : str) :
  (exists m, s = m ++ [125%N]) ->
  exists m', re_sub (re_comma close) [close] s = m' ++ [125%N].
Proof.
  apply (re_sub_ind (re_comma close) [close]
           (fun s out => (exists m, s = m ++ [125%N]) ->
                         exists m', out = m' ++ [125%N])).
  - intros [m Hm]. now destruct m.
  - intros c rest _ IH [m Hm].
    destruct (ends_cons _ _ _ _ Hm) as [[-> ->]|Hrest].
    + now exists [].
    + destruct (IH Hrest) as [m' ->]. now exists (c :: m').
  - intros c rest Hp _ _.
    destruct (re_comma_Some _ _ _ Hp) as (ws & tail & _ & Hn & _). discriminate.
  - intros c rest k Hp IH [m Hm].
    destruct (re_comma_Some _ _ _ Hp) as (ws & tail & Hs & Hn & _).
    injection Hs as -> ->. injection Hn as ->.
    rewrite skipn_ws_close in *.
    destruct tail as [|t tail].
    + (* the match is the end of the text *)
      assert (close = 125%N) as ->.
      { change (44%N :: ws ++ [close]) with ((44%N :: ws) ++ [close]) in Hm.
        now apply app_inj_tail in Hm. }
      now exists [].
    + assert (Ht : exists m0, t :: tail = m0 ++ [125%N]).
      { apply (ends_app (44%N :: ws ++ [close]) (t :: tail) m 125%N);
          [|discriminate].
        rewrite <- Hm. simpl. now rewrite <- app_assoc. }
      destruct (IH Ht) as [m' ->]. now exists (close :: m').
Qed.

Lemma re_comma_braced (close : char) (s : str) :
  braced s -> braced (re_sub (re_comma close) [close] s).
Proof.
  intros [mid ->].
  rewrite re_sub_cons, re_comma_not_comma by discriminate.
  destruct (re_comma_keeps_end close (mid ++ [125%N])) as [m' ->].
  - now exists mid.
  - now exists m'.
Qed.

Lemma fix_commas_braced (s : str) : braced s -> braced (fix_commas s).
Proof.
  intros H. unfold fix_commas. now do 2 apply re_comma_braced.
Qed.

Lemma braced_empty_object : braced (py "{}").
Proof. now exists []. Qed.

(** [clean_json_response] always returns a text that starts with an opening
    brace and ends with a closing one. *)
Lemma clean_json_response_braced (response : str) :
  braced (clean_json_response response).
Proof.
  unfold clean_json_response.
  destruct response as [|c0 r0]; [apply braced_empty_object|].
  set (cleaned := if contains _ _ then _ else _).
  destruct (negb (find _ cleaned =? -1)%Z && _) eqn:Htest;
    [|apply braced_empty_object].
  apply fix_commas_braced.
  destruct (brace_split _ Htest) as (pre & mid & post & Hs & _ & _ & Hf & Hr).
  change (chr "{") with 123%N. change (chr "}") with 125%N.
  rewrite Hf, Hr. rewrite Hs at 1. rewrite slice_middle.
  now exists mid.
Qed.

(** ** The decoder never runs out of fuel *)

Lemma skip_ws_length (s : str) : length (skip_ws s) <= length s.
Proof.
  induction s as [|c s IH]; simpl; [lia|].
  destruct (json_ws c); simpl; lia.
Qed.

Lemma skip_ws_cons (s : str) (c : char) (r : str) :
  skip_ws s = c :: r -> length r < length s.
Proof.
  intros H. pose proof (skip_ws_length s) as Hl. rewrite H in Hl.
  simpl in Hl. lia.
Qed.

Lemma scanstring_shorter (n : nat) :
  forall s start acc v rest,
    length s <= n ->
    scanstring start acc s = Scanned v rest -> length rest < length s.
Proof.
  induction n as [|n IH]; intros s start acc v rest Hn H.
  - destruct s; [discriminate H | simpl in Hn; lia].
  - destruct s as [|c r]; [discriminate H|].
    simpl in Hn. simpl in H.
    repeat match type of H with
           | (if ?b then _ else _) = _ => destruct b
           | match ?x with _ => _ end = _ => destruct x
           end;
      try discriminate H;
      try (injection H as _ <-; simpl; lia);
      try (apply IH in H; simpl in *; lia).
Qed.

Lemma scanstring_no_fuel (n : nat) :
  forall s start acc, length s <= n -> scanstring start acc s <> OutOfFuel.
Proof.
  induction n as [|n IH]; intros s start acc Hn.
  - destruct s; [discriminate | simpl in Hn; lia].
  - destruct s as [|c r]; [discriminate|].
    simpl in Hn. simpl.
    repeat match goal with
           | |- (if ?b then _ else _) <> _ => destruct b
           | |- match ?x with _ => _ end <> _ => destruct x
           end;
      try discriminate;
      try (apply IH; simpl in *; lia).
Qed.

Lemma span_digits_length (s : str) :
  length (snd (span_digits s)) <= length s.
Proof.
  induction s as [|c s IH]; simpl; [lia|].
  destruct (is_digit c); simpl; [|lia].
  destruct (span_digits s). simpl in *. lia.
Qed.

Lemma match_number_shorter (s : str) (v : json) (rest : str) :
  match_number s = Some (v, rest) -> length rest < length s.
Proof.
  unfold match_number.
  set (neg_s1 := match s with
                 | c :: r => if (c =? 45)%N then (true, r) else (false, s)
                 | [] => (false, s)
                 end).
  assert (H1 : length (snd neg_s1) <= length s).
  { unfold neg_s1. destruct s as [|c r]; simpl; [lia|].
    destruct (c =? 45)%N; simpl; lia. }
  destruct neg_s1 as [neg s1]. simpl in H1.
  set (int_part := match s1 with
                   | c :: r =>
                       if (c =? 48)%N then Some ([c], r)
                       else if is_digit c
                            then (let (d, rest) := span_digits r in
                                  Some (c :: d, rest))
                            else None
                   | [] => None
                   end).
  assert (H2 : forall ds s2, int_part = Some (ds, s2) -> length s2 < length s1).
  { unfold int_part. intros ds s2. destruct s1 as [|c r]; [discriminate|].
    destruct (c =? 48)%N.
    - intros [= _ <-]. simpl. lia.
    - destruct (is_digit c); [|discriminate].
      pose proof (span_digits_length r) as Hl.
      destruct (span_digits r) as [d rest']. intros [= _ <-]. simpl in *. lia. }
  destruct int_part as [[ds s2]|]; [|discriminate].
  specialize (H2 ds s2 eq_refl).
  set (frac_s3 := match s2 with
                  | dot :: r =>
                      if (dot =? 46)%N then
                        match span_digits r with
                        | ([], _) => ([], s2)
                        | (fd, rest) => (dot :: fd, rest)
                        end
                      else ([], s2)
                  | [] => ([], s2)
                  end).
  assert (H3 : length (snd frac_s3) <= length s2).
  { unfold frac_s3. destruct s2 as [|dot r]; simpl; [lia|].
    destruct (dot =? 46)%N; simpl; [|lia].
    pose proof (span_digits_length r) as Hl.
    destruct (span_digits r) as [[|f fd] rest']; simpl in *; lia. }
  destruct frac_s3 as [frac s3]. simpl in H3.
  set (exp_s4 := match s3 with
                 | e :: r =>
                     if (e =? 101)%N || (e =? 69)%N then
                       let (sg, r') :=
                         match r with
                         | c :: r0 => if (c =? 45)%N || (c =? 43)%N
                                      then ([c], r0) else ([], r)
                         | [] => ([], r)
                         end in
                       match span_digits r' with
                       | ([], _) => ([], s3)
                       | (ed, rest) => (e :: sg ++ ed, rest)
                       end
                     else ([], s3)
                 | [] => ([], s3)
                 end).
  assert (H4 : length (snd exp_s4) <= length s3).
  { unfold exp_s4. destruct s3 as [|e r]; simpl; [lia|].
    destruct ((e =? 101)%N || (e =? 69)%N); simpl; [|lia].
    set (sg_r := match r with
                 | c :: r0 => if (c =? 45)%N || (c =? 43)%N
                              then ([c], r0) else ([], r)
                 | [] => ([], r)
                 end).
    assert (H5 : length (snd sg_r) <= length r).
    { unfold sg_r. destruct r as [|c r0]; simpl; [lia|].
      destruct ((c =? 45)%N || (c =? 43)%N); simpl; lia. }
    destruct sg_r as [sg r']. simpl in H5.
    pose proof (span_digits_length r') as Hl.
    destruct (span_digits r') as [[|x ed] rest']; simpl in *; lia. }
  destruct exp_s4 as [exp s4]. simpl in H4.
  destruct frac, exp; intros [= _ <-]; lia.
Qed.

Lemma keyword_shorter (k : string) (v : json) (s : str) (v' : json)
    (rest : str) :
  k <> EmptyString -> keyword k v s = Some (v', rest) ->
  length rest < length s.
Proof.
  intros Hk. unfold keyword.
  destruct (startswith (py k) s) eqn:E; [|discriminate].
  intros [= _ <-].
  apply startswith_spec in E as [r ->].
  assert (Hlen : length (py k) = String.length k).
  { unfold py. rewrite length_map. clear. induction k; simpl; congruence. }
  rewrite <- Hlen, skipn_app, skipn_all, Nat.sub_diag. simpl.
  rewrite length_app. destruct k; [contradiction|]. simpl. lia.
Qed.

Lemma scan_atom_shorter (s : str) (v : json) (rest : str) :
  scan_atom s = Some (v, rest) -> length rest < length s.
Proof.
  unfold scan_atom. destruct s as [|c r]; [discriminate|].
  set (named := if (c =? 110)%N then _ else _).
  assert (Hn : forall v' rest', named = Some (v', rest') ->
                                length rest' < length (c :: r)).
  { unfold named. intros v' rest'.
    repeat match goal with
           | |- (if ?b then _ else _) = _ -> _ => destruct b
           end;
      try discriminate; apply keyword_shorter; discriminate. }
  destruct named as [[v' rest']|].
  - intros [= _ <-]. now apply (Hn v').
  - apply match_number_shorter.
Qed.

(** Every scanning step consumes at least one character. *)
Lemma scan_shorter (fuel : nat) :
  (forall s v rest, scan_once fuel s = Scanned v rest ->
                    length rest < length s)
  /\ (forall acc s v rest, parse_members fuel acc s = Scanned v rest ->
                           length rest < length s)
  /\ (forall acc s v rest, parse_items fuel acc s = Scanned v rest ->
                           length rest < length s).
Proof.
  induction fuel as [|fuel (IHs & IHm & IHi)].
  { repeat split; intros; discriminate. }
  repeat split.
  - intros s v rest. simpl.
    destruct s as [|c r]; [discriminate|].
    destruct (c =? 34)%N.
    { destruct (scanstring _ [] r) as [x r'| |] eqn:E; try discriminate.
      intros [= _ <-].
      apply (scanstring_shorter (length r)) in E; simpl; lia. }
    destruct (c =? 123)%N.
    { pose proof (skip_ws_length r) as Hl.
      destruct (skip_ws r) as [|d r'] eqn:E.
      - intros H. apply IHm in H. simpl in *. lia.
      - destruct (d =? 125)%N.
        + intros [= _ <-]. simpl in *. lia.
        + intros H. apply IHm in H. simpl in *. lia. }
    destruct (c =? 91)%N.
    { pose proof (skip_ws_length r) as Hl.
      destruct (skip_ws r) as [|d r'] eqn:E.
      - intros H. apply IHi in H. simpl in *. lia.
      - destruct (d =? 93)%N.
        + intros [= _ <-]. simpl in *. lia.
        + intros H. apply IHi in H. simpl in *. lia. }
    destruct (scan_atom (c :: r)) as [[x r']|] eqn:E; [|discriminate].
    intros [= _ <-]. now apply scan_atom_shorter in E.
  - intros acc s v rest. simpl.
    destruct s as [|c r]; [discriminate|].
    destruct (c =? 34)%N; [|discriminate].
    destruct (scanstring _ [] r) as [key s1| |] eqn:E1; try discriminate.
    apply (scanstring_shorter (length r)) in E1; [|lia].
    destruct (skip_ws s1) as [|colon s2] eqn:E2; [discriminate|].
    apply skip_ws_cons in E2.
    destruct (colon =? 58)%N; [|discriminate].
    destruct (scan_once fuel (skip_ws s2)) as [x s3| |] eqn:E3;
      try discriminate.
    apply IHs in E3. pose proof (skip_ws_length s2) as Hl2.
    destruct (skip_ws s3) as [|d s4] eqn:E4; [discriminate|].
    apply skip_ws_cons in E4.
    destruct (d =? 125)%N.
    + intros [= _ <-]. simpl. lia.
    + destruct (d =? 44)%N; [|discriminate].
      intros H. apply IHm in H. pose proof (skip_ws_length s4).
      simpl. lia.
  - intros acc s v rest. simpl.
    destruct (scan_once fuel s) as [x s1| |] eqn:E1; try discriminate.
    apply IHs in E1.
    destruct (skip_ws s1) as [|d s2] eqn:E2; [discriminate|].
    apply skip_ws_cons in E2.
    destruct (d =? 93)%N.
    + intros [= _ <-]. lia.
    + destruct (d =? 44)%N; [|discriminate].
      intros H. apply IHi in H. pose proof (skip_ws_length s2). lia.
Qed.

(** The fuel of [json_loads] is never used up. *)
Lemma scan_fuel_enough (fuel : nat) :
  (forall s, 2 * length s + 1 <= fuel -> scan_once fuel s <> OutOfFuel)
  /\ (forall acc s, 2 * length s + 2 <= fuel ->
                    parse_members fuel acc s <> OutOfFuel)
  /\ (forall acc s, 2 * length s + 2 <= fuel ->
                    parse_items fuel acc s <> OutOfFuel).
Proof.
  induction fuel as [|fuel (IHs & IHm & IHi)].
  { repeat split; intros; lia. }
  repeat split.
  - intros s Hf. simpl.
    destruct s as [|c r]; [discriminate|]. simpl in Hf.
    destruct (c =? 34)%N.
    { pose proof (scanstring_no_fuel (length r) r (length (c :: r)) []
                    (le_n _)) as Hs.
      destruct (scanstring _ [] r); try discriminate. now contradiction Hs. }
    destruct (c =? 123)%N.
    { pose proof (skip_ws_length r) as Hl.
      destruct (skip_ws r) as [|d r'] eqn:E.
      - apply IHm. simpl. lia.
      - destruct (d =? 125)%N; [discriminate|].
        apply IHm. simpl in *. lia. }
    destruct (c =? 91)%N.
    { pose proof (skip_ws_length r) as Hl.
      destruct (skip_ws r) as [|d r'] eqn:E.
      - apply IHi. simpl. lia.
      - destruct (d =? 93)%N; [discriminate|].
        apply IHi. simpl in *. lia. }
    destruct (scan_atom (c :: r)) as [[x r']|]; discriminate.
  - intros acc s Hf. simpl.
    destruct s as [|c r]; [discriminate|]. simpl in Hf.
    destruct (c =? 34)%N; [|discriminate].
    pose proof (scanstring_no_fuel (length r) r (length (c :: r)) []
                  (le_n _)) as Hs.
    destruct (scanstring _ [] r) as [key s1| |] eqn:E1;
      [|discriminate|now contradiction Hs].
    apply (scanstring_shorter (length r)) in E1; [|lia].
    destruct (skip_ws s1) as [|colon s2] eqn:E2; [discriminate|].
    apply skip_ws_cons in E2.
    destruct (colon =? 58)%N; [|discriminate].
    pose proof (skip_ws_length s2) as Hl2.
    assert (Hv : scan_once fuel (skip_ws s2) <> OutOfFuel)
      by (apply IHs; lia).
    destruct (scan_once fuel (skip_ws s2)) as [x s3| |] eqn:E3;
      [|discriminate|now contradiction Hv].
    apply scan_shorter in E3.
    destruct (skip_ws s3) as [|d s4] eqn:E4; [discriminate|].
    apply skip_ws_cons in E4.
    destruct (d =? 125)%N; [discriminate|].
    destruct (d =? 44)%N; [|discriminate].
    apply IHm. pose proof (skip_ws_length s4). lia.
  - intros acc s Hf. simpl.
    assert (Hv : scan_once fuel s <> OutOfFuel) by (apply IHs; lia).
    destruct (scan_once fuel s) as [x s1| |] eqn:E1;
      [|discriminate|now contradiction Hv].
    apply scan_shorter in E1.
    destruct (skip_ws s1) as [|d s2] eqn:E2; [discriminate|].
    apply skip_ws_cons in E2.
    destruct (d =? 93)%N; [discriminate|].
    destruct (d =? 44)%N; [|discriminate].
    apply IHi. pose proof (skip_ws_length s2). lia.
Qed.

(** [json_loads] always comes to a verdict of the scanner itself. *)
Lemma json_loads_fuel (s : str) :
  scan_once (decode_fuel s) (skip_ws s) <> OutOfFuel.
Proof.
  apply scan_fuel_enough. unfold decode_fuel.
  pose proof (skip_ws_length s). lia.
Qed.

(** ** The decoder on a text in braces *)

Lemma parse_members_dict (fuel : nat) :
  forall acc s v rest,
    parse_members fuel acc s = Scanned v rest -> is_mapping v.
Proof.
  induction fuel as [|fuel IH]; intros acc s v rest; simpl; [discriminate|].
  destruct s as [|c r]; [discriminate|].
  destruct (c =? 34)%N; [|discriminate].
  destruct (scanstring _ _ r) as [key s1| |]; try discriminate.
  destruct (skip_ws s1) as [|colon s2]; [discriminate|].
  destruct (colon =? 58)%N; [|discriminate].
  destruct (scan_once fuel (skip_ws s2)) as [x s3| |]; try discriminate.
  destruct (skip_ws s3) as [|d s4]; [discriminate|].
  destruct (d =? 125)%N.
  - intros [= <- _]. now eexists.
  - destruct (d =? 44)%N; [|discriminate]. apply IH.
Qed.

Lemma scan_once_brace (fuel : nat) (r : str) (v : json) (rest : str) :
  scan_once fuel (123%N :: r) = Scanned v rest -> is_mapping v.
Proof.
  destruct fuel as [|fuel]; simpl; [discriminate|].
  destruct (skip_ws r) as [|d r'] eqn:Hr.
  - apply parse_members_dict.
  - destruct (d =? 125)%N.
    + intros [= <- _]. now eexists.
    + apply parse_members_dict.
Qed.

Lemma json_loads_braced (s : str) (v : json) :
  braced s -> json_loads s = inl v -> is_mapping v.
Proof.
  intros [mid ->]. unfold json_loads. simpl startswith. simpl skip_ws.
  destruct (scan_once _ _) as [x rest| |] eqn:Hscan; try discriminate.
  destruct (skip_ws rest); [|discriminate].
  intros [= <-]. eapply scan_once_brace, Hscan.
Qed.

(** ** C10, C2, C8: the salvager *)

(** C10: for every input the text returned by [clean_json_response] begins
    with an opening brace and ends with a closing brace (it is the
    empty-object literal or a brace-delimited text that went through the
    comma repairs), and whenever the strict parse of [safe_json_parse]
    succeeds on it the value it returns is a mapping. *)
Theorem clean_json_response_yields_object (response : str) :
  (exists mid, clean_json_response response = 123%N :: mid ++ [125%N])
  /\ (clean_json_response response = py "{}"
      \/ exists json_str,
           braced json_str
           /\ clean_json_response response = fix_commas json_str)
  /\ forall v default,
       json_loads (clean_json_response response) = inl v ->
       safe_json_parse response default = v /\ is_mapping v.
Proof.
  split; [apply clean_json_response_braced|]. split.
  - unfold clean_json_response.
    destruct response as [|c0 r0]; [now left|].
    set (cleaned := if contains _ _ then _ else _).
    destruct (negb (find _ cleaned =? -1)%Z && _) eqn:Htest; [|now left].
    right.
    destruct (brace_split _ Htest) as (pre & mid & post & Hs & _ & _ & Hf & Hr).
    eexists. split; [|reflexivity].
    change (chr "{") with 123%N. change (chr "}") with 125%N.
    rewrite Hf, Hr. rewrite Hs at 1. rewrite slice_middle. now exists mid.
  - intros v default Hv. split.
    + unfold safe_json_parse. now rewrite Hv.
    + eapply json_loads_braced; [apply clean_json_response_braced | exact Hv].
Qed.

Lemma clean_json_response_yields_object_witness :
  safe_json_parse (pyq "Sure: {'a': [1, 2, ], } done") None
  = JDict [(py "a", JList [JInt 1; JInt 2])]
  /\ is_mapping (JDict [(py "a", JList [JInt 1; JInt 2])]).
Proof.
  apply (proj2 (proj2 (clean_json_response_yields_object
                         (pyq "Sure: {'a': [1, 2, ], } done")))).
  vm_compute. reflexivity.
Defined.

(** C2, as the specification has it, fails: for the input
    ["not json at all"] the result has no [error] key (and no [raw] key). *)
Lemma safe_json_parse_not_json_has_no_error :
  ~ (has_key (py "error") (safe_json_parse (py "not json at all") None)
     /\ key_is (py "raw") (JStr (slice (py "not json at all") 0 500))
               (safe_json_parse (py "not json at all") None)).
Proof.
  intros [(d & x & Hd & Hx) _].
  vm_compute in Hd. injection Hd as <-. discriminate Hx.
Qed.

(** C2, amended: for the input ["not json at all"] with no default,
    [clean_json_response] finds no object and returns the empty-object
    literal, which parses: [safe_json_parse] returns the empty mapping. *)
Theorem safe_json_parse_not_json_is_empty :
  clean_json_response (py "not json at all") = py "{}"
  /\ safe_json_parse (py "not json at all") None = JDict [].
Proof. split; vm_compute; reflexivity. Qed.

(** What [safe_json_parse] returns once both parses have failed. *)
Lemma safe_json_parse_both_fail (response : str)
    (default : option (list (str * json))) (e e' : JSONDecodeError) :
  json_loads (clean_json_response response) = inr e ->
  json_loads (replace_char (chr "'") [34%N] (clean_json_response response))
    = inr e' ->
  safe_json_parse response default =
  match default with
  | Some ((_ :: _) as d) => JDict d
  | _ => parse_failure response e
  end.
Proof.
  intros H1 H2. unfold safe_json_parse. rewrite H1, H2. reflexivity.
Qed.

(** C8 at a supplied, empty default: both parses of ["{a}"] fail and the
    caller's empty mapping is replaced by the synthetic one. *)
Theorem safe_json_parse_drops_empty_default :
  (exists e, json_loads (clean_json_response (py "{a}")) = inr e)
  /\ (exists e, json_loads (replace_char (chr "'") [34%N]
                              (clean_json_response (py "{a}"))) = inr e)
  /\ safe_json_parse (py "{a}") (Some []) <> JDict []
  /\ has_key (py "error") (safe_json_parse (py "{a}") (Some []))
  /\ key_is (py "raw") (JStr (py "{a}")) (safe_json_parse (py "{a}") (Some [])).
Proof.
  split; [eexists; vm_compute; reflexivity|].
  split; [eexists; vm_compute; reflexivity|].
  split; [vm_compute; discriminate|].
  split.
  - eexists _, _. split; vm_compute; reflexivity.
  - eexists. split; vm_compute; reflexivity.
Qed.

(** ** Code fences *)

Lemma contains_cons (p : str) (c : char) (s : str) :
  contains p (c :: s) = startswith p (c :: s) || contains p s.
Proof. reflexivity. Qed.

Lemma contains_skipn (p s : str) (n : nat) :
  contains p s = false -> contains p (skipn n s) = false.
Proof.
  revert s; induction n as [|n IH]; intros s H; [exact H|].
  destruct s as [|c s]; [exact H|].
  rewrite contains_cons in H. apply orb_false_iff in H as [_ H].
  simpl. now apply IH.
Qed.

Lemma startswith_firstn (p s : str) (n : nat) :
  startswith p (firstn n s) = true -> startswith p s = true.
Proof.
  revert s n; induction p as [|a p IH]; intros s n; [reflexivity|].
  destruct n as [|n]; destruct s as [|b s]; simpl; try discriminate.
  intros H. apply andb_true_iff in H as [-> H]. simpl. eapply IH, H.
Qed.

Lemma contains_firstn (p s : str) (n : nat) :
  contains p s = false -> contains p (firstn n s) = false.
Proof.
  revert n; induction s as [|c s IH]; intros n H.
  - now rewrite firstn_nil.
  - destruct n as [|n].
    + simpl firstn. destruct p; [discriminate H | reflexivity].
    + rewrite contains_cons in H. apply orb_false_iff in H as [H1 H2].
      rewrite firstn_cons, contains_cons.
      apply orb_false_iff. split; [|now apply IH].
      destruct (startswith p (c :: firstn n s)) eqn:E; [|reflexivity].
      rewrite <- firstn_cons in E. apply startswith_firstn in E. congruence.
Qed.

Lemma contains_slice (p s : str) (a b : Z) :
  contains p s = false -> contains p (slice s a b) = false.
Proof.
  intros H. unfold slice. now apply contains_firstn, contains_skipn.
Qed.

Lemma re_fence_None (s : str) :
  re_fence s = None <-> startswith (py "```") s = false.
Proof.
  unfold re_fence. destruct (startswith _ s); split; congruence.
Qed.

Lemma heads_kept_cons (c : char) (rest out : str) :
  heads_kept rest out -> heads_kept (c :: rest) (c :: out).
Proof.
  intros [H1 H2]. split; simpl.
  - auto.
  - destruct (char_eqb 96 c); simpl; [|intros; discriminate].
    destruct out as [|o out]; [discriminate|].
    intros H. simpl in H1. rewrite andb_true_r in *.
    specialize (H1 H). destruct rest as [|r rest]; [discriminate|].
    simpl in H1. rewrite andb_true_r in H1. now rewrite H1.
Qed.

Lemma no_fence_cons (c : char) (rest out : str) :
  startswith (py "```") (c :: rest) = false ->
  heads_kept rest out ->
  contains (py "```") out = false ->
  contains (py "```") (c :: out) = false.
Proof.
  intros Hs [H1 H2] Hout. rewrite contains_cons, Hout, orb_false_r.
  destruct (startswith (py "```") (c :: out)) eqn:E; [|reflexivity].
  exfalso. change (py "```") with [96; 96; 96]%N in *. simpl in E, Hs.
  destruct (char_eqb 96 c); [|discriminate]. simpl in E, Hs.
  destruct out as [|o1 [|o2 out]]; simpl in E; try discriminate;
    try (now rewrite andb_false_r in E).
  assert (E2 : startswith [96; 96]%N (o1 :: o2 :: out) = true) by exact E.
  specialize (H2 E2). destruct rest as [|r1 [|r2 rest]]; simpl in H2, Hs;
    try discriminate; try (now rewrite andb_false_r in H2).
  congruence.
Qed.

Lemma re_fence_removes_fences (s : str) :
  contains (py "```") (re_sub re_fence [] s) = false
  /\ heads_kept s (re_sub re_fence [] s).
Proof.
  apply (re_sub_ind re_fence []
           (fun s out => contains (py "```") out = false /\ heads_kept s out)).
  - split; [reflexivity|]. now split.
  - intros c rest Hp [IH1 IH2]. apply re_fence_None in Hp. split.
    + now apply no_fence_cons with (rest := rest).
    + now apply heads_kept_cons.
  - intros c rest Hp _. unfold re_fence in Hp.
    destruct (startswith _ _); discriminate.
  - intros c rest k Hp [IH1 _]. split; [exact IH1|].
    assert (Hs : startswith (py "```") (c :: rest) = true).
    { destruct (startswith (py "```") (c :: rest)) eqn:E; [reflexivity|].
      apply re_fence_None in E. congruence. }
    apply startswith_spec in Hs as [r Hr]. rewrite Hr. now split.
Qed.

Lemma re_comma_keeps_no_fence (close : char) (s : str) :
  close <> 96%N ->
  (contains (py "```") s = false ->
   contains (py "```") (re_sub (re_comma close) [close] s) = false)
  /\ heads_kept s (re_sub (re_comma close) [close] s).
Proof.
  intros Hclose.
  apply (re_sub_ind (re_comma close) [close]
           (fun s out => (contains (py "```") s = false ->
                          contains (py "```") out = false)
                         /\ heads_kept s out)).
  - split; [auto|]. now split.
  - intros c rest _ [IH1 IH2]. split.
    + intros H. rewrite contains_cons in H.
      apply orb_false_iff in H as [Hs Hrest].
      apply no_fence_cons with (rest := rest); auto.
    + now apply heads_kept_cons.
  - intros c rest Hp _.
    destruct (re_comma_Some _ _ _ Hp) as (ws & tail & _ & Hn & _). discriminate.
  - intros c rest k Hp [IH1 _].
    destruct (re_comma_Some _ _ _ Hp) as (ws & tail & Hs & Hn & _).
    injection Hs as -> ->. injection Hn as ->.
    rewrite skipn_ws_close in *.
    assert (Hhead : forall p out, startswith (96%N :: p) (close :: out) = false).
    { intros p out. simpl.
      destruct (char_eqb 96 close) eqn:E; [|reflexivity].
      apply char_eqb_eq in E. congruence. }
    split.
    + intros H. simpl app. rewrite contains_cons.
      change (py "```") with [96; 96; 96]%N. rewrite Hhead. simpl orb.
      apply IH1.
      apply (contains_skipn _ _ (S (S (length ws)))) in H.
      rewrite skipn_cons in H. now rewrite skipn_ws_close in H.
    + split; simpl app; rewrite Hhead; discriminate.
Qed.

Lemma fix_commas_keeps_no_fence (s : str) :
  contains (py "```") s = false -> contains (py "```") (fix_commas s) = false.
Proof.
  intros H. unfold fix_commas.
  apply re_comma_keeps_no_fence; [discriminate|].
  apply re_comma_keeps_no_fence; [discriminate|]. exact H.
Qed.

(** The result of [clean_json_response] holds no code fence. *)
Lemma clean_json_response_no_fence (response : str) :
  contains (py "```") (clean_json_response response) = false.
Proof.
  unfold clean_json_response.
  destruct response as [|c0 r0]; [reflexivity|].
  set (stripped := strip (c0 :: r0)).
  set (cleaned := if contains _ _ then _ else _).
  assert (Hc : contains (py "```") cleaned = false).
  { unfold cleaned. destruct (contains (py "```") stripped) eqn:E.
    - apply re_fence_removes_fences.
    - exact E. }
  destruct (negb _ && _); [|reflexivity].
  now apply fix_commas_keeps_no_fence, contains_slice.
Qed.

(** ** C6: running [clean_json_response] on its own result *)

Lemma strip_braced (s : str) : braced s -> strip s = s.
Proof.
  intros [mid ->]. unfold strip.
  rewrite lstrip_id by reflexivity.
  change (123%N :: mid ++ [125%N]) with ((123%N :: mid) ++ 125%N :: []).
  now rewrite rstrip_app_solid.
Qed.

Lemma clean_json_response_on_clean (c : str) :
  braced c -> contains (py "```") c = false ->
  clean_json_response c = fix_commas c.
Proof.
  intros Hb Hf. unfold clean_json_response.
  rewrite (strip_braced _ Hb), Hf.
  destruct Hb as [mid ->].
  destruct (brace_indexes [] mid [] (fun x => x) (fun x => x)) as [Hfind Hrfind].
  simpl app in Hfind, Hrfind. rewrite app_nil_r in Hfind, Hrfind.
  change (chr "{") with 123%N. change (chr "}") with 125%N.
  rewrite Hfind, Hrfind.
  replace (negb _ && _) with true.
  2:{ symmetry. apply andb_true_iff. split; [reflexivity|].
      apply Z.gtb_lt. simpl length. lia. }
  f_equal.
  pose proof (slice_middle [] (123%N :: mid ++ [125%N]) []) as Hs.
  simpl app in Hs. rewrite app_nil_r in Hs. exact Hs.
Qed.

(** A second run strips nothing and slices nothing: it only repeats the two
    comma repairs. *)
Lemma clean_json_response_twice (response : str) :
  clean_json_response (clean_json_response response)
  = fix_commas (clean_json_response response).
Proof.
  apply clean_json_response_on_clean.
  - apply clean_json_response_braced.
  - apply clean_json_response_no_fence.
Qed.

Lemma fix_commas_id (s : str) :
  trailing_comma_free s = true -> fix_commas s = s.
Proof.
  unfold trailing_comma_free, fix_commas. intros H.
  apply andb_true_iff in H as [H1 H2].
  rewrite (re_sub_no_match _ _ _ H1). now apply re_sub_no_match.
Qed.

(** C6, as the specification has it, fails: two commas in a row leave one
    comma for the second run to remove. *)
Lemma clean_json_response_not_idempotent :
  clean_json_response (clean_json_response (py "{,,}"))
  <> clean_json_response (py "{,,}").
Proof. vm_compute. discriminate. Qed.

(** C6, amended: [clean_json_response] leaves its own result unchanged
    whenever that result holds no comma followed, after optional whitespace,
    by a closing brace or bracket. *)
Theorem clean_json_response_idempotent (response : str) :
  trailing_comma_free (clean_json_response response) = true ->
  clean_json_response (clean_json_response response)
  = clean_json_response response.
Proof.
  intros H. rewrite clean_json_response_twice. now apply fix_commas_id.
Qed.

Lemma clean_json_response_idempotent_witness :
  clean_json_response
    (clean_json_response (pyq "```json
{'skills': ['a', 'b', ], 'score': 7, }
```"))
  = clean_json_response (pyq "```json
{'skills': ['a', 'b', ], 'score': 7, }
```").
Proof.
  apply clean_json_response_idempotent. vm_compute. reflexivity.
Defined.

(** ** C7: an object between prose and fences *)

Lemma re_sub_delete_incl (pattern : str -> option nat) (s : str) (x : char) :
  In x (re_sub pattern [] s) -> In x s.
Proof.
  apply (re_sub_ind pattern []
           (fun s out => In x out -> In x s)).
  - auto.
  - intros c rest _ IH [->|H]; [now left | right; auto].
  - intros c rest _ IH [->|H]; [now left | right; auto].
  - intros c rest k _ IH H. right.
    specialize (IH H).
    rewrite <- (firstn_skipn k rest). apply in_or_app. now right.
Qed.

Lemma count_ws_app_stop (u y : str) (c : char) :
  isspace c = false -> count_ws (u ++ c :: y) <= length u.
Proof.
  intros Hc. induction u as [|x u IH]; simpl.
  - now rewrite Hc.
  - destruct (isspace x); simpl; lia.
Qed.

Lemma startswith_before (p x y : str) (c : char) :
  startswith p (x ++ c :: y) = true -> ~ In c p -> length p <= length x.
Proof.
  revert x; induction p as [|a p IH]; intros x H Hn; simpl; [lia|].
  destruct x as [|b x]; simpl in H.
  - apply andb_true_iff in H as [H _]. apply char_eqb_eq in H. subst c.
    exfalso. apply Hn. now left.
  - apply andb_true_iff in H as [_ H]. simpl.
    apply le_n_S, IH; [exact H|]. intros Hin. apply Hn. now right.
Qed.

Lemma skipn_app_le {A} (n : nat) (x y : list A) :
  n <= length x -> skipn n (x ++ y) = skipn n x ++ y.
Proof.
  intros H. rewrite skipn_app.
  replace (n - length x) with 0 by lia. reflexivity.
Qed.

Lemma re_fence_before_brace (x y : str) (n : nat) :
  re_fence (x ++ 123%N :: y) = Some n -> n <= length x.
Proof.
  unfold re_fence.
  destruct (startswith (py "```") (x ++ 123%N :: y)) eqn:Hs; [|discriminate].
  intros Hn.
  assert (n = 3 + count_ws (skipn 3 (x ++ 123%N :: y))) as -> by congruence.
  clear Hn.
  assert (H3 : 3 <= length x).
  { apply (startswith_before _ _ _ _ Hs). simpl.
    intros [H|[H|[H|[]]]]; discriminate. }
  rewrite skipn_app_le by exact H3.
  pose proof (count_ws_app_stop (skipn 3 x) y 123%N eq_refl) as Hc.
  rewrite length_skipn in Hc. lia.
Qed.

Lemma re_fence_json_before_brace (x y : str) (n : nat) :
  re_fence_json (x ++ 123%N :: y) = Some n -> n <= length x.
Proof.
  unfold re_fence_json.
  destruct (startswith (py "```jso") (x ++ 123%N :: y)) eqn:Hs; [|discriminate].
  intros Hn.
  remember (skipn 6 (x ++ 123%N :: y)) as r6 eqn:Hr6.
  assert (n = 6 + match r6 with
                  | c :: _ => if char_eqb c (chr "n") then 1 else 0
                  | [] => 0
                  end
              + count_ws (skipn match r6 with
                                | c :: _ => if char_eqb c (chr "n") then 1 else 0
                                | [] => 0
                                end r6)) as -> by congruence.
  clear Hn. subst r6.
  assert (H6 : 6 <= length x).
  { apply (startswith_before _ _ _ _ Hs). simpl.
    intros [H|[H|[H|[H|[H|[H|[]]]]]]]; discriminate. }
  rewrite skipn_app_le by exact H6.
  destruct (skipn 6 x) as [|c r] eqn:Hx.
  - simpl. exact H6.
  - assert (Hl : length x = 7 + length r).
    { apply (f_equal (@length _)) in Hx. rewrite length_skipn in Hx.
      simpl in Hx. lia. }
    simpl app. change (chr "n") with 110%N. cbv iota.
    destruct (char_eqb c 110%N).
    + simpl skipn.
      pose proof (count_ws_app_stop r y 123%N eq_refl). lia.
    + simpl skipn.
      pose proof (count_ws_app_stop (c :: r) y 123%N eq_refl) as Hc.
      simpl length in Hc. simpl app in Hc. lia.
Qed.

Lemma re_fence_json_starts (s : str) :
  startswith (py "```") s = false -> re_fence_json s = None.
Proof.
  unfold re_fence_json. intros H.
  destruct (startswith (py "```jso") s) eqn:E; [|reflexivity].
  apply startswith_spec in E as [r ->]. discriminate H.
Qed.

Lemma no_fence_at_tail (b X m : str) :
  b = m ++ [125%N] -> contains (py "```") b = false ->
  startswith (py "```") (b ++ X) = false.
Proof.
  intros Hb Hc.
  destruct b as [|c1 [|c2 [|c3 b]]].
  - now destruct m.
  - destruct m as [|? [|? ?]]; try discriminate. injection Hb as ->.
    reflexivity.
  - destruct m as [|? [|? [|? ?]]]; try discriminate.
    injection Hb as -> ->. simpl. now rewrite andb_false_r.
  - rewrite contains_cons in Hc. apply orb_false_iff in Hc as [Hc _].
    exact Hc.
Qed.

Section AroundObject.
Variable pattern : str -> option nat.
Hypothesis starts_with_fence :
  forall s, startswith (py "```") s = false -> pattern s = None.
Hypothesis stops_before_brace :
  forall x y n, pattern (x ++ 123%N :: y) = Some n -> n <= length x.

Lemma re_sub_through_object (o X : str) :
  (exists m, o = m ++ [125%N]) -> contains (py "```") o = false ->
  re_sub pattern [] (o ++ X) = o ++ re_sub pattern [] X.
Proof.
  induction o as [|c o IH]; intros [m Hm] Hc.
  - now destruct m.
  - simpl app. rewrite re_sub_cons.
    rewrite starts_with_fence
      by (apply (no_fence_at_tail (c :: o) X m Hm Hc)).
    f_equal.
    destruct (ends_cons _ _ _ _ Hm) as [[-> _]|Ho]; [reflexivity|].
    apply IH; [exact Ho|].
    rewrite contains_cons in Hc. now apply orb_false_iff in Hc.
Qed.

Lemma re_sub_around_object (object : str) :
  braced object -> contains (py "```") object = false ->
  forall before after,
    ~ In 123%N before -> ~ In 125%N after ->
    exists before' after',
      re_sub pattern [] (before ++ object ++ after)
      = before' ++ object ++ after'
      /\ ~ In 123%N before' /\ ~ In 125%N after'.
Proof.
  intros Hb Hf before.
  remember (length before) as n eqn:Hn. revert before Hn.
  induction n as [n IH] using lt_wf_ind. intros before Hn after Hbe Haf.
  destruct before as [|c before].
  - exists [], (re_sub pattern [] after). simpl app. repeat split.
    + apply re_sub_through_object; [|exact Hf].
      destruct Hb as [mid ->]. now exists (123%N :: mid).
    + intros [].
    + intros H. now apply Haf, (re_sub_delete_incl pattern).
  - assert (Hc : c <> 123%N) by (intros ->; apply Hbe; now left).
    assert (Hbe' : ~ In 123%N before) by (intros H; apply Hbe; now right).
    simpl app. rewrite re_sub_cons.
    destruct (pattern (c :: before ++ object ++ after)) as [[|k]|] eqn:Hp.
    + destruct (IH (length before)) with (before := before) (after := after)
        as (b' & a' & -> & Hb' & Ha'); simpl in Hn; try lia; auto.
      exists (c :: b'), a'. repeat split; auto.
      intros [H|H]; [now apply Hc | now apply Hb'].
    + destruct Hb as [mid Hobj].
      rewrite Hobj in Hp.
      change (c :: before ++ (123%N :: mid ++ [125%N]) ++ after)
        with ((c :: before) ++ 123%N :: (mid ++ [125%N]) ++ after) in Hp.
      apply stops_before_brace in Hp. simpl in Hp.
      rewrite skipn_app_le by lia.
      destruct (IH (length (skipn k before)))
        with (before := skipn k before) (after := after)
        as (b' & a' & -> & Hb' & Ha'); auto.
      * rewrite length_skipn. simpl in Hn. lia.
      * intros H. apply Hbe'.
        rewrite <- (firstn_skipn k before). apply in_or_app. now right.
      * exists b', a'. now repeat split.
    + destruct (IH (length before)) with (before := before) (after := after)
        as (b' & a' & -> & Hb' & Ha'); simpl in Hn; try lia; auto.
      exists (c :: b'), a'. repeat split; auto.
      intros [H|H]; [now apply Hc | now apply Hb'].
Qed.
End AroundObject.

Lemma strip_around_object (before object after : str) :
  braced object ->
  strip (before ++ object ++ after) = lstrip before ++ object ++ rstrip after.
Proof.
  intros [mid ->]. unfold strip.
  rewrite lstrip_app_solid by reflexivity.
  replace (lstrip before ++ (123%N :: mid ++ [125%N]) ++ after)
    with ((lstrip before ++ 123%N :: mid) ++ 125%N :: after).
  2:{ rewrite <- !app_assoc. simpl. now rewrite <- app_assoc. }
  rewrite rstrip_app_solid by reflexivity.
  rewrite <- !app_assoc. simpl. now rewrite <- app_assoc.
Qed.

Lemma not_in_lstrip (c : char) (s : str) : ~ In c s -> ~ In c (lstrip s).
Proof.
  intros H Hin. apply H. destruct (lstrip_suffix s) as [p Hp].
  rewrite Hp. apply in_or_app. now right.
Qed.

Lemma not_in_rstrip (c : char) (s : str) : ~ In c s -> ~ In c (rstrip s).
Proof.
  intros H Hin. apply H. destruct (rstrip_prefix s) as [q Hq].
  rewrite Hq. apply in_or_app. now left.
Qed.

Lemma clean_json_response_slices (before object after : str) :
  braced object -> ~ In 123%N before -> ~ In 125%N after ->
  let cleaned := before ++ object ++ after in
  (if negb (find (chr "{") cleaned =? -1)%Z
      && (rfind (chr "}") cleaned + 1 >? find (chr "{") cleaned)%Z
   then fix_commas (slice cleaned (find (chr "{") cleaned)
                          (rfind (chr "}") cleaned + 1))
   else py "{}") = fix_commas object.
Proof.
  intros [mid ->] Hb Ha cleaned. unfold cleaned.
  destruct (brace_indexes before mid after Hb Ha) as [Hf Hr].
  change (chr "{") with 123%N. change (chr "}") with 125%N.
  rewrite Hf, Hr.
  replace (negb _ && _) with true.
  2:{ symmetry. apply andb_true_iff. split.
      - apply negb_true_iff, Z.eqb_neq. lia.
      - apply Z.gtb_lt. simpl length. lia. }
  now rewrite slice_middle.
Qed.

(** C7, as the specification has it, fails: a well-formed object whose
    string value holds a comma before a closing brace comes back altered. *)
Lemma clean_json_response_alters_object :
  json_loads (pyq "{'a': ',}'}") = inl (JDict [(py "a", JStr (py ",}"))])
  /\ clean_json_response (pyq "text {'a': ',}'} text") <> pyq "{'a': ',}'}".
Proof. split; vm_compute; [reflexivity | discriminate]. Qed.

(** C7, amended: when the text before the object holds no opening brace,
    the text after it no closing brace, and the object's own text (from its
    opening to its closing brace) holds no code fence and no comma followed,
    after optional whitespace, by a closing brace or bracket, then
    [clean_json_response] returns exactly the object's text, whatever the
    fences and the prose around it. *)
Theorem clean_json_response_extracts_object (before object after : str) :
  braced object ->
  ~ In 123%N before ->
  ~ In 125%N after ->
  contains (py "```") object = false ->
  trailing_comma_free object = true ->
  clean_json_response (before ++ object ++ after) = object.
Proof.
  intros Hobj Hb Ha Hf Hc.
  unfold clean_json_response.
  destruct (before ++ object ++ after) as [|c0 r0] eqn:E.
  { destruct Hobj as [mid ->]. now destruct before. }
  rewrite <- E. clear E c0 r0.
  rewrite (strip_around_object _ _ _ Hobj).
  pose proof (not_in_lstrip _ _ Hb) as Hb'.
  pose proof (not_in_rstrip _ _ Ha) as Ha'.
  destruct (contains (py "```") (lstrip before ++ object ++ rstrip after)).
  - destruct (re_sub_around_object re_fence_json re_fence_json_starts
                re_fence_json_before_brace object Hobj Hf _ _ Hb' Ha')
      as (b1 & a1 & -> & Hb1 & Ha1).
    destruct (re_sub_around_object re_fence
                (fun s H => proj2 (re_fence_None s) H)
                re_fence_before_brace object Hobj Hf _ _ Hb1 Ha1)
      as (b2 & a2 & -> & Hb2 & Ha2).
    etransitivity; [now apply clean_json_response_slices|].
    now apply fix_commas_id.
  - etransitivity; [now apply clean_json_response_slices|].
    now apply fix_commas_id.
Qed.

Lemma clean_json_response_extracts_object_witness :
  clean_json_response
    (pyq "Here is the analysis:
```json
" ++ pyq "{'score': 82, 'skills': ['python', 'sql'], 'notes': {'fit': 'good'}}"
     ++ pyq "
```
Let me know if you need more.")
  = pyq "{'score': 82, 'skills': ['python', 'sql'], 'notes': {'fit': 'good'}}".
Proof.
  apply clean_json_response_extracts_object.
  - apply is_braced_braced. vm_compute. reflexivity.
  - apply index_of_None. vm_compute. reflexivity.
  - apply last_index_of_None. vm_compute. reflexivity.
  - vm_compute. reflexivity.
  - vm_compute. reflexivity.
Defined.

(* ================================================================= *)
(** ** [call_llm]: one attempt *)

Lemma read_reply_pure (r : response) :
  exists o, (forall w, read_reply r w = (o, w)) /\ o <> Val Continue.
Proof.
  unfold read_reply, bind, raise_for_status, response_json, lift, ret, raise.
  destruct ((400 <=? status_code r)%Z && (status_code r <? 500)%Z);
    [eexists; split; [reflexivity | discriminate]|].
  destruct ((500 <=? status_code r)%Z && (status_code r <? 600)%Z);
    [eexists; split; [reflexivity | discriminate]|].
  destruct (json_loads (text r)) as [v|e];
    [|eexists; split; [reflexivity | discriminate]].
  destruct (getitem_key v (py "choices")) as [choices|ex];
    [|eexists; split; [reflexivity | discriminate]].
  destruct (getitem_0 choices) as [choice|ex];
    [|eexists; split; [reflexivity | discriminate]].
  destruct (getitem_key choice (py "message")) as [message|ex];
    [|eexists; split; [reflexivity | discriminate]].
  destruct (getitem_key message (py "content")) as [content|ex];
    [|eexists; split; [reflexivity | discriminate]].
  destruct (method_strip content) as [stripped|ex];
    eexists; (split; [reflexivity | discriminate]).
Qed.

Lemma Qle_bool_inject_Z (d : Z) : (0 <= d)%Z -> Qle_bool 0 (inject_Z d) = true.
Proof.
  intros H. apply Qle_bool_iff. change 0%Q with (inject_Z 0).
  now rewrite <- Zle_Qle.
Qed.

Lemma inject_Z_ge (k d : Z) : (k <= d)%Z -> (inject_Z k <= inject_Z d)%Q.
Proof. now rewrite <- Zle_Qle. Qed.

(** What an [except] clause does to the world: nothing, or one sleep of at
    least five seconds before the next attempt. *)
Lemma attempt_except_effect (attempt : nat) (ex : exn) (w : world) :
  exists o w',
    attempt_except attempt ex w = (o, w')
    /\ ((w' = w /\ o <> Val Continue)
        \/ (o = Val Continue
            /\ exists d, (5 <= d)%Z /\ w' = after_sleep (inject_Z d) w)).
Proof.
  assert (Hret : forall s, exists o w',
             ret (Return s) w = (o, w')
             /\ ((w' = w /\ o <> Val Continue)
                 \/ (o = Val Continue
                     /\ exists d, (5 <= d)%Z
                                  /\ w' = after_sleep (inject_Z d) w))).
  { intros s. eexists _, _. split; [reflexivity|]. left.
    split; [reflexivity | discriminate]. }
  assert (Hraise : forall ex, exists o w',
             raise (A := flow) ex w = (o, w')
             /\ ((w' = w /\ o <> Val Continue)
                 \/ (o = Val Continue
                     /\ exists d, (5 <= d)%Z
                                  /\ w' = after_sleep (inject_Z d) w))).
  { intros ex'. eexists _, _. split; [reflexivity|]. left.
    split; [reflexivity | discriminate]. }
  assert (Hsleep : forall d, (5 <= d)%Z -> exists o w',
             (time_sleep (inject_Z d) ;;; ret Continue) w = (o, w')
             /\ ((w' = w /\ o <> Val Continue)
                 \/ (o = Val Continue
                     /\ exists d, (5 <= d)%Z
                                  /\ w' = after_sleep (inject_Z d) w))).
  { intros d Hd. unfold bind, time_sleep, ret.
    rewrite Qle_bool_inject_Z by lia.
    eexists _, _. split; [reflexivity|]. right. split; [reflexivity|].
    now exists d. }
  destruct ex as [m|m|m|m|m|m|m]; unfold attempt_except;
    try apply Hret; try apply Hraise.
  - destruct (attempt <? max_retries - 1); [|apply Hret].
    apply (Hsleep 10%Z). lia.
  - destruct (contains (py "429") m || contains (py "Too Many Requests") m);
      [|apply Hret].
    destruct (attempt <? max_retries - 1) eqn:Hlt; [|apply Hret].
    apply Hsleep. apply Nat.ltb_lt in Hlt. simpl in Hlt.
    destruct attempt as [|[|[|attempt]]]; simpl; lia.
Qed.

(** What one attempt does to the world: the timestamp, the request, and
    then either nothing more or one sleep before the next attempt (the
    sleep of an [except] clause, or the wait after an HTTP 429). *)
Lemma attempt_body_effect (e : env) (p : payload) (attempt : nat) (w : world) :
  let sent := after_post (endpoint e attempt) p (after_send (now w) w) in
  exists o w',
    attempt_body e p attempt w = (o, w')
    /\ ((w' = sent /\ o <> Val Continue)
        \/ (o = Val Continue
            /\ exists d,
                 w' = after_sleep (inject_Z d) sent
                 /\ (0 <= d)%Z
                 /\ ((5 <= d)%Z
                     \/ exists r, result (endpoint e attempt) = PostResponse r
                                  /\ status_code r = 429%Z
                                  /\ d = wait_after_429 attempt r))).
Proof.
  intros sent.
  unfold attempt_body, try_except, attempt_try, bind, time_time,
    set_LAST_REQUEST_TIME, requests_post.
  fold sent.
  assert (Hhandler : forall ex,
    exists o w',
      attempt_except attempt ex sent = (o, w')
      /\ ((w' = sent /\ o <> Val Continue)
          \/ (o = Val Continue
              /\ exists d,
                   w' = after_sleep (inject_Z d) sent
                   /\ (0 <= d)%Z
                   /\ ((5 <= d)%Z
                       \/ exists r,
                            result (endpoint e attempt) = PostResponse r
                            /\ status_code r = 429%Z
                            /\ d = wait_after_429 attempt r)))).
  { intros ex.
    destruct (attempt_except_effect attempt ex sent) as (o & w' & E & H).
    exists o, w'. split; [exact E|].
    destruct H as [H|[Ho (d & Hd & Hw)]]; [now left|].
    right. split; [exact Ho|]. exists d. repeat split; auto. lia. }
  destruct (result (endpoint e attempt)) as [m|m|r] eqn:Hres.
  - apply Hhandler.
  - apply Hhandler.
  - destruct (status_code r =? 401)%Z eqn:H401.
    { eexists _, _. split; [reflexivity|]. left. split;
        [reflexivity | discriminate]. }
    destruct (status_code r =? 429)%Z eqn:H429.
    + apply Z.eqb_eq in H429. unfold time_sleep, ret.
      destruct (Qle_bool 0 (inject_Z (wait_after_429 attempt r))) eqn:Hw.
      * eexists _, _. split; [reflexivity|]. right. split; [reflexivity|].
        exists (wait_after_429 attempt r). repeat split.
        -- apply Qle_bool_iff in Hw. change 0%Q with (inject_Z 0) in Hw.
           now rewrite <- Zle_Qle in Hw.
        -- right. now exists r.
      * simpl. eexists _, _. split; [reflexivity|]. left. split;
          [reflexivity | discriminate].
    + destruct (read_reply_pure r) as (o & Ho & Hnc).
      rewrite Ho. destruct o as [f|ex].
      * eexists _, _. split; [reflexivity|]. now left.
      * apply Hhandler.
Qed.


(* ================================================================= *)
(** ** C1: the spacing of the recorded timestamps *)


Lemma rate_gate_effect (w : world) :
  exists w1,
    rate_gate w = (Val tt, w1)
    /\ sends_of (log w1) = sends_of (log w)
    /\ posts_of (log w1) = posts_of (log w)
    /\ LAST_REQUEST_TIME w1 = LAST_REQUEST_TIME w
    /\ (now w <= now w1)%Q
    /\ (LAST_REQUEST_TIME w + MIN_REQUEST_INTERVAL <= now w1)%Q
    /\ (log w1 = log w \/ exists d, log w1 = EvSleep d :: log w).
Proof.
  unfold rate_gate, bind, time_time, get_LAST_REQUEST_TIME, ret, time_sleep.
  destruct (Qle_bool MIN_REQUEST_INTERVAL (now w - LAST_REQUEST_TIME w))
    eqn:E; simpl negb; cbv iota.
  - apply Qle_bool_iff in E. exists w. repeat split; auto.
    + apply Qle_refl.
    + unfold MIN_REQUEST_INTERVAL in *. lra.
  - assert (Hlt : ~ (MIN_REQUEST_INTERVAL <= now w - LAST_REQUEST_TIME w)%Q).
    { intros H. apply Qle_bool_iff in H. congruence. }
    assert (Hpos : Qle_bool 0 (MIN_REQUEST_INTERVAL
                               - (now w - LAST_REQUEST_TIME w)) = true).
    { apply Qle_bool_iff. unfold MIN_REQUEST_INTERVAL in *. lra. }
    rewrite Hpos. eexists. split; [reflexivity|].
    unfold after_sleep; simpl. unfold MIN_REQUEST_INTERVAL in *.
    repeat split; try lra. right. now eexists.
Qed.







(* ================================================================= *)
(** ** C3, C4, C5: how the attempts end *)

Lemma posts_after_attempt (e : env) (p : payload) (attempt : nat) (w : world) :
  posts_of (log (snd (attempt_body e p attempt w))) = S (posts_of (log w)).
Proof.
  destruct (attempt_body_effect e p attempt w) as (o & w' & E & H).
  rewrite E. simpl snd.
  destruct H as [[-> _]|[_ (d & -> & _)]]; reflexivity.
Qed.

(** The loop sends one request per attempt and never more than it has
    attempts: [call_llm] ends after at most [max_retries] requests. *)
Lemma attempts_bounded (e : env) (p : payload) (todo : list nat) (w : world) :
  posts_of (log (snd (attempts e p todo w)))
  <= posts_of (log w) + length todo.
Proof.
  revert w; induction todo as [|attempt todo IH]; intros w; simpl; [lia|].
  unfold bind.
  pose proof (posts_after_attempt e p attempt w) as Hp.
  destruct (attempt_body e p attempt w) as [[[|s]|ex] w']; simpl in *;
    try lia.
  specialize (IH w'). lia.
Qed.

Lemma call_llm_bounded (e : env) (prompt : str) (max_tokens : Z)
    (temperature : Q) (w : world) :
  posts_of (log (snd (call_llm e prompt max_tokens temperature w)))
  <= posts_of (log w) + max_retries.
Proof.
  unfold call_llm. destruct (api_key e); [simpl; lia|].
  unfold bind.
  destruct (rate_gate_effect w) as (w1 & -> & _ & Hp & _).
  rewrite <- Hp.
  etransitivity; [apply attempts_bounded|].
  rewrite length_seq. lia.
Qed.

(** A timeout, a transport error, an HTTP error status, a body that is not
    JSON, a missing key and an empty list all end in a returned value: the
    only exceptions that leave [call_llm] are those no [except] clause
    names. *)
Lemma attempt_except_uncaught (attempt : nat) (ex ex' : exn) (w w' : world) :
  attempt_except attempt ex w = (Exc ex', w') -> uncaught ex'.
Proof.
  assert (Hsleep : forall d, (5 <= d)%Z ->
            (time_sleep (inject_Z d) ;;; ret Continue) w <> (Exc ex', w')).
  { intros d Hd. unfold bind, time_sleep, ret.
    rewrite Qle_bool_inject_Z by lia. discriminate. }
  destruct ex as [m|m|m|m|m|m|m]; unfold attempt_except;
    try (unfold ret; discriminate);
    try (unfold raise; intros [= <- _]; exact I).
  - destruct (attempt <? max_retries - 1); [|unfold ret; discriminate].
    intros H. exfalso. now apply (Hsleep 10%Z).
  - destruct (contains (py "429") m || contains (py "Too Many Requests") m);
      [|unfold ret; discriminate].
    destruct (attempt <? max_retries - 1) eqn:Hlt; [|unfold ret; discriminate].
    intros H. exfalso. revert H. apply Hsleep.
    apply Nat.ltb_lt in Hlt. simpl in Hlt.
    destruct attempt as [|[|[|attempt]]]; simpl; lia.
Qed.

Lemma attempts_uncaught (e : env) (p : payload) (todo : list nat) :
  forall w ex,
    fst (attempts e p todo w) = Exc ex -> uncaught ex.
Proof.
  induction todo as [|attempt todo IH]; intros w ex; [discriminate|].
  simpl attempts. unfold bind, attempt_body, try_except.
  destruct (attempt_try e p attempt w) as [[f|ex1] w1].
  - destruct f as [|s]; [apply IH | discriminate].
  - destruct (attempt_except attempt ex1 w1) as [[f|ex2] w2] eqn:E.
    + destruct f as [|s]; [apply IH | discriminate].
    + intros [= <-]. eapply attempt_except_uncaught, E.
Qed.

Lemma call_llm_uncaught (e : env) (prompt : str) (max_tokens : Z)
    (temperature : Q) (w : world) (ex : exn) :
  fst (call_llm e prompt max_tokens temperature w) = Exc ex -> uncaught ex.
Proof.
  unfold call_llm. destruct (api_key e); [discriminate|].
  unfold bind.
  destruct (rate_gate_effect w) as (w1 & -> & _).
  apply attempts_uncaught.
Qed.

(** C3 at a reply with status 200 whose body is JSON of the wrong shape
    ([choices] is [null]): the [TypeError] of the subscript is caught by no
    [except] clause and leaves [call_llm]. *)
Theorem call_llm_malformed_body_raises :
  fst (call_llm (always (reply 200 None (pyq "{'choices': null}")))
                (py "Score this resume") 3000 (1 # 10) (initial_world 1000))
  = Exc (TypeError (py "'NoneType' object is not subscriptable")).
Proof. vm_compute. reflexivity. Qed.

(** The same for a [content] that is [null]: [None.strip()] raises
    [AttributeError]. *)
Lemma call_llm_null_content_raises :
  fst (call_llm
         (always (reply 200 None
                    (pyq "{'choices': [{'message': {'content': null}}]}")))
         (py "Score this resume") 3000 (1 # 10) (initial_world 1000))
  = Exc (AttributeError (py "'NoneType' object has no attribute 'strip'")).
Proof. vm_compute. reflexivity. Qed.

(** C4: when the endpoint answers the first attempt with HTTP 401,
    [call_llm] returns the authentication failure after exactly one
    request; the request is the last thing it does (no sleep follows it, no
    second attempt), at most the wait of the rate gate precedes it; and the
    text names the page where a new key is made. *)
Theorem call_llm_401_not_retried (e : env) (prompt : str) (max_tokens : Z)
    (temperature : Q) (w : world) (r : response) :
  api_key e <> [] ->
  result (endpoint e 0) = PostResponse r ->
  status_code r = 401%Z ->
  let run := call_llm e prompt max_tokens temperature w in
  fst run = Val (json_dumps_error AUTH_ERROR)
  /\ posts_of (log (snd run)) = S (posts_of (log w))
  /\ (exists p t before,
         log (snd run) = EvPost p :: EvSend t :: before
         /\ (before = log w \/ exists d, before = EvSleep d :: log w))
  /\ contains (py "https://console.groq.com/keys") AUTH_ERROR = true
  /\ contains (py "Create a new API key") AUTH_ERROR = true.
Proof.
  intros Hkey Hres H401 run. unfold run, call_llm.
  destruct (api_key e) as [|k ks]; [contradiction|].
  unfold bind.
  destruct (rate_gate_effect w) as (w1 & -> & _ & Hp & _ & _ & _ & Hlog).
  simpl attempts.
  unfold bind, attempt_body, try_except, attempt_try, bind, time_time,
    set_LAST_REQUEST_TIME, requests_post.
  rewrite Hres, H401. simpl.
  repeat split; try reflexivity.
  - now rewrite Hp.
  - eexists _, _, _. split; [reflexivity|]. exact Hlog.
Qed.

Lemma call_llm_401_not_retried_witness :
  fst (call_llm (always (reply 401 None [])) (py "Score this resume") 3000
                (1 # 10) (initial_world 1000))
  = Val (json_dumps_error AUTH_ERROR)
  /\ posts_of (log (snd (call_llm (always (reply 401 None []))
                                  (py "Score this resume") 3000 (1 # 10)
                                  (initial_world 1000)))) = 1.
Proof.
  destruct (call_llm_401_not_retried (always (reply 401 None []))
              (py "Score this resume") 3000 (1 # 10) (initial_world 1000)
              (mkResponse 401 [] None []))
    as (H1 & H2 & _).
  - discriminate.
  - reflexivity.
  - reflexivity.
  - split; [exact H1 | exact H2].
Defined.

(** One attempt that meets HTTP 429 with a wait that is not negative. *)
Lemma attempt_body_429 (e : env) (p : payload) (attempt : nat) (w : world)
    (r : response) :
  result (endpoint e attempt) = PostResponse r ->
  status_code r = 429%Z ->
  (0 <= wait_after_429 attempt r)%Z ->
  attempt_body e p attempt w
  = (Val Continue,
     after_sleep (inject_Z (wait_after_429 attempt r))
       (after_post (endpoint e attempt) p (after_send (now w) w))).
Proof.
  intros Hres H429 Hw.
  unfold attempt_body, try_except, attempt_try, bind, time_time,
    set_LAST_REQUEST_TIME, requests_post, time_sleep, ret.
  rewrite Hres, H429. simpl Z.eqb. cbv iota.
  now rewrite Qle_bool_inject_Z.
Qed.


(** C5 at an endpoint that always answers HTTP 429 with
    [retry-after: -3]: the wait is [min(-3 + 2, 90) = -1], [time.sleep]
    raises [ValueError], no [except] clause catches it, and [call_llm] ends
    by that exception after one request. *)
Theorem call_llm_negative_retry_after_raises :
  wait_after_429 0 (mkResponse 429 [] (Some (py "-3")) []) = (-1)%Z
  /\ fst (call_llm (always (reply 429 (Some (py "-3")) []))
                   (py "Score this resume") 3000 (1 # 10) (initial_world 1000))
     = Exc (ValueError (py "sleep length must be non-negative"))
  /\ posts_of (log (snd (call_llm (always (reply 429 (Some (py "-3")) []))
                                  (py "Score this resume") 3000 (1 # 10)
                                  (initial_world 1000)))) = 1.
Proof. repeat split; vm_compute; reflexivity. Qed.

(* ================================================================= *)
(** ** C9: the diagnostics of [extract_text_from_file] *)

Lemma handle_file_upload_test (L : libraries) (f : file) (name : str)
    (text_area default_text : str) :
  handle_file_upload L UploadFile (Some (f, name)) text_area default_text
  = if flagged_as_failure (extract_text_from_file L (Some f) name)
    then default_text
    else extract_text_from_file L (Some f) name.
Proof.
  unfold handle_file_upload, flagged_as_failure.
  destruct (extract_text_from_file L (Some f) name) as [|c t]; [reflexivity|].
  destruct (startswith (py "Error") (c :: t));
    destruct (startswith (py "Could not") (c :: t)); reflexivity.
Qed.

(** The failures that do carry a prefix: [read] raising, whatever the
    type of the file, and a PDF from which no library gets any text. *)
Lemma read_failure_flagged (L : libraries) (f : file) (name e : str) :
  read f = inr e ->
  endswith (py ".pdf") (lower name) = true
  \/ endswith (py ".txt") (lower name) = true
  \/ (endswith (py ".docx") (lower name) = true /\ docx L <> None) ->
  startswith (py "Error") (extract_text_from_file L (Some f) name) = true.
Proof.
  intros Hread H. unfold extract_text_from_file.
  destruct (endswith (py ".pdf") (lower name)) eqn:Hpdf.
  { unfold extract_text_from_pdf. now rewrite Hread. }
  destruct (endswith (py ".docx") (lower name)) eqn:Hdocx.
  { unfold extract_text_from_docx.
    destruct H as [H|[H|[_ H]]].
    - discriminate.
    - destruct (docx L); [now rewrite Hread|].
      (* a [.txt] name cannot end with [.docx] too *)
      exfalso. unfold endswith in *.
      apply startswith_spec in H as [r1 H1].
      apply startswith_spec in Hdocx as [r2 H2].
      rewrite H1 in H2. discriminate.
    - destruct (docx L); [now rewrite Hread | contradiction]. }
  destruct H as [H|[H|[H _]]]; try discriminate.
  rewrite H. unfold extract_text_from_txt. now rewrite Hread.
Qed.

(** C9 at a [.docx] upload on an installation without python-docx, and at
    a file of another type: the diagnostic carries neither prefix, the
    caller takes it for extracted text and returns it instead of the
    default text. *)
Theorem extract_text_failure_not_flagged :
  extract_text_from_file no_libraries (Some some_upload) (py "resume.docx")
  = py "Please install python-docx: pip install python-docx"
  /\ flagged_as_failure
       (extract_text_from_file no_libraries (Some some_upload)
                               (py "resume.docx")) = false
  /\ handle_file_upload no_libraries UploadFile
       (Some (some_upload, py "resume.docx")) [] (py "default resume")
     = py "Please install python-docx: pip install python-docx"
  /\ extract_text_from_file no_libraries (Some some_upload) (py "resume.odt")
     = py "Unsupported format. Please upload PDF, DOCX, or TXT."
  /\ handle_file_upload no_libraries UploadFile
       (Some (some_upload, py "resume.odt")) [] (py "default resume")
     = py "Unsupported format. Please upload PDF, DOCX, or TXT.".
Proof. repeat split; vm_compute; reflexivity. Qed.

(** The sibling path: with no PDF library either, a [.pdf] upload gives a
    diagnostic that is flagged, and the caller falls back. *)
Lemma extract_text_pdf_failure_flagged :
  flagged_as_failure
    (extract_text_from_file no_libraries (Some some_upload) (py "resume.pdf"))
  = true
  /\ handle_file_upload no_libraries UploadFile
       (Some (some_upload, py "resume.pdf")) [] (py "default resume")
     = py "default resume".
Proof. split; vm_compute; reflexivity. Qed.

(* ================================================================= *)
(** ** More about the salvager *)

Lemma replace_char_app (a : char) (b s t : str) :
  replace_char a b (s ++ t) = replace_char a b s ++ replace_char a b t.
Proof. unfold replace_char. apply flat_map_app. Qed.

Lemma replace_char_braced (a : char) (b s : str) :
  a <> 123%N -> a <> 125%N -> braced s -> braced (replace_char a b s).
Proof.
  intros H1 H2 [mid ->]. exists (replace_char a b mid).
  change (123%N :: mid ++ [125%N]) with ([123%N] ++ mid ++ [125%N]).
  rewrite !replace_char_app.
  assert (E : forall c, a <> c -> replace_char a b [c] = [c]).
  { intros c Hc. unfold replace_char. cbn [flat_map].
    replace (char_eqb c a) with false; [reflexivity|].
    symmetry. apply char_eqb_neq. congruence. }
  rewrite !E by assumption. reflexivity.
Qed.

Lemma safe_json_parse_mapping (response : str)
    (default : option (list (str * json))) :
  is_mapping (safe_json_parse response default).
Proof.
  unfold safe_json_parse.
  pose proof (clean_json_response_braced response) as Hb.
  destruct (json_loads (clean_json_response response)) as [v|e] eqn:E1.
  - exact (json_loads_braced _ _ Hb E1).
  - destruct (json_loads (replace_char (chr "'") [34%N]
                            (clean_json_response response))) as [v|e'] eqn:E2.
    + refine (json_loads_braced _ _ _ E2).
      apply replace_char_braced; [discriminate | discriminate | exact Hb].
    + destruct default as [[|kv d]|]; eexists; reflexivity.
Qed.

(** X1. Whatever the reply and whatever the default, [safe_json_parse]
    returns a mapping: never a list, a string, a number or [None].  (Within
    the limits of the interpreter that the decoder above leaves out: a
    reply that exceeds them makes [json.loads] raise an exception that is
    no [JSONDecodeError].) *)
Theorem safe_json_parse_returns_mapping (response : str)
    (default : option (list (str * json))) :
  is_mapping (safe_json_parse response default).
Proof. exact (safe_json_parse_mapping response default). Qed.

(** X2. The text [clean_json_response] returns holds no Markdown fence,
    whatever the reply was. *)
Theorem clean_json_response_has_no_fence (response : str) :
  contains (py "```") (clean_json_response response) = false.
Proof. exact (clean_json_response_no_fence response). Qed.

Lemma find_not_in (c : char) (s : str) : ~ In c s -> find c s = (-1)%Z.
Proof.
  intros H. unfold find. apply index_of_None in H. now rewrite H.
Qed.

Lemma rfind_not_in (c : char) (s : str) : ~ In c s -> rfind c s = (-1)%Z.
Proof.
  intros H. unfold rfind. apply last_index_of_None in H. now rewrite H.
Qed.

Lemma find_bounds (c : char) (s : str) : (-1 <= find c s)%Z.
Proof. unfold find. destruct (index_of c s); lia. Qed.

Lemma not_in_strip (c : char) (s : str) : ~ In c s -> ~ In c (strip s).
Proof. intros H. unfold strip. now apply not_in_rstrip, not_in_lstrip. Qed.

Lemma not_in_unfenced (c : char) (s : str) :
  ~ In c s ->
  ~ In c (if contains (py "```") s
          then re_sub re_fence [] (re_sub re_fence_json [] s) else s).
Proof.
  intros H. destruct (contains (py "```") s); [|exact H].
  intros Hin. now apply re_sub_delete_incl, re_sub_delete_incl in Hin.
Qed.

(** X3. A reply without an opening brace, or without a closing one, is
    cleaned to the empty object. *)
Theorem clean_json_response_without_braces (response : str) :
  ~ In (chr "{") response \/ ~ In (chr "}") response ->
  clean_json_response response = py "{}".
Proof.
  intros H. unfold clean_json_response.
  destruct response as [|c0 r0]; [reflexivity|].
  set (response := c0 :: r0) in *. cbv zeta.
  set (cleaned := if contains (py "```") (strip response) then _ else _).
  assert (Hc : forall c, ~ In c response -> ~ In c cleaned).
  { intros c Hn. subst cleaned.
    apply (not_in_unfenced c (strip response)). now apply not_in_strip. }
  destruct H as [H|H]; apply Hc in H.
  - rewrite (find_not_in _ _ H). reflexivity.
  - rewrite (rfind_not_in _ _ H).
    pose proof (find_bounds (chr "{") cleaned) as Hf.
    destruct (find (chr "{") cleaned =? -1)%Z eqn:E; [reflexivity|].
    apply Z.eqb_neq in E.
    replace (-1 + 1 >? find (chr "{") cleaned)%Z with false; [reflexivity|].
    symmetry. rewrite Z.gtb_ltb. apply Z.ltb_ge. lia.
Qed.

Lemma clean_json_response_without_braces_witness :
  clean_json_response (py "I cannot score this resume.") = py "{}".
Proof.
  apply clean_json_response_without_braces. left.
  vm_compute. intuition discriminate.
Defined.

Lemma hex_value_digit (n : N) : (n < 16)%N -> hex_value (hex_digit n) = Some n.
Proof.
  intros H. unfold hex_value, hex_digit.
  destruct (N.ltb_spec n 10).
  - replace ((48 <=? 48 + n) && (48 + n <=? 57))%N with true.
    + f_equal. lia.
    + symmetry. apply andb_true_iff. split; apply N.leb_le; lia.
  - replace ((48 <=? 87 + n) && (87 + n <=? 57))%N with false.
    + replace ((97 <=? 87 + n) && (87 + n <=? 102))%N with true.
      * f_equal. lia.
      * symmetry. apply andb_true_iff. split; apply N.leb_le; lia.
    + symmetry. apply andb_false_iff. right. apply N.leb_gt. lia.
Qed.

Lemma hex4_u_escape (c : N) :
  (c < 65536)%N ->
  hex4 (hex_digit (c / 4096 mod 16)) (hex_digit (c / 256 mod 16))
       (hex_digit (c / 16 mod 16)) (hex_digit (c mod 16)) = Some c.
Proof.
  intros H. unfold hex4.
  rewrite !hex_value_digit by (apply N.mod_lt; discriminate).
  f_equal.
  zify. Z.to_euclidean_division_equations. lia.
Qed.

Lemma scanstring_u_escape (c : N) (start : nat) (acc tail : str) :
  (c < 65536)%N -> is_high_surrogate c = false -> tail <> [] ->
  scanstring start acc (u_escape c ++ tail) = scanstring start (c :: acc) tail.
Proof.
  intros Hc Hs Ht. destruct tail as [|t0 tail]; [congruence|].
  unfold u_escape. cbn [app scanstring].
  change (92 =? 34)%N with false. change (92 =? 92)%N with true.
  change (117 =? 117)%N with true. cbv iota.
  rewrite (hex4_u_escape c Hc), Hs. cbn [andb].
  destruct tail as [|? [|? [|? [|? [|? [|? ?]]]]]]; reflexivity.
Qed.

Lemma scanstring_escape (c : char) (start : nat) (acc tail : str) :
  is_scalar c = true -> tail <> [] ->
  scanstring start acc (escape_char c ++ tail)
  = scanstring start (c :: acc) tail.
Proof.
  intros Hc Ht. unfold escape_char.
  destruct (N.eqb_spec c 34) as [->|H34]; [reflexivity|].
  destruct (N.eqb_spec c 92) as [->|H92]; [reflexivity|].
  destruct (N.eqb_spec c 10) as [->|H10]; [reflexivity|].
  destruct (N.eqb_spec c 13) as [->|H13]; [reflexivity|].
  destruct (N.eqb_spec c 9) as [->|H9]; [reflexivity|].
  destruct (N.eqb_spec c 12) as [->|H12]; [reflexivity|].
  destruct (N.eqb_spec c 8) as [->|H8]; [reflexivity|].
  destruct ((32 <=? c) && (c <=? 126))%N eqn:Hp.
  - apply andb_true_iff in Hp. destruct Hp as [Hl Hu].
    apply N.leb_le in Hl, Hu. cbn [app scanstring].
    replace (c =? 34)%N with false by (symmetry; now apply N.eqb_neq).
    replace (c =? 92)%N with false by (symmetry; now apply N.eqb_neq).
    replace (c <=? 31)%N with false by (symmetry; apply N.leb_gt; lia).
    reflexivity.
  - unfold is_scalar in Hc.
    destruct (N.ltb_spec c 65536) as [Hlt|Hge].
    + apply scanstring_u_escape; [exact Hlt| |exact Ht].
      unfold is_high_surrogate.
      apply orb_true_iff in Hc. destruct Hc as [Hc|Hc].
      * apply N.ltb_lt in Hc. apply andb_false_iff. left.
        apply N.leb_gt. lia.
      * apply andb_true_iff in Hc. destruct Hc as [Hc _].
        apply N.ltb_lt in Hc. apply andb_false_iff. right.
        apply N.leb_gt. lia.
    + assert (Hmax : (c < 1114112)%N).
      { apply orb_true_iff in Hc. destruct Hc as [Hc|Hc].
        - apply N.ltb_lt in Hc. lia.
        - apply andb_true_iff in Hc. destruct Hc as [_ Hc].
          now apply N.ltb_lt in Hc. }
      set (q := ((c - 65536) / 1024)%N).
      set (r := ((c - 65536) mod 1024)%N).
      assert (Hq : (q < 1024)%N).
      { apply N.Div0.div_lt_upper_bound. lia. }
      assert (Hr : (r < 1024)%N) by (apply N.mod_lt; discriminate).
      pose proof (N.div_mod (c - 65536) 1024 ltac:(discriminate)) as Hqr.
      fold q r in Hqr.
      destruct tail as [|t0 tail]; [congruence|].
      rewrite <- app_assoc.
      unfold u_escape at 1. cbn [app scanstring].
      change (92 =? 34)%N with false. change (92 =? 92)%N with true.
      change (117 =? 117)%N with true. cbv iota.
      rewrite (hex4_u_escape (55296 + q)) by lia.
      unfold u_escape. cbn [app].
      change (92 =? 92)%N with true. change (117 =? 117)%N with true.
      replace (is_high_surrogate (55296 + q)) with true.
      2:{ symmetry. apply andb_true_iff. split; apply N.leb_le; lia. }
      cbn [andb].
      rewrite (hex4_u_escape (56320 + r)) by lia.
      replace (is_low_surrogate (56320 + r)) with true.
      2:{ symmetry. apply andb_true_iff. split; apply N.leb_le; lia. }
      replace (join_surrogates (55296 + q) (56320 + r)) with c.
      2:{ unfold join_surrogates. lia. }
      reflexivity.
Qed.

Lemma scanstring_encoded (m : str) :
  forall start acc rest,
    well_formed m = true ->
    scanstring start acc (flat_map escape_char m ++ 34%N :: rest)
    = Scanned (rev acc ++ m) rest.
Proof.
  induction m as [|c m IH]; intros start acc rest Hm.
  - cbn [flat_map app scanstring]. change (34 =? 34)%N with true.
    now rewrite app_nil_r.
  - cbn [well_formed forallb] in Hm. apply andb_true_iff in Hm.
    destruct Hm as [Hc Hm].
    cbn [flat_map]. rewrite <- app_assoc.
    rewrite scanstring_escape.
    + rewrite (IH start (c :: acc) rest Hm). cbn [rev].
      now rewrite <- app_assoc.
    + exact Hc.
    + destruct (flat_map escape_char m); discriminate.
Qed.

Lemma json_dumps_error_text (m : str) :
  json_dumps_error m
  = pyq "{'error': '" ++ flat_map escape_char m ++ pyq "'}".
Proof.
  unfold json_dumps_error, encode_basestring_ascii.
  cbn [py pyq app]. rewrite <- !app_assoc. reflexivity.
Qed.

Lemma scan_error_object (f : nat) (x : str) (v : str) :
  (forall n, scanstring n [] x = Scanned v [125%N]) ->
  scan_once (S (S (S f))) (pyq "{'error': '" ++ x)
  = Scanned (JDict [(py "error", JStr v)]) [].
Proof.
  intros H.
  assert (K : forall n rest,
             scanstring n [] (py "error" ++ 34%N :: rest)
             = Scanned (py "error") rest) by reflexivity.
  cbv - [scanstring length]. cbv - [scanstring length] in K.
  rewrite K. cbv - [scanstring length]. rewrite H. reflexivity.
Qed.

Lemma json_loads_dumps (m : str) :
  well_formed m = true ->
  json_loads (json_dumps_error m) = inl (JDict [(py "error", JStr m)]).
Proof.
  intros Hm. unfold json_loads.
  remember (decode_fuel (json_dumps_error m)) as fuel eqn:Hf.
  assert (H3 : exists f, fuel = S (S (S f))).
  { subst fuel. unfold decode_fuel. rewrite json_dumps_error_text.
    rewrite length_app.
    change (length (pyq "{'error': '")) with 11.
    exists (2 * (9 + length (flat_map escape_char m ++ pyq "'}")) + 2). lia. }
  destruct H3 as [f ->]. clear Hf.
  rewrite json_dumps_error_text.
  change (startswith [65279%N] (pyq "{'error': '" ++ flat_map escape_char m ++
                                pyq "'}")) with false.
  change (skip_ws (pyq "{'error': '" ++ flat_map escape_char m ++ pyq "'}"))
    with (pyq "{'error': '" ++ flat_map escape_char m ++ pyq "'}").
  rewrite (scan_error_object f _ m).
  - reflexivity.
  - intros n. exact (scanstring_encoded m n [] [125%N] Hm).
Qed.

(** X4. Round trip of the error replies: what [json.dumps] writes for
    [{"error": msg}] is read back by [json.loads] as that same mapping,
    for every message of Unicode scalar values (a lone surrogate pair in
    the message would be read back as one character). *)
Theorem json_dumps_error_round_trip (msg : str) :
  well_formed msg = true ->
  json_loads (json_dumps_error msg) = inl (JDict [(py "error", JStr msg)]).
Proof. exact (json_loads_dumps msg). Qed.

Lemma json_dumps_error_round_trip_witness :
  well_formed AUTH_ERROR = true
  /\ json_loads (json_dumps_error AUTH_ERROR)
     = inl (JDict [(py "error", JStr AUTH_ERROR)]).
Proof.
  split; [reflexivity|].
  apply json_dumps_error_round_trip. reflexivity.
Defined.

Lemma json_dumps_error_braced (msg : str) : braced (json_dumps_error msg).
Proof.
  rewrite json_dumps_error_text.
  exists (pyq "'error': '" ++ flat_map escape_char msg ++ [34%N]).
  cbn [pyq py app]. rewrite <- !app_assoc. reflexivity.
Qed.

Lemma safe_json_parse_dumps (msg : str)
    (default : option (list (str * json))) :
  well_formed msg = true ->
  contains (py "```") (json_dumps_error msg) = false ->
  trailing_comma_free (json_dumps_error msg) = true ->
  safe_json_parse (json_dumps_error msg) default
  = JDict [(py "error", JStr msg)].
Proof.
  intros Hm Hf Hc. unfold safe_json_parse.
  rewrite (clean_json_response_on_clean _ (json_dumps_error_braced msg) Hf).
  rewrite (fix_commas_id _ Hc).
  now rewrite (json_loads_dumps msg Hm).
Qed.

(** X5. An error reply of [call_llm] survives the salvager: when its text
    holds no fence and no comma before a closing brace or bracket,
    [safe_json_parse] returns the mapping with the message under [error],
    and the default is not used. *)
Theorem safe_json_parse_reads_error_reply (msg : str)
    (default : option (list (str * json))) :
  well_formed msg = true ->
  contains (py "```") (json_dumps_error msg) = false ->
  trailing_comma_free (json_dumps_error msg) = true ->
  safe_json_parse (json_dumps_error msg) default
  = JDict [(py "error", JStr msg)].
Proof. exact (safe_json_parse_dumps msg default). Qed.

Lemma safe_json_parse_reads_error_reply_witness :
  safe_json_parse (json_dumps_error RATE_LIMIT_EXHAUSTED)
                  (Some [(py "score", JInt 0)])
  = JDict [(py "error", JStr RATE_LIMIT_EXHAUSTED)].
Proof.
  apply safe_json_parse_reads_error_reply; reflexivity.
Defined.

(* ================================================================= *)
(** ** More about [call_llm] *)










(** X7. One call of [call_llm] sends at most four requests, whatever the
    endpoint answers. *)
Theorem call_llm_at_most_four_requests (e : env) (prompt : str)
    (max_tokens : Z) (temperature : Q) (w : world) :
  posts_of (log (snd (call_llm e prompt max_tokens temperature w)))
  <= posts_of (log w) + 4.
Proof. exact (call_llm_bounded e prompt max_tokens temperature w). Qed.



(** X9. Without a [retry-after] header the waits after HTTP 429 follow the
    schedule 5, 15, 30, 60: a call that meets HTTP 429 four times sleeps
    110 seconds beyond the wait of the rate gate, and the last thing it does
    before giving up is the sleep of 60 seconds. *)
Theorem call_llm_sleeps_110_seconds_on_429 (e : env) (prompt : str)
    (max_tokens : Z) (temperature : Q) (w : world) :
  api_key e <> [] ->
  (forall n, exists r, result (endpoint e n) = PostResponse r
                       /\ status_code r = 429%Z /\ retry_after r = None) ->
  let run := call_llm e prompt max_tokens temperature w in
  fst run = Val (json_dumps_error RATE_LIMIT_EXHAUSTED)
  /\ (slept (log (snd run)) == slept (log (snd (rate_gate w))) + 110)%Q
  /\ exists before, log (snd run) = EvSleep 60 :: before.
Proof.
  intros Hkey Hall run. unfold run, call_llm.
  destruct (api_key e) as [|k ks]; [contradiction|].
  unfold bind.
  destruct (rate_gate_effect w) as (w1 & -> & _).
  cbn [snd]. simpl attempts. unfold bind.
  destruct (Hall 0) as (r0 & Hr0 & Hs0 & Hh0).
  destruct (Hall 1) as (r1 & Hr1 & Hs1 & Hh1).
  destruct (Hall 2) as (r2 & Hr2 & Hs2 & Hh2).
  destruct (Hall 3) as (r3 & Hr3 & Hs3 & Hh3).
  assert (W0 : wait_after_429 0 r0 = 5%Z)
    by (unfold wait_after_429; now rewrite Hh0).
  assert (W1 : wait_after_429 1 r1 = 15%Z)
    by (unfold wait_after_429; now rewrite Hh1).
  assert (W2 : wait_after_429 2 r2 = 30%Z)
    by (unfold wait_after_429; now rewrite Hh2).
  assert (W3 : wait_after_429 3 r3 = 60%Z)
    by (unfold wait_after_429; now rewrite Hh3).
  rewrite (attempt_body_429 _ _ _ _ _ Hr0 Hs0) by (rewrite W0; lia).
  rewrite (attempt_body_429 _ _ _ _ _ Hr1 Hs1) by (rewrite W1; lia).
  rewrite (attempt_body_429 _ _ _ _ _ Hr2 Hs2) by (rewrite W2; lia).
  rewrite (attempt_body_429 _ _ _ _ _ Hr3 Hs3) by (rewrite W3; lia).
  rewrite W0, W1, W2, W3.
  split; [reflexivity|]. split.
  - unfold ret. cbn [snd log after_sleep after_post after_send slept].
    change (inject_Z 5) with 5%Q. change (inject_Z 15) with 15%Q.
    change (inject_Z 30) with 30%Q. change (inject_Z 60) with 60%Q.
    ring.
  - eexists. reflexivity.
Qed.

Lemma call_llm_sleeps_110_seconds_on_429_witness :
  (slept (log (snd (call_llm rate_limited (py "Score this resume") 3000
                             (1 # 10) (initial_world 1000))))
   == slept (log (snd (rate_gate (initial_world 1000)))) + 110)%Q.
Proof.
  apply (call_llm_sleeps_110_seconds_on_429 rate_limited
           (py "Score this resume") 3000 (1 # 10) (initial_world 1000)).
  - discriminate.
  - intros n. eexists. repeat split; reflexivity.
Defined.

Lemma attempt_body_timeout (e : env) (p : payload) (attempt : nat)
    (w : world) (m : str) :
  result (endpoint e attempt) = PostTimeout m ->
  attempt_body e p attempt w
  = let sent := after_post (endpoint e attempt) p (after_send (now w) w) in
    if attempt <? max_retries - 1
    then (Val Continue, after_sleep 10 sent)
    else (Val (Return (json_dumps_error TIMEOUT_ERROR)), sent).
Proof.
  intros Hres.
  unfold attempt_body, try_except, attempt_try, bind, time_time,
    set_LAST_REQUEST_TIME, requests_post.
  rewrite Hres. unfold attempt_except.
  destruct (attempt <? max_retries - 1); reflexivity.
Qed.

Lemma call_llm_timeouts (e : env) (prompt : str) (max_tokens : Z)
    (temperature : Q) (w : world) :
  api_key e <> [] ->
  (forall n, exists m, result (endpoint e n) = PostTimeout m) ->
  let run := call_llm e prompt max_tokens temperature w in
  fst run = Val (json_dumps_error TIMEOUT_ERROR)
  /\ posts_of (log (snd run)) = posts_of (log w) + 4
  /\ (slept (log (snd run)) == slept (log (snd (rate_gate w))) + 30)%Q
  /\ exists p before, log (snd run) = EvPost p :: before.
Proof.
  intros Hkey Hall run. unfold run, call_llm.
  destruct (api_key e) as [|k ks]; [contradiction|].
  unfold bind.
  destruct (rate_gate_effect w) as (w1 & -> & _ & Hp & _).
  rewrite <- Hp. clear Hp. cbn [snd]. simpl attempts. unfold bind.
  destruct (Hall 0) as (m0 & Hr0). destruct (Hall 1) as (m1 & Hr1).
  destruct (Hall 2) as (m2 & Hr2). destruct (Hall 3) as (m3 & Hr3).
  rewrite (attempt_body_timeout _ _ _ _ _ Hr0).
  change (0 <? max_retries - 1) with true. cbv beta iota zeta.
  rewrite (attempt_body_timeout _ _ _ _ _ Hr1).
  change (1 <? max_retries - 1) with true. cbv beta iota zeta.
  rewrite (attempt_body_timeout _ _ _ _ _ Hr2).
  change (2 <? max_retries - 1) with true. cbv beta iota zeta.
  rewrite (attempt_body_timeout _ _ _ _ _ Hr3).
  change (3 <? max_retries - 1) with false. cbv beta iota zeta. unfold ret.
  split; [reflexivity|].
  cbn [snd log after_sleep after_post after_send slept posts_of].
  split; [lia|]. split; [ring|].
  eexists _, _. reflexivity.
Qed.

(** X10. An endpoint that times out at every attempt gets four requests
    with a sleep of ten seconds between them, 30 seconds in all beyond the
    wait of the rate gate; [call_llm] then returns the reply "Request
    timed out", and no sleep follows the last request. *)
Theorem call_llm_four_timeouts (e : env) (prompt : str) (max_tokens : Z)
    (temperature : Q) (w : world) :
  api_key e <> [] ->
  (forall n, exists m, result (endpoint e n) = PostTimeout m) ->
  let run := call_llm e prompt max_tokens temperature w in
  fst run = Val (json_dumps_error TIMEOUT_ERROR)
  /\ posts_of (log (snd run)) = posts_of (log w) + 4
  /\ (slept (log (snd run)) == slept (log (snd (rate_gate w))) + 30)%Q
  /\ exists p before, log (snd run) = EvPost p :: before.
Proof. exact (call_llm_timeouts e prompt max_tokens temperature w). Qed.

Lemma call_llm_four_timeouts_witness :
  fst (call_llm timing_out (py "Score this resume") 3000 (1 # 10)
                (initial_world 1000))
  = Val (json_dumps_error TIMEOUT_ERROR).
Proof.
  apply (call_llm_four_timeouts timing_out (py "Score this resume") 3000
           (1 # 10) (initial_world 1000)).
  - discriminate.
  - intros n. eexists. reflexivity.
Defined.

Lemma wait_after_429_le_90 (attempt : nat) (r : response) :
  (wait_after_429 attempt r <= 90)%Z.
Proof.
  unfold wait_after_429.
  assert (H : ((if (attempt <? length retry_delays)%nat
                then nth attempt retry_delays 0 else 60) <= 90)%Z).
  { destruct attempt as [|[|[|[|n]]]]; cbn; lia. }
  destruct (retry_after r) as [[|c h]|]; try exact H.
  destruct (py_int (c :: h)); [lia | exact H].
Qed.

Lemma attempt_except_slept (attempt : nat) (ex : exn) (w : world) :
  (slept (log (snd (attempt_except attempt ex w))) <= slept (log w) + 30)%Q.
Proof.
  assert (H0 : (slept (log w) <= slept (log w) + 30)%Q) by lra.
  destruct ex as [m|m|m|m|m|m|m]; unfold attempt_except; try exact H0.
  - destruct (attempt <? max_retries - 1); [|exact H0].
    cbn. lra.
  - destruct (contains (py "429") m || contains (py "Too Many Requests") m);
      [|exact H0].
    destruct (attempt <? max_retries - 1) eqn:Hlt; [|exact H0].
    apply Nat.ltb_lt in Hlt. cbn in Hlt.
    destruct attempt as [|[|[|n]]]; [| | |exfalso; lia];
      cbn; unfold inject_Z; lra.
Qed.

Lemma attempt_try_slept (e : env) (p : payload) (attempt : nat) (w : world) :
  slept (log (snd (attempt_try e p attempt w))) = slept (log w)
  \/ ((exists f, fst (attempt_try e p attempt w) = Val f)
      /\ (slept (log (snd (attempt_try e p attempt w)))
          <= slept (log w) + 90)%Q).
Proof.
  unfold attempt_try, bind, time_time, set_LAST_REQUEST_TIME, requests_post.
  destruct (result (endpoint e attempt)) as [m|m|r];
    [left; reflexivity | left; reflexivity |].
  destruct (status_code r =? 401)%Z; [left; reflexivity|].
  destruct (status_code r =? 429)%Z.
  - unfold time_sleep, ret.
    destruct (Qle_bool 0 (inject_Z (wait_after_429 attempt r))) eqn:Hs;
      [|left; reflexivity].
    right. split; [eexists; reflexivity|].
    cbn [snd log after_sleep after_post after_send slept].
    pose proof (inject_Z_ge _ _ (wait_after_429_le_90 attempt r)) as H.
    change (inject_Z 90) with 90%Q in H. lra.
  - destruct (read_reply_pure r) as (o & Ho & _). rewrite Ho.
    left. reflexivity.
Qed.

Lemma attempt_body_slept (e : env) (p : payload) (attempt : nat) (w : world) :
  (slept (log (snd (attempt_body e p attempt w))) <= slept (log w) + 90)%Q.
Proof.
  unfold attempt_body, try_except.
  pose proof (attempt_try_slept e p attempt w) as H.
  destruct (attempt_try e p attempt w) as [[f|ex] w1]; cbn [fst snd] in *.
  - destruct H as [-> | [_ H]]; [lra | exact H].
  - pose proof (attempt_except_slept attempt ex w1) as H1.
    destruct H as [<- | [[f Hf] _]]; [lra | discriminate].
Qed.

Lemma attempts_slept (e : env) (p : payload) (todo : list nat) :
  forall w,
    (slept (log (snd (attempts e p todo w)))
     <= slept (log w) + inject_Z (90 * Z.of_nat (length todo)))%Q.
Proof.
  induction todo as [|attempt todo IH]; intros w.
  - cbn. unfold inject_Z. lra.
  - simpl attempts. unfold bind.
    pose proof (attempt_body_slept e p attempt w) as H.
    assert (Hn : (inject_Z (90 * Z.of_nat (length (attempt :: todo)))
                  == 90 + inject_Z (90 * Z.of_nat (length todo)))%Q).
    { cbn [length]. rewrite Nat2Z.inj_succ. unfold Z.succ.
      rewrite Z.mul_add_distr_l, inject_Z_plus. cbn. ring. }
    assert (Hpos : (0 <= inject_Z (90 * Z.of_nat (length todo)))%Q).
    { change 0%Q with (inject_Z 0). rewrite <- Zle_Qle. lia. }
    destruct (attempt_body e p attempt w) as [[[|s]|ex] w1]; cbn [snd] in *.
    + specialize (IH w1). lra.
    + unfold ret. cbn [snd]. lra.
    + lra.
Qed.

(** X11. Beyond the wait of the rate gate, one call of [call_llm] sleeps
    six minutes at most, whatever the endpoint answers: at most one sleep
    per attempt, none of more than 90 seconds. *)
Theorem call_llm_sleeps_six_minutes_at_most (e : env) (prompt : str)
    (max_tokens : Z) (temperature : Q) (w : world) :
  api_key e <> [] ->
  (slept (log (snd (call_llm e prompt max_tokens temperature w)))
   <= slept (log (snd (rate_gate w))) + 360)%Q.
Proof.
  intros Hkey. unfold call_llm.
  destruct (api_key e) as [|k ks]; [contradiction|].
  unfold bind.
  destruct (rate_gate_effect w) as (w1 & -> & _). cbn [snd].
  exact (attempts_slept e _ (seq 0 max_retries) w1).
Qed.

Lemma call_llm_sleeps_six_minutes_at_most_witness :
  (slept (log (snd (call_llm rate_limited_7 (py "Score this resume") 3000
                             (1 # 10) (initial_world 1000))))
   <= slept (log (snd (rate_gate (initial_world 1000)))) + 360)%Q.
Proof.
  apply call_llm_sleeps_six_minutes_at_most. discriminate.
Defined.

(** X12. A first reply that is no HTTP error and whose body is a JSON
    object with a text at [choices[0].message.content] ends the call: one
    request, and the text is returned with the white space around it
    stripped. *)
Theorem call_llm_returns_stripped_content (e : env) (prompt : str)
    (max_tokens : Z) (temperature : Q) (w : world) (r : response)
    (body choice message : list (str * json)) (others : list json)
    (content : str) :
  api_key e <> [] ->
  result (endpoint e 0) = PostResponse r ->
  (status_code r < 400 \/ 600 <= status_code r)%Z ->
  json_loads (text r) = inl (JDict body) ->
  dict_get body (py "choices") = Some (JList (JDict choice :: others)) ->
  dict_get choice (py "message") = Some (JDict message) ->
  dict_get message (py "content") = Some (JStr content) ->
  let run := call_llm e prompt max_tokens temperature w in
  fst run = Val (strip content)
  /\ posts_of (log (snd run)) = S (posts_of (log w)).
Proof.
  intros Hkey Hres Hst Hbody Hch Hmsg Hc run. unfold run, call_llm.
  destruct (api_key e) as [|k ks]; [contradiction|].
  unfold bind.
  destruct (rate_gate_effect w) as (w1 & -> & _ & Hp & _).
  rewrite <- Hp. clear Hp. simpl attempts.
  unfold bind, attempt_body, try_except, attempt_try, bind, time_time,
    set_LAST_REQUEST_TIME, requests_post.
  rewrite Hres.
  replace (status_code r =? 401)%Z with false by (symmetry; apply Z.eqb_neq; lia).
  replace (status_code r =? 429)%Z with false by (symmetry; apply Z.eqb_neq; lia).
  unfold read_reply, raise_for_status, response_json, bind, lift, ret.
  replace ((400 <=? status_code r) && (status_code r <? 500))%Z with false
    by (symmetry; apply andb_false_iff; rewrite Z.leb_gt, Z.ltb_ge; lia).
  replace ((500 <=? status_code r) && (status_code r <? 600))%Z with false
    by (symmetry; apply andb_false_iff; rewrite Z.leb_gt, Z.ltb_ge; lia).
  rewrite Hbody. cbn [getitem_key]. rewrite Hch. cbn [getitem_0 getitem_key].
  rewrite Hmsg. cbn [getitem_key]. rewrite Hc. cbn [method_strip].
  split; reflexivity.
Qed.

Lemma call_llm_returns_stripped_content_witness :
  fst (call_llm answering (py "Score this resume") 3000 (1 # 10)
                (initial_world 1000))
  = Val (py "{}").
Proof.
  refine (proj1 (call_llm_returns_stripped_content answering
                   (py "Score this resume") 3000 (1 # 10) (initial_world 1000)
                   (mkResponse 200 [] None good_body)
                   _ _ _ _ (py " {} ") _ _ _ _ _ _ _)).
  - discriminate.
  - reflexivity.
  - left. reflexivity.
  - vm_compute. reflexivity.
  - reflexivity.
  - reflexivity.
  - reflexivity.
Defined.

Lemma raise_for_status_pure (r : response) (w : world) :
  raise_for_status r w = (raised_for_status r, w).
Proof.
  unfold raised_for_status, raise_for_status.
  destruct ((400 <=? status_code r) && (status_code r <? 500))%Z;
    [reflexivity|].
  destruct ((500 <=? status_code r) && (status_code r <? 600))%Z; reflexivity.
Qed.

(** X13. An HTTP error other than 401 and 429 is not retried: when the
    text of the error names neither "429" nor "Too Many Requests", the call
    ends after one request, without a sleep, with the reply
    "API request failed: " and that text. *)
Theorem call_llm_http_error_not_retried (e : env) (prompt : str)
    (max_tokens : Z) (temperature : Q) (w : world) (r : response)
    (error_str : str) :
  api_key e <> [] ->
  result (endpoint e 0) = PostResponse r ->
  status_code r <> 401%Z -> status_code r <> 429%Z ->
  raised_for_status r = Exc (RequestException error_str) ->
  contains (py "429") error_str = false ->
  contains (py "Too Many Requests") error_str = false ->
  let run := call_llm e prompt max_tokens temperature w in
  fst run = Val (json_dumps_error (py "API request failed: " ++ error_str))
  /\ posts_of (log (snd run)) = S (posts_of (log w))
  /\ slept (log (snd run)) = slept (log (snd (rate_gate w))).
Proof.
  intros Hkey Hres H401 H429 Hraise Hno1 Hno2 run. unfold run, call_llm.
  destruct (api_key e) as [|k ks]; [contradiction|].
  unfold bind.
  destruct (rate_gate_effect w) as (w1 & -> & _ & Hp & _).
  rewrite <- Hp. clear Hp. cbn [snd]. simpl attempts.
  unfold bind, attempt_body, try_except, attempt_try, bind, time_time,
    set_LAST_REQUEST_TIME, requests_post.
  rewrite Hres.
  replace (status_code r =? 401)%Z with false
    by (symmetry; now apply Z.eqb_neq).
  replace (status_code r =? 429)%Z with false
    by (symmetry; now apply Z.eqb_neq).
  unfold read_reply, bind. rewrite raise_for_status_pure, Hraise.
  unfold attempt_except. rewrite Hno1, Hno2. cbn [orb]. unfold ret.
  repeat split.
Qed.

Lemma call_llm_http_error_not_retried_witness :
  fst (call_llm unavailable (py "Score this resume") 3000 (1 # 10)
                (initial_world 1000))
  = Val (json_dumps_error
           (py "API request failed: 503 Server Error: Service Unavailable for url: https://api.groq.com/openai/v1/chat/completions")).
Proof.
  refine (proj1 (call_llm_http_error_not_retried unavailable
                   (py "Score this resume") 3000 (1 # 10) (initial_world 1000)
                   (mkResponse 503 (py "Service Unavailable") None [])
                   _ _ _ _ _ _ _ _)).
  - discriminate.
  - reflexivity.
  - discriminate.
  - discriminate.
  - reflexivity.
  - reflexivity.
  - reflexivity.
Defined.

(* ================================================================= *)
(** ** [initialize_llm] *)

(** X14. A key that does not start with [gsk_] (the empty key too) is
    refused with [ValueError] before any request is sent. *)
Theorem initialize_llm_checks_format_first (e : env) :
  startswith (py "gsk_") (api_key e) = false ->
  snd (initialize_llm e) = 0
  /\ exists msg, fst (initialize_llm e) = Exc (ValueError msg).
Proof.
  intros H. unfold initialize_llm.
  destruct (api_key e) as [|c k] eqn:Ek.
  - split; [reflexivity | eexists; reflexivity].
  - rewrite H. split; [reflexivity | eexists; reflexivity].
Qed.

Lemma initialize_llm_checks_format_first_witness :
  snd (initialize_llm (mkEnv (py "sk-test") None (fun _ => reply 200 None [])))
  = 0.
Proof.
  apply initialize_llm_checks_format_first. reflexivity.
Defined.

Lemma raised_for_status_cases (r : response) :
  raised_for_status r = Val tt
  \/ exists msg, raised_for_status r = Exc (RequestException msg).
Proof.
  unfold raised_for_status, raise_for_status.
  destruct ((400 <=? status_code r) && (status_code r <? 500))%Z;
    [right; eexists; reflexivity|].
  destruct ((500 <=? status_code r) && (status_code r <? 600))%Z;
    [right; eexists; reflexivity | left; reflexivity].
Qed.

Lemma initialize_except_cases (error_str : str) :
  initialize_except error_str = Val true
  \/ exists msg, initialize_except error_str = Exc (ValueError msg).
Proof.
  unfold initialize_except.
  destruct (contains (py "401") error_str);
    [right; eexists; reflexivity | left; reflexivity].
Qed.

(** X15. [initialize_llm] sends one request at most, and it ends in one of
    two ways: it returns [True] or it raises [ValueError].  It never
    returns [False], and no timeout or request error leaves it. *)
Theorem initialize_llm_true_or_ValueError (e : env) :
  snd (initialize_llm e) <= 1
  /\ (fst (initialize_llm e) = Val true
      \/ exists msg, fst (initialize_llm e) = Exc (ValueError msg)).
Proof.
  unfold initialize_llm.
  destruct (api_key e) as [|c k];
    [split; [cbn; lia | right; eexists; reflexivity]|].
  destruct (negb (startswith (py "gsk_") (c :: k)));
    [split; [cbn; lia | right; eexists; reflexivity]|].
  split; [cbn; lia|]. cbn [fst].
  destruct (result (endpoint e 0)) as [m|m|r];
    try apply initialize_except_cases.
  destruct (status_code r =? 401)%Z; [right; eexists; reflexivity|].
  destruct (raised_for_status_cases r) as [-> | [msg ->]];
    [left; reflexivity | apply initialize_except_cases].
Qed.

(** X16. A key that could not be verified is accepted: with a key of the
    right format, a test request that fails with a request exception
    (a timeout, a connection error, an HTTP error other than 401) whose
    text does not hold "401" makes [initialize_llm] return [True]. *)
Theorem initialize_llm_accepts_unverified_key (e : env) (msg : str) :
  startswith (py "gsk_") (api_key e) = true ->
  test_failed e msg ->
  contains (py "401") msg = false ->
  initialize_llm e = (Val true, 1).
Proof.
  intros Hk Hf Hm. unfold initialize_llm.
  destruct (api_key e) as [|c k]; [discriminate|]. rewrite Hk. cbn [negb].
  destruct Hf as [-> | [-> | (r & -> & H401 & Hr)]];
    try (unfold initialize_except; now rewrite Hm).
  replace (status_code r =? 401)%Z with false
    by (symmetry; now apply Z.eqb_neq).
  rewrite Hr. unfold initialize_except. now rewrite Hm.
Qed.

Lemma initialize_llm_accepts_unverified_key_witness :
  initialize_llm (offline (py "Connection refused")) = (Val true, 1).
Proof.
  apply (initialize_llm_accepts_unverified_key
           (offline (py "Connection refused")) (py "Connection refused")).
  - reflexivity.
  - right. left. reflexivity.
  - reflexivity.
Defined.

(** X17. Any failure of the test request whose text holds "401" is
    reported as a failed authentication, whatever the failure was. *)
Theorem initialize_llm_blames_key_for_401_text (e : env) (msg : str) :
  startswith (py "gsk_") (api_key e) = true ->
  test_failed e msg ->
  contains (py "401") msg = true ->
  initialize_llm e = (Exc (ValueError KEY_AUTH_FAILED), 1).
Proof.
  intros Hk Hf Hm. unfold initialize_llm.
  destruct (api_key e) as [|c k]; [discriminate|]. rewrite Hk. cbn [negb].
  destruct Hf as [-> | [-> | (r & -> & H401 & Hr)]];
    try (unfold initialize_except; now rewrite Hm).
  replace (status_code r =? 401)%Z with false
    by (symmetry; now apply Z.eqb_neq).
  rewrite Hr. unfold initialize_except. now rewrite Hm.
Qed.

Lemma initialize_llm_blames_key_for_401_text_witness :
  initialize_llm
    (offline (py "HTTPSConnection object at 0x7f2b44015d10: Failed to establish a new connection"))
  = (Exc (ValueError KEY_AUTH_FAILED), 1).
Proof.
  apply (initialize_llm_blames_key_for_401_text _
           (py "HTTPSConnection object at 0x7f2b44015d10: Failed to establish a new connection")).
  - reflexivity.
  - right. left. reflexivity.
  - reflexivity.
Defined.

(* ================================================================= *)
(** ** More about [pdf_utils] and the upload *)

Lemma lstrip_head (s : str) :
  match lstrip s with c :: _ => isspace c = false | [] => True end.
Proof.
  induction s as [|c s IH]; simpl; [exact I|].
  destruct (isspace c) eqn:E; [exact IH | exact E].
Qed.

Lemma strip_strip (s : str) : strip (strip s) = strip s.
Proof.
  unfold strip.
  assert (H : lstrip (rstrip (lstrip s)) = rstrip (lstrip s)).
  { apply lstrip_id. pose proof (lstrip_head s) as Hh.
    destruct (rstrip_prefix (lstrip s)) as [q Hq].
    destruct (rstrip (lstrip s)) as [|c r]; [exact I|].
    rewrite Hq in Hh. exact Hh. }
  rewrite H. unfold rstrip at 1 2. rewrite rev_involutive.
  rewrite (lstrip_id (lstrip _)) by apply lstrip_head. reflexivity.
Qed.

Lemma not_in_replace_char (a : char) (b s : str) :
  ~ In a b -> ~ In a (replace_char a b s).
Proof.
  intros Hb. unfold replace_char. rewrite in_flat_map.
  intros (x & _ & Hx). destruct (char_eqb x a) eqn:E; [auto|].
  destruct Hx as [->|[]]. apply char_eqb_neq in E. congruence.
Qed.

Lemma not_in_replace_char_other (c a : char) (b s : str) :
  ~ In c s -> ~ In c b -> ~ In c (replace_char a b s).
Proof.
  intros Hs Hb. unfold replace_char. rewrite in_flat_map.
  intros (x & Hx & Hc). destruct (char_eqb x a); [auto|].
  destruct Hc as [->|[]]. auto.
Qed.

(** X18. What [clean_text] returns holds no NUL and no form feed, and no
    white space at either end. *)
Theorem clean_text_is_tidy (text : str) :
  ~ In 0%N (clean_text text)
  /\ ~ In 12%N (clean_text text)
  /\ strip (clean_text text) = clean_text text.
Proof.
  unfold clean_text. destruct text as [|c0 t0]; [repeat split; auto|].
  set (t := re_sub re_spaces [32%N] _).
  repeat split.
  - apply not_in_strip. apply not_in_replace_char_other.
    + apply not_in_replace_char. auto.
    + intros [H|[]]. discriminate.
  - apply not_in_strip. apply not_in_replace_char.
    intros [H|[]]. discriminate.
  - apply strip_strip.
Qed.

Lemma re_sub_incl (pattern : str -> option nat) (repl s : str) (x : char) :
  In x (re_sub pattern repl s) -> In x s \/ In x repl.
Proof.
  apply (re_sub_ind pattern repl
           (fun s out => In x out -> In x s \/ In x repl)).
  - auto.
  - intros c rest _ IH [->|H]; [left; now left|].
    destruct (IH H); [left; now right | now right].
  - intros c rest _ IH H. apply in_app_or in H.
    destruct H as [H|[->|H]]; [now right | left; now left|].
    destruct (IH H); [left; now right | now right].
  - intros c rest k _ IH H. apply in_app_or in H.
    destruct H as [H|H]; [now right|].
    destruct (IH H) as [H1|H1]; [|now right].
    left. right. rewrite <- (firstn_skipn k rest). apply in_or_app. now right.
Qed.

Lemma count_spaces_skipn (s : str) :
  startswith [32%N] (skipn (count_spaces s) s) = false.
Proof.
  induction s as [|c s IH]; [reflexivity|]. cbn [count_spaces].
  destruct (N.eqb_spec c 32) as [->|Hc]; [exact IH|].
  cbn. replace (char_eqb 32 c) with false; [reflexivity|].
  symmetry. apply char_eqb_neq. congruence.
Qed.

Lemma double_space_cons (c : char) (s : str) :
  contains [32; 32]%N (c :: s)
  = (char_eqb 32 c && startswith [32%N] s) || contains [32; 32]%N s.
Proof.
  rewrite contains_cons. reflexivity.
Qed.

Lemma re_spaces_single (s : str) :
  contains [32; 32]%N (re_sub re_spaces [32%N] s) = false
  /\ (startswith [32%N] (re_sub re_spaces [32%N] s) = true ->
      startswith [32%N] s = true).
Proof.
  apply (re_sub_ind re_spaces [32%N]
           (fun s out => contains [32; 32]%N out = false
                         /\ (startswith [32%N] out = true ->
                             startswith [32%N] s = true))).
  - split; [reflexivity | auto].
  - intros c rest Hp [IH1 IH2]. split; [|auto].
    rewrite double_space_cons, IH1.
    unfold re_spaces in Hp. cbn [count_spaces] in Hp.
    destruct (N.eqb_spec c 32) as [->|Hc]; [discriminate|].
    replace (char_eqb 32 c) with false; [reflexivity|].
    symmetry. apply char_eqb_neq. congruence.
  - intros c rest Hp _. exfalso. unfold re_spaces in Hp.
    destruct (count_spaces (c :: rest)); discriminate.
  - intros c rest k Hp [IH1 IH2].
    unfold re_spaces in Hp. cbn [count_spaces] in Hp.
    destruct (N.eqb_spec c 32) as [->|Hc]; [|discriminate].
    injection Hp as <-. split; [|reflexivity].
    cbn [app]. rewrite double_space_cons, IH1.
    destruct (startswith [32%N]
                (re_sub re_spaces [32%N] (skipn (count_spaces rest) rest)))
      eqn:E; [|reflexivity].
    specialize (IH2 eq_refl). now rewrite count_spaces_skipn in IH2.
Qed.

Lemma replace_char_map (a x : char) (s : str) :
  replace_char a [x] s = map (fun c => if char_eqb c a then x else c) s.
Proof.
  unfold replace_char. induction s as [|c s IH]; [reflexivity|].
  cbn [flat_map map]. rewrite IH. now destruct (char_eqb c a).
Qed.

Lemma double_space_map (f : char -> char) (s : str) :
  (forall c, f c = 32%N -> c = 32%N) ->
  contains [32; 32]%N s = false -> contains [32; 32]%N (map f s) = false.
Proof.
  intros Hf. induction s as [|c s IH]; [reflexivity|].
  cbn [map]. rewrite !double_space_cons.
  intros H. apply orb_false_iff in H. destruct H as [H1 H2].
  rewrite (IH H2), orb_false_r.
  destruct (char_eqb 32 (f c)) eqn:E; [|reflexivity].
  apply char_eqb_eq in E. symmetry in E. apply Hf in E. subst c.
  rewrite char_eqb_refl in H1. cbn [andb] in *.
  destruct s as [|d s]; [reflexivity|]. cbn [map startswith] in *.
  rewrite andb_true_r in *.
  destruct (char_eqb 32 (f d)) eqn:E2; [|reflexivity].
  apply char_eqb_eq in E2. symmetry in E2. apply Hf in E2. subst d.
  now rewrite char_eqb_refl in H1.
Qed.

Lemma replace_char_absent (a : char) (b s : str) :
  ~ In a s -> replace_char a b s = s.
Proof.
  unfold replace_char. induction s as [|c s IH]; intros H; [reflexivity|].
  cbn [flat_map]. replace (char_eqb c a) with false.
  - cbn [app]. f_equal. apply IH. intros Hin. apply H. now right.
  - symmetry. apply char_eqb_neq. intros ->. apply H. now left.
Qed.

Lemma contains_strip (p s : str) :
  contains p s = false -> contains p (strip s) = false.
Proof.
  intros H. unfold strip.
  destruct (lstrip_suffix s) as [a Ha].
  assert (H1 : contains p (lstrip s) = false).
  { replace (lstrip s) with (skipn (length a) s); [now apply contains_skipn|].
    rewrite Ha at 1. rewrite skipn_app, skipn_all, Nat.sub_diag. reflexivity. }
  destruct (rstrip_prefix (lstrip s)) as [b Hb].
  replace (rstrip (lstrip s))
    with (firstn (length (rstrip (lstrip s))) (lstrip s));
    [now apply contains_firstn|].
  rewrite Hb at 2. rewrite firstn_app, firstn_all, Nat.sub_diag.
  cbn [firstn]. now rewrite app_nil_r.
Qed.

(** X19. A text without NUL characters comes out of [clean_text] without
    two spaces in a row.  (NUL characters are removed after the runs of
    spaces are reduced, so spaces on both sides of one would meet.) *)
Theorem clean_text_leaves_single_spaces (text : str) :
  ~ In 0%N text ->
  contains (py "  ") (clean_text text) = false.
Proof.
  intros H0. unfold clean_text. destruct text as [|c0 t0]; [reflexivity|].
  set (text := c0 :: t0) in *.
  apply contains_strip.
  rewrite (replace_char_absent 0).
  - rewrite replace_char_map. apply double_space_map.
    + intros c. destruct (char_eqb c 12) eqn:E; [discriminate | auto].
    + apply re_spaces_single.
  - intros Hin. apply re_sub_incl in Hin.
    destruct Hin as [Hin|[Hin|[]]]; [|discriminate].
    apply re_sub_incl in Hin.
    destruct Hin as [Hin|[Hin|[Hin|[]]]]; [auto | discriminate | discriminate].
Qed.

Lemma clean_text_leaves_single_spaces_witness :
  contains (py "  ") (clean_text (py "Senior   Engineer    at  ACME")) = false.
Proof.
  apply clean_text_leaves_single_spaces.
  vm_compute. intuition discriminate.
Defined.

Lemma txt_is_no_other_type (s : str) :
  endswith (py ".txt") s = true ->
  endswith (py ".pdf") s = false /\ endswith (py ".docx") s = false.
Proof.
  unfold endswith. intros H. apply startswith_spec in H as [r Hr].
  rewrite Hr. split; reflexivity.
Qed.

(** X20. A [.txt] upload in UTF-8 is handed on as it was decoded, without
    cleaning; but a text that is empty or starts with "Error" or
    "Could not" is taken for a failed extraction and the default text is
    returned in its place. *)
Theorem handle_file_upload_of_text_file (L : libraries) (f : file)
    (name : str) (b : list N) (s text_area default_text : str) :
  endswith (py ".txt") (lower name) = true ->
  read f = inl (Bytes b) ->
  utf8_decode b = Some s ->
  handle_file_upload L UploadFile (Some (f, name)) text_area default_text
  = if flagged_as_failure s then default_text else s.
Proof.
  intros Hn Hr Hd.
  rewrite handle_file_upload_test.
  replace (extract_text_from_file L (Some f) name) with s; [reflexivity|].
  unfold extract_text_from_file.
  destruct (txt_is_no_other_type _ Hn) as [-> ->]. rewrite Hn.
  unfold extract_text_from_txt. now rewrite Hr, Hd.
Qed.

Lemma handle_file_upload_of_text_file_witness :
  handle_file_upload no_libraries UploadFile (Some (error_log, py "cv.TXT"))
                     [] (py "default resume")
  = py "default resume".
Proof.
  apply (handle_file_upload_of_text_file no_libraries error_log (py "cv.TXT")
           (py "Error budgets and SLOs: 5 years of experience")
           (py "Error budgets and SLOs: 5 years of experience")).
  - reflexivity.
  - reflexivity.
  - reflexivity.
Defined.

Lemma add_pages_app (text : str) (pages : list (option str)) :
  add_pages text pages = text ++ add_pages [] pages.
Proof.
  revert text. induction pages as [|[[|c p]|] rest IH]; intros text;
    cbn [add_pages].
  - now rewrite app_nil_r.
  - apply IH.
  - rewrite IH. cbn [app]. rewrite (IH (c :: _)).
    now rewrite <- !app_assoc.
  - apply IH.
Qed.

(** X21. What a PDF library read before it failed is kept: when pdfplumber
    raises after some pages and PyPDF2 then reads the file, the result is
    the cleaned text of pdfplumber's pages followed by PyPDF2's pages. *)
Theorem extract_text_from_pdf_keeps_partial_text (L : libraries) (f : file)
    (file_bytes : content) (plumber reader : content -> pdf_run)
    (msg : str) :
  read f = inl file_bytes ->
  pdfplumber L = Some plumber ->
  raised (plumber file_bytes) = Some msg ->
  PyPDF2 L = Some reader ->
  raised (reader file_bytes) = None ->
  let text := add_pages [] (pages (plumber file_bytes))
              ++ add_pages [] (pages (reader file_bytes)) in
  strip text <> [] ->
  extract_text_from_pdf L f = clean_text text.
Proof.
  intros Hr Hp Hpr Hq Hqr text Hs.
  unfold extract_text_from_pdf, pdf_attempt.
  rewrite Hr, Hp, Hpr, Hq, Hqr.
  rewrite (add_pages_app (add_pages [] _)). fold text.
  destruct (strip text); [contradiction | reflexivity].
Qed.

Lemma extract_text_from_pdf_keeps_partial_text_witness :
  extract_text_from_pdf failing_then_reading some_upload
  = [80; 97; 103; 101; 32; 111; 110; 101; 10;
     80; 97; 103; 101; 32; 111; 110; 101; 10;
     80; 97; 103; 101; 32; 116; 119; 111]%N.
Proof.
  rewrite (extract_text_from_pdf_keeps_partial_text failing_then_reading
             some_upload (Bytes [80; 75; 3; 4]%N)
             (fun _ => mkPdfRun [Some (py "Page one")] (Some (py "bad xref")))
             (fun _ => mkPdfRun [Some (py "Page one"); Some (py "Page two")]
                                None)
             (py "bad xref")).
  - reflexivity.
  - reflexivity.
  - reflexivity.
  - reflexivity.
  - reflexivity.
  - reflexivity.
  - vm_compute. discriminate.
Defined.

(* ================================================================= *)
(** ** The analysis functions *)

Lemma str_eqb_eq (a b : str) : str_eqb a b = true <-> a = b.
Proof.
  revert b. induction a as [|x a IH]; intros [|y b]; cbn [str_eqb];
    try (split; [discriminate | discriminate]); [tauto|].
  rewrite andb_true_iff, char_eqb_eq, IH. split.
  - intros [-> ->]. reflexivity.
  - intros [= -> ->]. auto.
Qed.

Lemma str_eqb_refl (a : str) : str_eqb a a = true.
Proof. now apply str_eqb_eq. Qed.

Lemma dict_get_set_same (d : list (str * json)) (k : str) (v : json) :
  dict_get (dict_set d k v) k = Some v.
Proof.
  induction d as [|[k' v'] d IH]; cbn [dict_set dict_get].
  - now rewrite str_eqb_refl.
  - destruct (str_eqb k' k) eqn:E; cbn [dict_get].
    + now rewrite str_eqb_refl.
    + now rewrite E.
Qed.

Lemma dict_get_set_other (d : list (str * json)) (k j : str) (v : json) :
  k <> j -> dict_get (dict_set d k v) j = dict_get d j.
Proof.
  intros Hkj.
  assert (Hk : str_eqb k j = false).
  { destruct (str_eqb k j) eqn:E; [|reflexivity].
    apply str_eqb_eq in E. contradiction. }
  induction d as [|[k' v'] d IH]; cbn [dict_set dict_get].
  - now rewrite Hk.
  - destruct (str_eqb k' k) eqn:E; cbn [dict_get].
    + apply str_eqb_eq in E. subst k'. now rewrite Hk.
    + now rewrite IH.
Qed.

Lemma set_grade_mapping (d ms : list (str * json)) (r g : str) :
  dict_get d (py "match_summary") = Some (JDict ms) ->
  set_grade (JDict d) r g
  = Val (JDict (dict_set d (py "match_summary")
                  (JDict (dict_set (dict_set ms (py "recommendation") (JStr r))
                                   (py "grade") (JStr g))))).
Proof.
  intros H. unfold set_grade. cbn [getitem_key]. rewrite H. reflexivity.
Qed.

Lemma graded_paths (d ms : list (str * json)) (r g : str) :
  let v := JDict (dict_set d (py "match_summary")
                    (JDict (dict_set (dict_set ms (py "recommendation")
                                               (JStr r))
                                     (py "grade") (JStr g)))) in
  at_path v (py "match_summary") (py "recommendation") = Some (JStr r)
  /\ at_path v (py "match_summary") (py "grade") = Some (JStr g).
Proof.
  cbv zeta. unfold at_path. rewrite dict_get_set_same. split.
  - rewrite dict_get_set_other by discriminate. apply dict_get_set_same.
  - apply dict_get_set_same.
Qed.

Lemma ensure_consistent_grades_integer (d ms : list (str * json)) (n : Z) :
  dict_get d (py "match_summary") = Some (JDict ms) ->
  set_grade (JDict d) (fst (grade_table n)) (snd (grade_table n))
  = (a <~ score_ge (JInt n) 85 ;;
     if a then set_grade (JDict d) (py "STRONGLY RECOMMEND") (py "A")
     else
       b <~ score_ge (JInt n) 75 ;;
       if b then set_grade (JDict d) (py "RECOMMEND") (py "B+")
       else
         c <~ score_ge (JInt n) 65 ;;
         if c then set_grade (JDict d) (py "CONSIDER") (py "B")
         else
           x <~ score_ge (JInt n) 55 ;;
           if x
           then set_grade (JDict d) (py "CONSIDER WITH RESERVATIONS") (py "C")
           else set_grade (JDict d) (py "NOT RECOMMENDED") (py "D")).
Proof.
  intros _. unfold grade_table. cbn [score_ge obind].
  destruct (85 <=? n)%Z; [reflexivity|].
  destruct (75 <=? n)%Z; [reflexivity|].
  destruct (65 <=? n)%Z; [reflexivity|].
  destruct (55 <=? n)%Z; reflexivity.
Qed.

Lemma calculate_match_score_graded (PROMPT : str -> str -> str)
    (e : env) (jd_text resume_text : str) (w w' : world) (response : str)
    (d ms : list (str * json)) (raw : json) (n : Z) :
  call_llm e (PROMPT jd_text resume_text) 3500 (1 # 10) w
  = (Val response, w') ->
  safe_json_parse response None = JDict d ->
  dict_get d (py "match_summary") = Some (JDict ms) ->
  method_get (JDict ms) (py "overall_score") (JInt 0) = Val raw ->
  match raw with
  | JStr s =>
      match py_int_text (replace_char (chr "%") [] s) with
      | Some n => JInt n
      | None => JInt 70
      end
  | _ => raw
  end = JInt n ->
  let v := JDict (dict_set d (py "match_summary")
                    (JDict (dict_set
                              (dict_set ms (py "recommendation")
                                        (JStr (fst (grade_table n))))
                              (py "grade") (JStr (snd (grade_table n)))))) in
  calculate_match_score_detailed PROMPT e jd_text resume_text w = (Val v, w')
  /\ at_path v (py "match_summary") (py "recommendation")
     = Some (JStr (fst (grade_table n)))
  /\ at_path v (py "match_summary") (py "grade")
     = Some (JStr (snd (grade_table n))).
Proof.
  intros Hcall Hparse Hms Hscore Hn v. split; [|apply graded_paths].
  unfold calculate_match_score_detailed, bind, lift. rewrite Hcall, Hparse.
  unfold ensure_consistent_grades. cbn [py_in obind]. rewrite Hms.
  cbn [getitem_key obind]. rewrite Hms. cbn [obind]. rewrite Hscore.
  cbn [obind]. rewrite Hn.
  rewrite <- (ensure_consistent_grades_integer d ms n Hms).
  now rewrite (set_grade_mapping d ms _ _ Hms).
Qed.

(** X22. The grade and the recommendation of a match result follow from the
    score alone: with an integer [overall_score] (0 where the reply has
    none), [calculate_match_score_detailed] overwrites whatever the model
    wrote for them by the entry of the table 85/75/65/55, and leaves the
    rest of the result as it was. *)
Theorem match_grade_follows_integer_score (PROMPT : str -> str -> str)
    (e : env) (jd_text resume_text : str) (w w' : world) (response : str)
    (d ms : list (str * json)) (n : Z) :
  call_llm e (PROMPT jd_text resume_text) 3500 (1 # 10) w
  = (Val response, w') ->
  safe_json_parse response None = JDict d ->
  dict_get d (py "match_summary") = Some (JDict ms) ->
  method_get (JDict ms) (py "overall_score") (JInt 0) = Val (JInt n) ->
  let v := JDict (dict_set d (py "match_summary")
                    (JDict (dict_set
                              (dict_set ms (py "recommendation")
                                        (JStr (fst (grade_table n))))
                              (py "grade") (JStr (snd (grade_table n)))))) in
  calculate_match_score_detailed PROMPT e jd_text resume_text w = (Val v, w')
  /\ at_path v (py "match_summary") (py "recommendation")
     = Some (JStr (fst (grade_table n)))
  /\ at_path v (py "match_summary") (py "grade")
     = Some (JStr (snd (grade_table n))).
Proof.
  intros Hcall Hparse Hms Hscore.
  now apply (calculate_match_score_graded PROMPT e jd_text resume_text w w'
               response d ms (JInt n) n).
Qed.

Lemma match_grade_follows_integer_score_witness :
  fst (calculate_match_score_detailed no_prompt2
         (replying "{'match_summary': {'overall_score': 82, 'grade': 'A'}}")
         (py "jd") (py "cv") (initial_world 1000))
  = Val (JDict [(py "match_summary",
                 JDict [(py "overall_score", JInt 82);
                        (py "grade", JStr (py "B+"));
                        (py "recommendation", JStr (py "RECOMMEND"))])]).
Proof.
  destruct (match_grade_follows_integer_score no_prompt2
              (replying "{'match_summary': {'overall_score': 82, 'grade': 'A'}}")
              (py "jd") (py "cv") (initial_world 1000)
              (snd (call_llm
                      (replying "{'match_summary': {'overall_score': 82, 'grade': 'A'}}")
                      (no_prompt2 (py "jd") (py "cv")) 3500 (1 # 10)
                      (initial_world 1000)))
              (pyq "{'match_summary': {'overall_score': 82, 'grade': 'A'}}")
              [(py "match_summary",
                JDict [(py "overall_score", JInt 82);
                       (py "grade", JStr (py "A"))])]
              [(py "overall_score", JInt 82); (py "grade", JStr (py "A"))]
              82%Z) as (H & _).
  - vm_compute. reflexivity.
  - vm_compute. reflexivity.
  - reflexivity.
  - reflexivity.
  - rewrite H. reflexivity.
Defined.

(** X23. A score written as text is read with [int] after the percent
    signs are removed, and a text [int] refuses counts as 70: the grade and
    the recommendation are those of that number. *)
Theorem match_grade_follows_text_score (PROMPT : str -> str -> str)
    (e : env) (jd_text resume_text : str) (w w' : world) (response : str)
    (d ms : list (str * json)) (score : str) :
  call_llm e (PROMPT jd_text resume_text) 3500 (1 # 10) w
  = (Val response, w') ->
  safe_json_parse response None = JDict d ->
  dict_get d (py "match_summary") = Some (JDict ms) ->
  dict_get ms (py "overall_score") = Some (JStr score) ->
  let n := match py_int_text (replace_char (chr "%") [] score) with
           | Some n => n
           | None => 70%Z
           end in
  let v := JDict (dict_set d (py "match_summary")
                    (JDict (dict_set
                              (dict_set ms (py "recommendation")
                                        (JStr (fst (grade_table n))))
                              (py "grade") (JStr (snd (grade_table n)))))) in
  calculate_match_score_detailed PROMPT e jd_text resume_text w = (Val v, w')
  /\ at_path v (py "match_summary") (py "recommendation")
     = Some (JStr (fst (grade_table n)))
  /\ at_path v (py "match_summary") (py "grade")
     = Some (JStr (snd (grade_table n))).
Proof.
  intros Hcall Hparse Hms Hscore n.
  apply (calculate_match_score_graded PROMPT e jd_text resume_text w w'
           response d ms (JStr score) n Hcall Hparse Hms).
  - cbn [method_get]. now rewrite Hscore.
  - unfold n. now destruct (py_int_text _).
Qed.

Lemma match_grade_follows_text_score_witness :
  fst (calculate_match_score_detailed no_prompt2
         (replying "{'match_summary': {'overall_score': '85%'}}")
         (py "jd") (py "cv") (initial_world 1000))
  = Val (JDict [(py "match_summary",
                 JDict [(py "overall_score", JStr (py "85%"));
                        (py "recommendation", JStr (py "STRONGLY RECOMMEND"));
                        (py "grade", JStr (py "A"))])]).
Proof.
  destruct (match_grade_follows_text_score no_prompt2
              (replying "{'match_summary': {'overall_score': '85%'}}")
              (py "jd") (py "cv") (initial_world 1000)
              (snd (call_llm
                      (replying "{'match_summary': {'overall_score': '85%'}}")
                      (no_prompt2 (py "jd") (py "cv")) 3500 (1 # 10)
                      (initial_world 1000)))
              (pyq "{'match_summary': {'overall_score': '85%'}}")
              [(py "match_summary",
                JDict [(py "overall_score", JStr (py "85%"))])]
              [(py "overall_score", JStr (py "85%"))]
              (py "85%")) as (H & _).
  - vm_compute. reflexivity.
  - vm_compute. reflexivity.
  - reflexivity.
  - reflexivity.
  - rewrite H. reflexivity.
Defined.

(** X24. A score that is neither a number nor a text stops the function:
    with [null], a list or an object at [overall_score] the comparison
    with 85 raises [TypeError], which [calculate_match_score_detailed]
    does not catch. *)
Theorem match_score_of_wrong_type_raises (PROMPT : str -> str -> str)
    (e : env) (jd_text resume_text : str) (w w' : world) (response : str)
    (d ms : list (str * json)) (score : json) :
  call_llm e (PROMPT jd_text resume_text) 3500 (1 # 10) w
  = (Val response, w') ->
  safe_json_parse response None = JDict d ->
  dict_get d (py "match_summary") = Some (JDict ms) ->
  dict_get ms (py "overall_score") = Some score ->
  match score with JNull | JList _ | JDict _ => True | _ => False end ->
  calculate_match_score_detailed PROMPT e jd_text resume_text w
  = (Exc (TypeError (py "'>=' not supported between instances of '"
                     ++ type_name score ++ py "' and 'int'")), w').
Proof.
  intros Hcall Hparse Hms Hscore Hty.
  unfold calculate_match_score_detailed, bind, lift. rewrite Hcall, Hparse.
  unfold ensure_consistent_grades. cbn [py_in obind]. rewrite Hms.
  cbn [getitem_key obind]. rewrite Hms. cbn [obind method_get].
  rewrite Hscore.
  destruct score; try contradiction; reflexivity.
Qed.

Lemma match_score_of_wrong_type_raises_witness :
  fst (calculate_match_score_detailed no_prompt2
         (replying "{'match_summary': {'overall_score': null}}")
         (py "jd") (py "cv") (initial_world 1000))
  = Exc (TypeError
           (py "'>=' not supported between instances of 'NoneType' and 'int'")).
Proof.
  rewrite (match_score_of_wrong_type_raises no_prompt2
             (replying "{'match_summary': {'overall_score': null}}")
             (py "jd") (py "cv") (initial_world 1000)
             (snd (call_llm
                     (replying "{'match_summary': {'overall_score': null}}")
                     (no_prompt2 (py "jd") (py "cv")) 3500 (1 # 10)
                     (initial_world 1000)))
             (pyq "{'match_summary': {'overall_score': null}}")
             [(py "match_summary", JDict [(py "overall_score", JNull)])]
             [(py "overall_score", JNull)] JNull).
  - reflexivity.
  - vm_compute. reflexivity.
  - vm_compute. reflexivity.
  - reflexivity.
  - reflexivity.
  - exact I.
Defined.

Lemma fst_bind {A B : Type} (m : M A) (k : A -> M B) (w : world) (a : A) :
  fst (m w) = Val a -> (x <- m ;; k x) w = k a (snd (m w)).
Proof. unfold bind. destruct (m w) as [[a'|ex] w1]; now intros [= ->]. Qed.

(** X25. An error reply of [call_llm] passes through the analysis
    functions as it is: where the call ends with the reply
    [{"error": msg}], each of them returns that mapping (for a message
    the salvager leaves alone). *)
Theorem analysis_returns_error_reply (e : env) (w : world) (msg : str)
    (P1 : str -> str) (P2 : str -> str -> str) (jd_text resume_text : str) :
  (forall prompt max_tokens temperature,
      fst (call_llm e prompt max_tokens temperature w)
      = Val (json_dumps_error msg)) ->
  well_formed msg = true ->
  contains (py "```") (json_dumps_error msg) = false ->
  trailing_comma_free (json_dumps_error msg) = true ->
  let failure := Val (JDict [(py "error", JStr msg)]) in
  fst (parse_resume_detailed P1 e resume_text w) = failure
  /\ fst (parse_job_description_detailed P1 e jd_text w) = failure
  /\ fst (calculate_match_score_detailed P2 e jd_text resume_text w) = failure
  /\ fst (recommend_salary_detailed P2 e jd_text resume_text w) = failure.
Proof.
  intros Hcall Hm Hf Hc failure.
  pose proof (safe_json_parse_dumps msg None Hm Hf Hc) as Hp.
  unfold parse_resume_detailed, parse_job_description_detailed,
    calculate_match_score_detailed, recommend_salary_detailed.
  repeat split.
  - rewrite (fst_bind _ _ _ _ (Hcall _ _ _)). unfold ret. cbn [fst].
    now rewrite Hp.
  - rewrite (fst_bind _ _ _ _ (Hcall _ _ _)). unfold ret. cbn [fst].
    now rewrite Hp.
  - rewrite (fst_bind _ _ _ _ (Hcall _ _ _)). unfold lift. cbn [fst].
    now rewrite Hp.
  - rewrite (fst_bind _ _ _ _ (Hcall _ _ _)). unfold lift. cbn [fst].
    now rewrite Hp.
Qed.

Lemma analysis_returns_error_reply_witness :
  fst (calculate_match_score_detailed no_prompt2 timing_out (py "jd")
         (py "cv") (initial_world 1000))
  = Val (JDict [(py "error", JStr TIMEOUT_ERROR)]).
Proof.
  refine (proj1 (proj2 (proj2
            (analysis_returns_error_reply timing_out (initial_world 1000)
               TIMEOUT_ERROR no_prompt1 no_prompt2 (py "jd") (py "cv")
               _ _ _ _)))).
  - intros prompt max_tokens temperature.
    apply (call_llm_timeouts timing_out prompt max_tokens temperature).
    + discriminate.
    + intros n. eexists. reflexivity.
  - reflexivity.
  - reflexivity.
  - reflexivity.
Defined.

(** X26. [recommend_salary_detailed] never hands on the mapping of a failed
    salvage: what it returns is a mapping, and it never holds both [error]
    and [raw]. *)
Theorem recommend_salary_never_returns_raw_reply
    (PROMPT : str -> str -> str) (e : env) (jd_text resume_text : str)
    (w : world) (v : json) :
  fst (recommend_salary_detailed PROMPT e jd_text resume_text w) = Val v ->
  is_mapping v
  /\ holds_key (py "error") v && holds_key (py "raw") v = false.
Proof.
  unfold recommend_salary_detailed, bind, lift.
  destruct (call_llm e (PROMPT jd_text resume_text) 2500 (1 # 10) w)
    as [[response|ex] w1]; [|discriminate].
  destruct (safe_json_parse_mapping response None) as [d ->].
  cbn [py_in obind fst holds_key].
  destruct (dict_get d (py "error")) as [x|] eqn:Ee; cbn [py_in obind].
  - destruct (dict_get d (py "raw")) as [y|] eqn:Er; cbn [andb];
      intros [= <-].
    + split; [eexists; reflexivity | reflexivity].
    + split; [eexists; reflexivity|]. cbn [holds_key]. now rewrite Ee, Er.
  - intros [= <-]. split; [eexists; reflexivity|].
    cbn [holds_key]. now rewrite Ee.
Qed.

Lemma recommend_salary_never_returns_raw_reply_witness :
  holds_key (py "raw") SALARY_FALLBACK = false.
Proof.
  destruct (recommend_salary_never_returns_raw_reply no_prompt2
              (replying "{'error': 'e', 'raw': 'r'}") (py "jd") (py "cv")
              (initial_world 1000) SALARY_FALLBACK) as [_ H].
  - vm_compute. reflexivity.
  - exact H.
Defined.

(** X27. A reply that holds braces but cannot be parsed, as it is or with
    its single quotes turned into double quotes, makes
    [recommend_salary_detailed] return its fixed fallback, whose
    recommended figure is "N/A". *)
Theorem recommend_salary_falls_back (PROMPT : str -> str -> str) (e : env)
    (jd_text resume_text : str) (w w' : world) (response : str)
    (err err' : JSONDecodeError) :
  call_llm e (PROMPT jd_text resume_text) 2500 (1 # 10) w
  = (Val response, w') ->
  json_loads (clean_json_response response) = inr err ->
  json_loads (replace_char (chr "'") [34%N] (clean_json_response response))
  = inr err' ->
  recommend_salary_detailed PROMPT e jd_text resume_text w
  = (Val SALARY_FALLBACK, w')
  /\ at_path SALARY_FALLBACK (py "salary_recommendation") (py "recommended")
     = Some (JStr (py "N/A")).
Proof.
  intros Hcall H1 H2. split; [|reflexivity].
  unfold recommend_salary_detailed, bind, lift. rewrite Hcall.
  rewrite (safe_json_parse_both_fail response None err err' H1 H2).
  reflexivity.
Qed.

Lemma recommend_salary_falls_back_witness :
  fst (recommend_salary_detailed no_prompt2
         (replying "{minimum: 12 LPA}") (py "jd") (py "cv")
         (initial_world 1000))
  = Val SALARY_FALLBACK.
Proof.
  destruct (json_loads (clean_json_response (py "{minimum: 12 LPA}")))
    as [v|err] eqn:E1; [vm_compute in E1; discriminate|].
  destruct (json_loads (replace_char (chr "'") [34%N]
                          (clean_json_response (py "{minimum: 12 LPA}"))))
    as [v|err'] eqn:E2; [vm_compute in E2; discriminate|].
  destruct (recommend_salary_falls_back no_prompt2
              (replying "{minimum: 12 LPA}") (py "jd") (py "cv")
              (initial_world 1000)
              (snd (call_llm (replying "{minimum: 12 LPA}")
                      (no_prompt2 (py "jd") (py "cv")) 2500 (1 # 10)
                      (initial_world 1000)))
              (py "{minimum: 12 LPA}") err err') as [H _].
  - vm_compute. reflexivity.
  - exact E1.
  - exact E2.
  - rewrite H. reflexivity.
Defined.

Lemma set_in_section_mapping (d : list (str * json)) (section k : str)
    (x v : json) :
  set_in_section (JDict d) section k x = Val v ->
  exists s, dict_get d section = Some (JDict s)
            /\ v = JDict (dict_set d section (JDict (dict_set s k x))).
Proof.
  unfold set_in_section. cbn [getitem_key].
  destruct (dict_get d section) as [y|]; [|discriminate]. cbn [obind].
  destruct y as [| | | | | |s]; try discriminate.
  cbn [setitem_key obind]. intros [= <-]. now exists s.
Qed.

Lemma ensure_consistency_paths (d : list (str * json))
    (ats_score grade recommendation v : json) :
  ensure_consistency (JDict d) ats_score grade recommendation = Val v ->
  (holds_key (py "executive_summary") v = true ->
   at_path v (py "executive_summary") (py "recommendation")
   = Some recommendation
   /\ at_path v (py "executive_summary") (py "ats_score") = Some ats_score
   /\ at_path v (py "executive_summary") (py "grade") = Some grade)
  /\ (holds_key (py "final_recommendation") v = true ->
      at_path v (py "final_recommendation") (py "decision")
      = Some recommendation).
Proof.
  unfold ensure_consistency. cbn [py_in obind].
  assert (Hfinal : forall d1 : list (str * json),
    (has_final <~ py_in (py "final_recommendation") (JDict d1) ;;
     if has_final
     then set_in_section (JDict d1) (py "final_recommendation")
                         (py "decision") recommendation
     else Val (JDict d1)) = Val v ->
    (exists d2, v = JDict d2
                /\ dict_get d2 (py "executive_summary")
                   = dict_get d1 (py "executive_summary"))
    /\ (holds_key (py "final_recommendation") v = true ->
        at_path v (py "final_recommendation") (py "decision")
        = Some recommendation)).
  { intros d1. cbn [py_in obind].
    destruct (dict_get d1 (py "final_recommendation")) as [y|] eqn:Ef.
    - intros H. apply set_in_section_mapping in H as (s & Hs & ->). split.
      + eexists. split; [reflexivity|].
        now rewrite dict_get_set_other by discriminate.
      + intros _. unfold at_path. now rewrite !dict_get_set_same.
    - intros [= <-]. split.
      + eexists. split; reflexivity.
      + cbn [holds_key]. rewrite Ef. discriminate. }
  destruct (dict_get d (py "executive_summary")) as [x|] eqn:Ee.
  - destruct (set_in_section (JDict d) (py "executive_summary")
                (py "recommendation") recommendation) as [r1|ex] eqn:E1;
      [|discriminate].
    apply set_in_section_mapping in E1 as (s & Hs & ->). cbn [obind].
    destruct (set_in_section _ (py "executive_summary") (py "ats_score")
                ats_score) as [r2|ex] eqn:E2; [|discriminate].
    apply set_in_section_mapping in E2 as (s2 & Hs2 & ->). cbn [obind].
    rewrite dict_get_set_same in Hs2. injection Hs2 as <-.
    destruct (set_in_section _ (py "executive_summary") (py "grade") grade)
      as [r3|ex] eqn:E3; [|discriminate].
    apply set_in_section_mapping in E3 as (s3 & Hs3 & ->). cbn [obind].
    rewrite dict_get_set_same in Hs3. injection Hs3 as <-.
    intros H. apply Hfinal in H as [(d2 & -> & Hd2) H]. split; [|exact H].
    intros _. unfold at_path. rewrite Hd2, dict_get_set_same.
    repeat split.
    + rewrite !dict_get_set_other by discriminate. apply dict_get_set_same.
    + rewrite dict_get_set_other by discriminate. apply dict_get_set_same.
    + apply dict_get_set_same.
  - cbn [obind]. intros H. apply Hfinal in H as [(d2 & -> & Hd2) H].
    split; [|exact H].
    cbn [holds_key]. rewrite Hd2, Ee. discriminate.
Qed.

(** X28. The report carries the values of the match result, not those the
    model wrote: where [generate_hiring_report_detailed] returns a report
    with an [executive_summary], its recommendation, score and grade are
    the ones taken from the match result (70, "B" and "CONSIDER" by
    default), and the decision of a [final_recommendation] is that
    recommendation. *)
Theorem hiring_report_carries_match_values
    (PROMPT : str -> str -> json -> json -> json -> json -> str -> str)
    (today : str) (e : env) (jd_text resume_text : str)
    (match_result salary_result : option (list (str * json))) (w : world)
    (ats_score grade recommendation v : json) :
  report_values match_result = Val (ats_score, grade, recommendation) ->
  fst (generate_hiring_report_detailed PROMPT today e jd_text resume_text
         match_result salary_result w) = Val v ->
  (holds_key (py "executive_summary") v = true ->
   at_path v (py "executive_summary") (py "recommendation")
   = Some recommendation
   /\ at_path v (py "executive_summary") (py "ats_score") = Some ats_score
   /\ at_path v (py "executive_summary") (py "grade") = Some grade)
  /\ (holds_key (py "final_recommendation") v = true ->
      at_path v (py "final_recommendation") (py "decision")
      = Some recommendation).
Proof.
  intros Hv. unfold generate_hiring_report_detailed.
  unfold bind at 1. unfold lift at 1. rewrite Hv.
  unfold bind, lift.
  destruct (call_llm e _ 3500 (1 # 10) w) as [[response|ex] w1];
    [|discriminate].
  destruct (safe_json_parse_mapping response None) as [d ->].
  cbn [fst]. apply ensure_consistency_paths.
Qed.

Lemma hiring_report_carries_match_values_witness :
  at_path
    (JDict [(py "executive_summary",
             JDict [(py "grade", JStr (py "C"));
                    (py "recommendation", JStr (py "CONSIDER"));
                    (py "ats_score", JInt 70)]);
            (py "final_recommendation",
             JDict [(py "decision", JStr (py "CONSIDER"))])])
    (py "executive_summary") (py "grade")
  = Some (JStr (py "C")).
Proof.
  refine (proj2 (proj2 (proj1
            (hiring_report_carries_match_values
               (fun _ _ _ _ _ _ _ => []) (py "November 04, 2026")
               (replying "{'executive_summary': {'grade': 'A+'}, 'final_recommendation': {}}")
               (py "jd") (py "cv")
               (Some [(py "match_summary",
                       JDict [(py "grade", JStr (py "C"))])])
               None (initial_world 1000)
               (JInt 70) (JStr (py "C")) (JStr (py "CONSIDER")) _ _ _) _))).
  - reflexivity.
  - vm_compute. reflexivity.
  - reflexivity.
Defined.
